(** * cam: a shallow embedding of [script.js]

    The camera page keeps its state in module-level [let] variables and
    reacts to browser events (animation frames, touches, control changes,
    recorder and camera callbacks).  The embedding follows that shape:

    - [JS] gives the JavaScript number operations the script uses, on
      Rocq's primitive binary64 floats, which are the numbers of the
      language;
    - [Cam] lists the script's variables ([Globals]), the part of the
      browser it talks to ([World]), its functions, and the handlers it
      registers, dispatched by [handle];
    - [Obs] adds observations of the state of [Cam];
    - [Page] adds, over the state of [Cam], what the script does to the
      look of the page and the photo on its way to the download link;
    - [Grain] details the film grain pass;
    - the later sections state and prove the properties of the render
      loop, the crop and filter computation, the zoom control, the
      camera session, the recorder, the page and the grain pass.

    [Cam] leaves out what the script only does to the look of the
    page: the focus ring shown on [pointerdown], the [active] classes
    of the filter chips and mode buttons, the settings drawer, the
    shutter flash and sound; these are in [Page].  Canvas calls, camera
    and recorder calls, downloads and the text of the recording timer
    are recorded in the order they are made ([Effect], [log]). *)

From Stdlib Require Import ZArith List Bool String Lia DecimalString.
From Stdlib Require Import Floats.
Import ListNotations.

Set Warnings "-inexact-float".

(** ** JavaScript numbers *)

Module JS.

Open Scope float_scope.

(** [a >= b] *)
Definition ge (a b : float) : bool := b <=? a.

(** Truthiness of a number: every number but [0], [-0] and [NaN]. *)
Definition truthy (x : float) : bool := negb (is_nan x || is_zero x).

(** [Math.max(a, b)]: [NaN] if either argument is, and [+0] above [-0]. *)
Definition Math_max (a b : float) : float :=
  if is_nan a || is_nan b then nan
  else if a <? b then b
  else if b <? a then a
  else if is_zero a && get_sign a then b
  else a.

(** [Math.min(a, b)]: [NaN] if either argument is, and [-0] below [+0]. *)
Definition Math_min (a b : float) : float :=
  if is_nan a || is_nan b then nan
  else if a <? b then a
  else if b <? a then b
  else if is_zero a && get_sign a then a
  else b.

(** [n % d], the remainder of the truncating division: it has the sign
    of the dividend and is computed exactly (no rounding is involved,
    the result is always representable). *)
Definition rem (n d : float) : float :=
  match Prim2SF n, Prim2SF d with
  | S754_nan, _ | _, S754_nan => nan
  | S754_infinity _, _ => nan
  | _, S754_zero _ => nan
  | S754_zero _, _ => n
  | S754_finite _ _ _, S754_infinity _ => n
  | S754_finite sn mn en, S754_finite _ md ed =>
      let e := Z.min en ed in
      let r := Z.rem (Z.pos mn * 2 ^ (en - e)) (Z.pos md * 2 ^ (ed - e)) in
      SF2Prim (binary_normalize prec emax (if sn then - r else r)%Z e sn)
  end.

(** [Math.floor(x)] *)
Definition Math_floor (x : float) : float :=
  match Prim2SF x with
  | S754_finite s m e =>
      if (0 <=? e)%Z then x
      else SF2Prim (binary_normalize prec emax
                      (Z.shiftr (if s then Z.neg m else Z.pos m) (- e)) 0 s)
  | _ => x
  end.

(** [a === "literal"] for a value that is a string or [undefined]. *)
Definition strict_eq (a : option string) (lit : string) : bool :=
  match a with
  | Some s => String.eqb s lit
  | None => false
  end.

(** How two numbers compare. *)
Inductive order (x y : float) : Prop :=
| order_lt :
    (x <? y) = true -> (y <? x) = false ->
    (x <=? y) = true -> (y <=? x) = false -> order x y
| order_gt :
    (x <? y) = false -> (y <? x) = true ->
    (x <=? y) = false -> (y <=? x) = true -> order x y
| order_eq :
    (x <? y) = false -> (y <? x) = false ->
    (x <=? y) = true -> (y <=? x) = true -> order x y.

End JS.

(** ** The script and the browser it runs in *)

Module Cam.

Import JS.
Open Scope string_scope.
Open Scope list_scope.
Open Scope float_scope.

(** *** Browser objects *)

(** A camera stream handed out by [getUserMedia]; its tracks are the
    device handles, identified by the stream and their position. *)
Record MediaStream := mkStream { sid : nat; ntracks : nat }.

Definition Track : Type := nat * nat.

Definition getTracks (st : MediaStream) : list Track :=
  map (pair (sid st)) (seq 0 (ntracks st)).

Record Constraints := mkConstraints {
  audio : bool;
  facingMode : string;
  width_ideal : float;
  height_ideal : float;
  frameRate_ideal : float;
  frameRate_max : float
}.

(** Binary data: the chunks a recorder delivers and the files built
    from them. *)
Record Blob := mkBlob { blob_type : string; bytes : list nat }.

(** [new Blob(parts, { type })] *)
Definition new_Blob (parts : list Blob) (type : string) : Blob :=
  mkBlob type (List.concat (map bytes parts)).

(** The functions the script passes to [requestAnimationFrame]. *)
Inductive FrameCallback := renderLoop_cb | updateRecordTimer_cb.

(** The functions the script installs on a recorder:
    [(e) => recordedChunks.push(e.data)] and [saveVideo]. *)
Inductive RecorderHandler := push_chunk | saveVideo_cb.

Record MediaRecorder := mkRecorder {
  ondataavailable : option RecorderHandler;
  onstop : option RecorderHandler;
  onerror : option RecorderHandler
}.

(** The value written to [ctx.filter]: the three numbers the template
    string of [buildFilterString] interpolates. *)
Record FilterString := mkFilter {
  brightness : float;
  contrast : float;
  saturate : float
}.

(** The text of the recording timer: [`${min}:${sec}`] or the literal
    ["00:00"]. *)
Inductive TimerText := Elapsed (min sec : float) | Zeros.

Inductive FileName :=
| video_name (stamp : float)            (* `video_${Date.now()}.webm` *)
| photo_name (stamp : float).           (* `photo_${Date.now()}.<ext>` *)

(** What the script does to the browser, in the order it does it. *)
Inductive Effect :=
| ctx_save
| ctx_filter (f : FilterString)
| ctx_drawImage (sx sy sw sh dx dy dw dh : float)
| ctx_grain (w h : float)
| ctx_restore
| ctx_setTransform (a b c d e f : float)
| track_stop (t : Track)
| getUserMedia (req : nat) (c : Constraints)
| video_play (req : nat)
| recorder_start (r : nat)
| recorder_stop (r : nat)
| recordRing_active (on : bool)
| recordTimer_text (t : TimerText)
| download (name : FileName) (b : Blob)
| photo_capture.

Record Touch := mkTouch { clientX : float; clientY : float }.

(** *** State *)

(** The script's [let] variables. *)
#[projections(primitive)]
Record Globals := mkGlobals {
  stream : option MediaStream;
  currentFacing : string;
  currentMode : string;
  currentFilter : option string;
  zoom : float;
  maxZoom : float;
  exposure : float;
  recording : bool;
  mediaRecorder : option nat;
  recordedChunks : list Blob;
  recordStartTime : float;
  recordTimerRAF : option nat;
  targetFPS : float;
  lastFrameTime : float;
  pinchStartDistance : option float;
  pinchStartZoom : float
}.

(** The browser state the script reads or writes: the video element,
    the canvas, the zoom slider, the clocks, the queue of animation
    frame callbacks, the recorders created so far (a recorder is
    referred to by its index), the pending continuations of
    [initCamera], the live camera tracks, and the effects so far. *)
#[projections(primitive)]
Record World := mkWorld {
  readyState : Z;
  videoWidth : float;
  videoHeight : float;
  srcObject : option MediaStream;
  canvas_width : float;
  canvas_height : float;
  canvas_rect : float * float;
  dpr : float;
  zoomSlider_value : float;
  performance_now : float;
  Date_now : float;
  raf_next : nat;
  raf_pending : list (nat * FrameCallback);
  recorders : list MediaRecorder;
  gum_next : nat;
  gum_pending : list nat;
  play_pending : list nat;
  stream_next : nat;
  live : list Track;
  log : list Effect
}.

#[projections(primitive)]
Record Sys := mkSys { js :> Globals; dom :> World }.

(** Assignments, one per variable or browser property. *)

Definition set_stream (v : option MediaStream) (s : Sys) : Sys :=
  let '(mkGlobals stream currentFacing currentMode currentFilter zoom maxZoom exposure
      recording mediaRecorder recordedChunks recordStartTime recordTimerRAF
      targetFPS lastFrameTime pinchStartDistance pinchStartZoom) :=
    js s in
  mkSys (mkGlobals v currentFacing currentMode currentFilter zoom maxZoom
    exposure recording mediaRecorder recordedChunks recordStartTime
    recordTimerRAF targetFPS lastFrameTime pinchStartDistance
    pinchStartZoom) (dom s).

Definition set_currentFacing (v : string) (s : Sys) : Sys :=
  let '(mkGlobals stream currentFacing currentMode currentFilter zoom maxZoom exposure
      recording mediaRecorder recordedChunks recordStartTime recordTimerRAF
      targetFPS lastFrameTime pinchStartDistance pinchStartZoom) :=
    js s in
  mkSys (mkGlobals stream v currentMode currentFilter zoom maxZoom
    exposure recording mediaRecorder recordedChunks recordStartTime
    recordTimerRAF targetFPS lastFrameTime pinchStartDistance
    pinchStartZoom) (dom s).

Definition set_currentMode (v : string) (s : Sys) : Sys :=
  let '(mkGlobals stream currentFacing currentMode currentFilter zoom maxZoom exposure
      recording mediaRecorder recordedChunks recordStartTime recordTimerRAF
      targetFPS lastFrameTime pinchStartDistance pinchStartZoom) :=
    js s in
  mkSys (mkGlobals stream currentFacing v currentFilter zoom maxZoom
    exposure recording mediaRecorder recordedChunks recordStartTime
    recordTimerRAF targetFPS lastFrameTime pinchStartDistance
    pinchStartZoom) (dom s).

Definition set_currentFilter (v : option string) (s : Sys) : Sys :=
  let '(mkGlobals stream currentFacing currentMode currentFilter zoom maxZoom exposure
      recording mediaRecorder recordedChunks recordStartTime recordTimerRAF
      targetFPS lastFrameTime pinchStartDistance pinchStartZoom) :=
    js s in
  mkSys (mkGlobals stream currentFacing currentMode v zoom maxZoom
    exposure recording mediaRecorder recordedChunks recordStartTime
    recordTimerRAF targetFPS lastFrameTime pinchStartDistance
    pinchStartZoom) (dom s).

Definition set_zoom (v : float) (s : Sys) : Sys :=
  let '(mkGlobals stream currentFacing currentMode currentFilter zoom maxZoom exposure
      recording mediaRecorder recordedChunks recordStartTime recordTimerRAF
      targetFPS lastFrameTime pinchStartDistance pinchStartZoom) :=
    js s in
  mkSys (mkGlobals stream currentFacing currentMode currentFilter v
    maxZoom exposure recording mediaRecorder recordedChunks recordStartTime
    recordTimerRAF targetFPS lastFrameTime pinchStartDistance
    pinchStartZoom) (dom s).

Definition set_maxZoom (v : float) (s : Sys) : Sys :=
  let '(mkGlobals stream currentFacing currentMode currentFilter zoom maxZoom exposure
      recording mediaRecorder recordedChunks recordStartTime recordTimerRAF
      targetFPS lastFrameTime pinchStartDistance pinchStartZoom) :=
    js s in
  mkSys (mkGlobals stream currentFacing currentMode currentFilter zoom v
    exposure recording mediaRecorder recordedChunks recordStartTime
    recordTimerRAF targetFPS lastFrameTime pinchStartDistance
    pinchStartZoom) (dom s).

Definition set_exposure (v : float) (s : Sys) : Sys :=
  let '(mkGlobals stream currentFacing currentMode currentFilter zoom maxZoom exposure
      recording mediaRecorder recordedChunks recordStartTime recordTimerRAF
      targetFPS lastFrameTime pinchStartDistance pinchStartZoom) :=
    js s in
  mkSys (mkGlobals stream currentFacing currentMode currentFilter zoom
    maxZoom v recording mediaRecorder recordedChunks recordStartTime
    recordTimerRAF targetFPS lastFrameTime pinchStartDistance
    pinchStartZoom) (dom s).

Definition set_recording (v : bool) (s : Sys) : Sys :=
  let '(mkGlobals stream currentFacing currentMode currentFilter zoom maxZoom exposure
      recording mediaRecorder recordedChunks recordStartTime recordTimerRAF
      targetFPS lastFrameTime pinchStartDistance pinchStartZoom) :=
    js s in
  mkSys (mkGlobals stream currentFacing currentMode currentFilter zoom
    maxZoom exposure v mediaRecorder recordedChunks recordStartTime
    recordTimerRAF targetFPS lastFrameTime pinchStartDistance
    pinchStartZoom) (dom s).

Definition set_mediaRecorder (v : option nat) (s : Sys) : Sys :=
  let '(mkGlobals stream currentFacing currentMode currentFilter zoom maxZoom exposure
      recording mediaRecorder recordedChunks recordStartTime recordTimerRAF
      targetFPS lastFrameTime pinchStartDistance pinchStartZoom) :=
    js s in
  mkSys (mkGlobals stream currentFacing currentMode currentFilter zoom
    maxZoom exposure recording v recordedChunks recordStartTime
    recordTimerRAF targetFPS lastFrameTime pinchStartDistance
    pinchStartZoom) (dom s).

Definition set_recordedChunks (v : list Blob) (s : Sys) : Sys :=
  let '(mkGlobals stream currentFacing currentMode currentFilter zoom maxZoom exposure
      recording mediaRecorder recordedChunks recordStartTime recordTimerRAF
      targetFPS lastFrameTime pinchStartDistance pinchStartZoom) :=
    js s in
  mkSys (mkGlobals stream currentFacing currentMode currentFilter zoom
    maxZoom exposure recording mediaRecorder v recordStartTime
    recordTimerRAF targetFPS lastFrameTime pinchStartDistance
    pinchStartZoom) (dom s).

Definition set_recordStartTime (v : float) (s : Sys) : Sys :=
  let '(mkGlobals stream currentFacing currentMode currentFilter zoom maxZoom exposure
      recording mediaRecorder recordedChunks recordStartTime recordTimerRAF
      targetFPS lastFrameTime pinchStartDistance pinchStartZoom) :=
    js s in
  mkSys (mkGlobals stream currentFacing currentMode currentFilter zoom
    maxZoom exposure recording mediaRecorder recordedChunks v recordTimerRAF
    targetFPS lastFrameTime pinchStartDistance pinchStartZoom) (dom s).

Definition set_recordTimerRAF (v : option nat) (s : Sys) : Sys :=
  let '(mkGlobals stream currentFacing currentMode currentFilter zoom maxZoom exposure
      recording mediaRecorder recordedChunks recordStartTime recordTimerRAF
      targetFPS lastFrameTime pinchStartDistance pinchStartZoom) :=
    js s in
  mkSys (mkGlobals stream currentFacing currentMode currentFilter zoom
    maxZoom exposure recording mediaRecorder recordedChunks recordStartTime
    v targetFPS lastFrameTime pinchStartDistance pinchStartZoom) (dom s).

Definition set_targetFPS (v : float) (s : Sys) : Sys :=
  let '(mkGlobals stream currentFacing currentMode currentFilter zoom maxZoom exposure
      recording mediaRecorder recordedChunks recordStartTime recordTimerRAF
      targetFPS lastFrameTime pinchStartDistance pinchStartZoom) :=
    js s in
  mkSys (mkGlobals stream currentFacing currentMode currentFilter zoom
    maxZoom exposure recording mediaRecorder recordedChunks recordStartTime
    recordTimerRAF v lastFrameTime pinchStartDistance pinchStartZoom) (dom
    s).

Definition set_lastFrameTime (v : float) (s : Sys) : Sys :=
  let '(mkGlobals stream currentFacing currentMode currentFilter zoom maxZoom exposure
      recording mediaRecorder recordedChunks recordStartTime recordTimerRAF
      targetFPS lastFrameTime pinchStartDistance pinchStartZoom) :=
    js s in
  mkSys (mkGlobals stream currentFacing currentMode currentFilter zoom
    maxZoom exposure recording mediaRecorder recordedChunks recordStartTime
    recordTimerRAF targetFPS v pinchStartDistance pinchStartZoom) (dom s).

Definition set_pinchStartDistance (v : option float) (s : Sys) : Sys :=
  let '(mkGlobals stream currentFacing currentMode currentFilter zoom maxZoom exposure
      recording mediaRecorder recordedChunks recordStartTime recordTimerRAF
      targetFPS lastFrameTime pinchStartDistance pinchStartZoom) :=
    js s in
  mkSys (mkGlobals stream currentFacing currentMode currentFilter zoom
    maxZoom exposure recording mediaRecorder recordedChunks recordStartTime
    recordTimerRAF targetFPS lastFrameTime v pinchStartZoom) (dom s).

Definition set_pinchStartZoom (v : float) (s : Sys) : Sys :=
  let '(mkGlobals stream currentFacing currentMode currentFilter zoom maxZoom exposure
      recording mediaRecorder recordedChunks recordStartTime recordTimerRAF
      targetFPS lastFrameTime pinchStartDistance pinchStartZoom) :=
    js s in
  mkSys (mkGlobals stream currentFacing currentMode currentFilter zoom
    maxZoom exposure recording mediaRecorder recordedChunks recordStartTime
    recordTimerRAF targetFPS lastFrameTime pinchStartDistance v) (dom s).

Definition set_readyState (v : Z) (s : Sys) : Sys :=
  let '(mkWorld readyState videoWidth videoHeight srcObject canvas_width canvas_height
      canvas_rect dpr zoomSlider_value performance_now Date_now raf_next
      raf_pending recorders gum_next gum_pending play_pending stream_next
      live log) :=
    dom s in
  mkSys (js s) (mkWorld v videoWidth videoHeight srcObject canvas_width
    canvas_height canvas_rect dpr zoomSlider_value performance_now Date_now
    raf_next raf_pending recorders gum_next gum_pending play_pending
    stream_next live log).

Definition set_videoWidth (v : float) (s : Sys) : Sys :=
  let '(mkWorld readyState videoWidth videoHeight srcObject canvas_width canvas_height
      canvas_rect dpr zoomSlider_value performance_now Date_now raf_next
      raf_pending recorders gum_next gum_pending play_pending stream_next
      live log) :=
    dom s in
  mkSys (js s) (mkWorld readyState v videoHeight srcObject canvas_width
    canvas_height canvas_rect dpr zoomSlider_value performance_now Date_now
    raf_next raf_pending recorders gum_next gum_pending play_pending
    stream_next live log).

Definition set_videoHeight (v : float) (s : Sys) : Sys :=
  let '(mkWorld readyState videoWidth videoHeight srcObject canvas_width canvas_height
      canvas_rect dpr zoomSlider_value performance_now Date_now raf_next
      raf_pending recorders gum_next gum_pending play_pending stream_next
      live log) :=
    dom s in
  mkSys (js s) (mkWorld readyState videoWidth v srcObject canvas_width
    canvas_height canvas_rect dpr zoomSlider_value performance_now Date_now
    raf_next raf_pending recorders gum_next gum_pending play_pending
    stream_next live log).

Definition set_srcObject (v : option MediaStream) (s : Sys) : Sys :=
  let '(mkWorld readyState videoWidth videoHeight srcObject canvas_width canvas_height
      canvas_rect dpr zoomSlider_value performance_now Date_now raf_next
      raf_pending recorders gum_next gum_pending play_pending stream_next
      live log) :=
    dom s in
  mkSys (js s) (mkWorld readyState videoWidth videoHeight v canvas_width
    canvas_height canvas_rect dpr zoomSlider_value performance_now Date_now
    raf_next raf_pending recorders gum_next gum_pending play_pending
    stream_next live log).

Definition set_canvas_width (v : float) (s : Sys) : Sys :=
  let '(mkWorld readyState videoWidth videoHeight srcObject canvas_width canvas_height
      canvas_rect dpr zoomSlider_value performance_now Date_now raf_next
      raf_pending recorders gum_next gum_pending play_pending stream_next
      live log) :=
    dom s in
  mkSys (js s) (mkWorld readyState videoWidth videoHeight srcObject v
    canvas_height canvas_rect dpr zoomSlider_value performance_now Date_now
    raf_next raf_pending recorders gum_next gum_pending play_pending
    stream_next live log).

Definition set_canvas_height (v : float) (s : Sys) : Sys :=
  let '(mkWorld readyState videoWidth videoHeight srcObject canvas_width canvas_height
      canvas_rect dpr zoomSlider_value performance_now Date_now raf_next
      raf_pending recorders gum_next gum_pending play_pending stream_next
      live log) :=
    dom s in
  mkSys (js s) (mkWorld readyState videoWidth videoHeight srcObject
    canvas_width v canvas_rect dpr zoomSlider_value performance_now Date_now
    raf_next raf_pending recorders gum_next gum_pending play_pending
    stream_next live log).

Definition set_canvas_rect (v : float * float) (s : Sys) : Sys :=
  let '(mkWorld readyState videoWidth videoHeight srcObject canvas_width canvas_height
      canvas_rect dpr zoomSlider_value performance_now Date_now raf_next
      raf_pending recorders gum_next gum_pending play_pending stream_next
      live log) :=
    dom s in
  mkSys (js s) (mkWorld readyState videoWidth videoHeight srcObject
    canvas_width canvas_height v dpr zoomSlider_value performance_now
    Date_now raf_next raf_pending recorders gum_next gum_pending
    play_pending stream_next live log).

Definition set_zoomSlider_value (v : float) (s : Sys) : Sys :=
  let '(mkWorld readyState videoWidth videoHeight srcObject canvas_width canvas_height
      canvas_rect dpr zoomSlider_value performance_now Date_now raf_next
      raf_pending recorders gum_next gum_pending play_pending stream_next
      live log) :=
    dom s in
  mkSys (js s) (mkWorld readyState videoWidth videoHeight srcObject
    canvas_width canvas_height canvas_rect dpr v performance_now Date_now
    raf_next raf_pending recorders gum_next gum_pending play_pending
    stream_next live log).

Definition set_performance_now (v : float) (s : Sys) : Sys :=
  let '(mkWorld readyState videoWidth videoHeight srcObject canvas_width canvas_height
      canvas_rect dpr zoomSlider_value performance_now Date_now raf_next
      raf_pending recorders gum_next gum_pending play_pending stream_next
      live log) :=
    dom s in
  mkSys (js s) (mkWorld readyState videoWidth videoHeight srcObject
    canvas_width canvas_height canvas_rect dpr zoomSlider_value v Date_now
    raf_next raf_pending recorders gum_next gum_pending play_pending
    stream_next live log).

Definition set_Date_now (v : float) (s : Sys) : Sys :=
  let '(mkWorld readyState videoWidth videoHeight srcObject canvas_width canvas_height
      canvas_rect dpr zoomSlider_value performance_now Date_now raf_next
      raf_pending recorders gum_next gum_pending play_pending stream_next
      live log) :=
    dom s in
  mkSys (js s) (mkWorld readyState videoWidth videoHeight srcObject
    canvas_width canvas_height canvas_rect dpr zoomSlider_value
    performance_now v raf_next raf_pending recorders gum_next gum_pending
    play_pending stream_next live log).

Definition set_raf_next (v : nat) (s : Sys) : Sys :=
  let '(mkWorld readyState videoWidth videoHeight srcObject canvas_width canvas_height
      canvas_rect dpr zoomSlider_value performance_now Date_now raf_next
      raf_pending recorders gum_next gum_pending play_pending stream_next
      live log) :=
    dom s in
  mkSys (js s) (mkWorld readyState videoWidth videoHeight srcObject
    canvas_width canvas_height canvas_rect dpr zoomSlider_value
    performance_now Date_now v raf_pending recorders gum_next gum_pending
    play_pending stream_next live log).

Definition set_raf_pending (v : list (nat * FrameCallback)) (s : Sys) : Sys :=
  let '(mkWorld readyState videoWidth videoHeight srcObject canvas_width canvas_height
      canvas_rect dpr zoomSlider_value performance_now Date_now raf_next
      raf_pending recorders gum_next gum_pending play_pending stream_next
      live log) :=
    dom s in
  mkSys (js s) (mkWorld readyState videoWidth videoHeight srcObject
    canvas_width canvas_height canvas_rect dpr zoomSlider_value
    performance_now Date_now raf_next v recorders gum_next gum_pending
    play_pending stream_next live log).

Definition set_recorders (v : list MediaRecorder) (s : Sys) : Sys :=
  let '(mkWorld readyState videoWidth videoHeight srcObject canvas_width canvas_height
      canvas_rect dpr zoomSlider_value performance_now Date_now raf_next
      raf_pending recorders gum_next gum_pending play_pending stream_next
      live log) :=
    dom s in
  mkSys (js s) (mkWorld readyState videoWidth videoHeight srcObject
    canvas_width canvas_height canvas_rect dpr zoomSlider_value
    performance_now Date_now raf_next raf_pending v gum_next gum_pending
    play_pending stream_next live log).

Definition set_gum_next (v : nat) (s : Sys) : Sys :=
  let '(mkWorld readyState videoWidth videoHeight srcObject canvas_width canvas_height
      canvas_rect dpr zoomSlider_value performance_now Date_now raf_next
      raf_pending recorders gum_next gum_pending play_pending stream_next
      live log) :=
    dom s in
  mkSys (js s) (mkWorld readyState videoWidth videoHeight srcObject
    canvas_width canvas_height canvas_rect dpr zoomSlider_value
    performance_now Date_now raf_next raf_pending recorders v gum_pending
    play_pending stream_next live log).

Definition set_gum_pending (v : list nat) (s : Sys) : Sys :=
  let '(mkWorld readyState videoWidth videoHeight srcObject canvas_width canvas_height
      canvas_rect dpr zoomSlider_value performance_now Date_now raf_next
      raf_pending recorders gum_next gum_pending play_pending stream_next
      live log) :=
    dom s in
  mkSys (js s) (mkWorld readyState videoWidth videoHeight srcObject
    canvas_width canvas_height canvas_rect dpr zoomSlider_value
    performance_now Date_now raf_next raf_pending recorders gum_next v
    play_pending stream_next live log).

Definition set_play_pending (v : list nat) (s : Sys) : Sys :=
  let '(mkWorld readyState videoWidth videoHeight srcObject canvas_width canvas_height
      canvas_rect dpr zoomSlider_value performance_now Date_now raf_next
      raf_pending recorders gum_next gum_pending play_pending stream_next
      live log) :=
    dom s in
  mkSys (js s) (mkWorld readyState videoWidth videoHeight srcObject
    canvas_width canvas_height canvas_rect dpr zoomSlider_value
    performance_now Date_now raf_next raf_pending recorders gum_next
    gum_pending v stream_next live log).

Definition set_stream_next (v : nat) (s : Sys) : Sys :=
  let '(mkWorld readyState videoWidth videoHeight srcObject canvas_width canvas_height
      canvas_rect dpr zoomSlider_value performance_now Date_now raf_next
      raf_pending recorders gum_next gum_pending play_pending stream_next
      live log) :=
    dom s in
  mkSys (js s) (mkWorld readyState videoWidth videoHeight srcObject
    canvas_width canvas_height canvas_rect dpr zoomSlider_value
    performance_now Date_now raf_next raf_pending recorders gum_next
    gum_pending play_pending v live log).

Definition set_live (v : list Track) (s : Sys) : Sys :=
  let '(mkWorld readyState videoWidth videoHeight srcObject canvas_width canvas_height
      canvas_rect dpr zoomSlider_value performance_now Date_now raf_next
      raf_pending recorders gum_next gum_pending play_pending stream_next
      live log) :=
    dom s in
  mkSys (js s) (mkWorld readyState videoWidth videoHeight srcObject
    canvas_width canvas_height canvas_rect dpr zoomSlider_value
    performance_now Date_now raf_next raf_pending recorders gum_next
    gum_pending play_pending stream_next v log).

Definition set_log (v : list Effect) (s : Sys) : Sys :=
  let '(mkWorld readyState videoWidth videoHeight srcObject canvas_width canvas_height
      canvas_rect dpr zoomSlider_value performance_now Date_now raf_next
      raf_pending recorders gum_next gum_pending play_pending stream_next
      live log) :=
    dom s in
  mkSys (js s) (mkWorld readyState videoWidth videoHeight srcObject
    canvas_width canvas_height canvas_rect dpr zoomSlider_value
    performance_now Date_now raf_next raf_pending recorders gum_next
    gum_pending play_pending stream_next live v).

(** *** Browser operations the script calls *)

Definition emit (e : Effect) (s : Sys) : Sys := set_log (log s ++ [e]) s.

(** [requestAnimationFrame(cb)]: queues [cb] and returns its handle. *)
Definition requestAnimationFrame (cb : FrameCallback) (s : Sys) : nat * Sys :=
  let id := raf_next s in
  (id, set_raf_next (S id) (set_raf_pending (raf_pending s ++ [(id, cb)]) s)).

(** [cancelAnimationFrame(handle)]; a [null] handle cancels nothing. *)
Definition cancelAnimationFrame (handle : option nat) (s : Sys) : Sys :=
  match handle with
  | Some id =>
      set_raf_pending
        (filter (fun p => negb (Nat.eqb (fst p) id)) (raf_pending s)) s
  | None => s
  end.

Definition track_eqb (a b : Track) : bool :=
  Nat.eqb (fst a) (fst b) && Nat.eqb (snd a) (snd b).

(** [t.stop()]: the track stops being live. *)
Definition stop_track (t : Track) (s : Sys) : Sys :=
  emit (track_stop t)
    (set_live (filter (fun u => negb (track_eqb u t)) (live s)) s).

(** [st.getTracks().forEach((t) => t.stop())] *)
Definition stop_tracks (st : MediaStream) (s : Sys) : Sys :=
  fold_left (fun s t => stop_track t s) (getTracks st) s.

(** [navigator.mediaDevices.getUserMedia(constraints)]: the request
    stays pending until the browser settles it. *)
Definition navigator_getUserMedia (c : Constraints) (s : Sys) : Sys :=
  let req := gum_next s in
  emit (getUserMedia req c)
    (set_gum_next (S req) (set_gum_pending (gum_pending s ++ [req]) s)).

(** [new MediaRecorder(...)]: a fresh recorder with no handler. *)
Definition new_MediaRecorder (s : Sys) : nat * Sys :=
  (List.length (recorders s),
   set_recorders (recorders s ++ [mkRecorder None None None]) s).

Fixpoint update_nth {A} (n : nat) (f : A -> A) (l : list A) : list A :=
  match l, n with
  | [], _ => []
  | x :: l', O => f x :: l'
  | x :: l', S n' => x :: update_nth n' f l'
  end.

Definition set_ondataavailable (r : nat) (h : RecorderHandler) (s : Sys) : Sys :=
  set_recorders
    (update_nth r (fun m => mkRecorder (Some h) (onstop m) (onerror m))
       (recorders s)) s.

Definition set_onstop (r : nat) (h : RecorderHandler) (s : Sys) : Sys :=
  set_recorders
    (update_nth r (fun m => mkRecorder (ondataavailable m) (Some h) (onerror m))
       (recorders s)) s.

(** *** The script's functions *)

Section Script.

(** [Math.hypot] is only required to approximate the square root of
    the sum of squares; the script is read for any such function. *)
Variable Math_hypot : float -> float -> float.

(** Filter pipeline *)

Definition buildFilterString (s : Sys) : FilterString :=
  let brightness := 1 + exposure s * 0.15 in
  let contrast := if strict_eq (currentFilter s) "cinema" then 1.15 else 1 in
  let saturation :=
    if strict_eq (currentFilter s) "bw" then 0
    else if strict_eq (currentFilter s) "vivid" then 1.3
    else 1 in
  mkFilter brightness contrast saturation.

(** Canvas resize *)

Definition resizeCanvas (s : Sys) : Sys :=
  let rect := canvas_rect s in
  let s := set_canvas_width (Math_floor (fst rect * dpr s)) s in
  let s := set_canvas_height (Math_floor (snd rect * dpr s)) s in
  emit (ctx_setTransform (dpr s) 0 0 (dpr s) 0 0) s.

(** Camera initialization.  [initCamera] is an [async] function: it
    runs up to [await getUserMedia], resumes in [initCamera_acquired]
    when the request is fulfilled, and in [initCamera_playing] when
    [video.play()] is. *)

Definition initCamera (s : Sys) : Sys :=
  let s :=
    match stream s with
    | Some st => stop_tracks st s
    | None => s
    end in
  let constraints :=
    {| audio := false;
       facingMode := currentFacing s;
       width_ideal := 1920;
       height_ideal := 1080;
       frameRate_ideal := targetFPS s;
       frameRate_max := targetFPS s |} in
  navigator_getUserMedia constraints s.

Definition initCamera_acquired (req : nat) (st : MediaStream) (s : Sys) : Sys :=
  let s := set_stream (Some st) s in
  let s := set_srcObject (Some st) s in
  emit (video_play req) (set_play_pending (play_pending s ++ [req]) s).

Definition initCamera_playing (s : Sys) : Sys :=
  let s := resizeCanvas s in
  snd (requestAnimationFrame renderLoop_cb s).

(** Film grain: [w * h * 0.015] translucent marks at positions drawn
    from [Math.random]; the pass is recorded as one effect. *)
Definition applyFilmGrain (w h : float) (s : Sys) : Sys :=
  emit (ctx_grain w h) s.

(** Render loop *)

Definition drawFrame (s : Sys) : Sys :=
  if (readyState s <? 2)%Z then s
  else
    let vw := videoWidth s in
    let vh := videoHeight s in
    let cw := canvas_width s / dpr s in
    let ch := canvas_height s / dpr s in
    let zoomedW := vw / zoom s in
    let zoomedH := vh / zoom s in
    let sx := (vw - zoomedW) / 2 in
    let sy := (vh - zoomedH) / 2 in
    let s := emit ctx_save s in
    let s := emit (ctx_filter (buildFilterString s)) s in
    let s := emit (ctx_drawImage sx sy zoomedW zoomedH 0 0 cw ch) s in
    let s :=
      if strict_eq (currentFilter s) "film" then applyFilmGrain cw ch s
      else s in
    emit ctx_restore s.

Definition renderLoop (now : float) (s : Sys) : Sys :=
  let delta := now - lastFrameTime s in
  let frameInterval := 1000 / targetFPS s in
  let s :=
    if ge delta frameInterval then
      let s := set_lastFrameTime (now - rem delta frameInterval) s in
      drawFrame s
    else s in
  snd (requestAnimationFrame renderLoop_cb s).

(** Pinch to zoom *)

Definition getPinchDistance (t0 t1 : Touch) : float :=
  let dx := clientX t0 - clientX t1 in
  let dy := clientY t0 - clientY t1 in
  Math_hypot dx dy.

Definition setZoom (value : float) (s : Sys) : Sys :=
  let s := set_zoom (Math_min (Math_max value 1) (maxZoom s)) s in
  set_zoomSlider_value (zoom s) s.

Definition on_touchstart (touches : list Touch) (s : Sys) : Sys :=
  match touches with
  | [t0; t1] =>
      let s := set_pinchStartDistance (Some (getPinchDistance t0 t1)) s in
      set_pinchStartZoom (zoom s) s
  | _ => s
  end.

Definition on_touchmove (touches : list Touch) (s : Sys) : Sys :=
  match touches, pinchStartDistance s with
  | [t0; t1], Some start =>
      if truthy start then
        let dist := getPinchDistance t0 t1 in
        let scale := dist / start in
        setZoom (pinchStartZoom s * scale) s
      else s
  | _, _ => s
  end.

Definition on_touchend (s : Sys) : Sys := set_pinchStartDistance None s.

(** The slider has been moved to [v]; the handler reads it back with
    [parseFloat(zoomSlider.value)]. *)
Definition on_zoomSlider_input (v : float) (s : Sys) : Sys :=
  let s := set_zoomSlider_value v s in
  setZoom (zoomSlider_value s) s.

(** Filter selection: [currentFilter = chip.dataset.filter], which is
    [undefined] for a chip without the attribute. *)
Definition on_filterChip_click (filter : option string) (s : Sys) : Sys :=
  set_currentFilter filter s.

(** Photo capture; the encoding and the download are not detailed. *)
Definition capturePhoto (s : Sys) : Sys := emit photo_capture s.

(** Video recording *)

Definition updateRecordTimer (s : Sys) : Sys :=
  if negb (recording s) then s
  else
    let elapsed :=
      Math_floor ((performance_now s - recordStartTime s) / 1000) in
    let min := Math_floor (elapsed / 60) in
    let sec := rem elapsed 60 in
    let s := emit (recordTimer_text (Elapsed min sec)) s in
    let (id, s) := requestAnimationFrame updateRecordTimer_cb s in
    set_recordTimerRAF (Some id) s.

Definition startRecording (s : Sys) : Sys :=
  let (r, s) := new_MediaRecorder s in
  let s := set_mediaRecorder (Some r) s in
  let s := set_recordedChunks [] s in
  let s := set_ondataavailable r push_chunk s in
  let s := set_onstop r saveVideo_cb s in
  let s := emit (recorder_start r) s in
  let s := set_recordStartTime (performance_now s) s in
  let s := set_recording true s in
  let s := emit (recordRing_active true) s in
  updateRecordTimer s.

(** [mediaRecorder.stop()] on a [null] recorder raises a [TypeError],
    which ends the handler before the timer is cancelled. *)
Definition stopRecording (s : Sys) : Sys :=
  let s := set_recording false s in
  let s := emit (recordRing_active false) s in
  match mediaRecorder s with
  | Some r =>
      let s := emit (recorder_stop r) s in
      cancelAnimationFrame (recordTimerRAF s) s
  | None => s
  end.

Definition saveVideo (s : Sys) : Sys :=
  let blob := new_Blob (recordedChunks s) "video/webm" in
  let s := emit (download (video_name (Date_now s)) blob) s in
  emit (recordTimer_text Zeros) s.

(** Mode switching and the capture button *)

Definition on_modePhoto_click (s : Sys) : Sys := set_currentMode "photo" s.
Definition on_modeVideo_click (s : Sys) : Sys := set_currentMode "video" s.

Definition on_captureBtn_click (s : Sys) : Sys :=
  if String.eqb (currentMode s) "photo" then capturePhoto s
  else if recording s then stopRecording s
  else startRecording s.

(** Camera switch and settings; [v] is what [parseInt] returned. *)

Definition on_switchCameraBtn_click (s : Sys) : Sys :=
  let s :=
    set_currentFacing
      (if String.eqb (currentFacing s) "environment" then "user"
       else "environment") s in
  initCamera s.

Definition on_fpsSelect_change (v : float) (s : Sys) : Sys :=
  let s := set_targetFPS v s in
  initCamera s.

Definition on_maxZoomSelect_change (v : float) (s : Sys) : Sys :=
  let s := set_maxZoom v s in
  setZoom (zoom s) s.

Definition on_exposureSlider_input (v : float) (s : Sys) : Sys :=
  set_exposure v s.

End Script.

(** *** Events and their handlers *)

Inductive Event :=
| animation_frame (id : nat) (now : float)
| touchstart (touches : list Touch)
| touchmove (touches : list Touch)
| touchend
| zoomSlider_input (v : float)
| exposureSlider_input (v : float)
| filterChip_click (filter : option string)
| modePhoto_click
| modeVideo_click
| captureBtn_click
| switchCameraBtn_click
| fpsSelect_change (v : float)
| maxZoomSelect_change (v : float)
| window_resize (w h : float)
| recorder_dataavailable (r : nat) (data : Blob)
| recorder_stopped (r : nat)
| recorder_error (r : nat)
| getUserMedia_fulfilled (req : nat) (n : nat)
| getUserMedia_rejected (req : nat)
| play_fulfilled (req : nat)
| play_rejected (req : nat)
| clock (perf date : float)
| video_state (ready : Z) (w h : float).

Definition remove_nat (n : nat) (l : list nat) : list nat :=
  filter (fun m => negb (Nat.eqb m n)) l.

Definition mem_nat (n : nat) (l : list nat) : bool := existsb (Nat.eqb n) l.

Definition pending_frame (id : nat) (s : Sys) : option FrameCallback :=
  option_map snd (find (fun p => Nat.eqb (fst p) id) (raf_pending s)).

Section Handlers.

Variable Math_hypot : float -> float -> float.

(** A recorder event reaches the handler installed for it, if any;
    [data] is the event's [data] property. *)
Definition call_handler (h : option RecorderHandler) (data : option Blob)
    (s : Sys) : Sys :=
  match h, data with
  | Some push_chunk, Some b => set_recordedChunks (recordedChunks s ++ [b]) s
  | Some push_chunk, None => s
  | Some saveVideo_cb, _ => saveVideo s
  | None, _ => s
  end.

Definition handle (e : Event) (s : Sys) : Sys :=
  match e with
  | animation_frame id now =>
      match pending_frame id s with
      | Some cb =>
          let s := cancelAnimationFrame (Some id) s in
          match cb with
          | renderLoop_cb => renderLoop now s
          | updateRecordTimer_cb => updateRecordTimer s
          end
      | None => s
      end
  | touchstart touches => on_touchstart Math_hypot touches s
  | touchmove touches => on_touchmove Math_hypot touches s
  | touchend => on_touchend s
  | zoomSlider_input v => on_zoomSlider_input v s
  | exposureSlider_input v => on_exposureSlider_input v s
  | filterChip_click f => on_filterChip_click f s
  | modePhoto_click => on_modePhoto_click s
  | modeVideo_click => on_modeVideo_click s
  | captureBtn_click => on_captureBtn_click s
  | switchCameraBtn_click => on_switchCameraBtn_click s
  | fpsSelect_change v => on_fpsSelect_change v s
  | maxZoomSelect_change v => on_maxZoomSelect_change v s
  | window_resize w h => resizeCanvas (set_canvas_rect (w, h) s)
  | recorder_dataavailable r data =>
      match nth_error (recorders s) r with
      | Some m => call_handler (ondataavailable m) (Some data) s
      | None => s
      end
  | recorder_stopped r =>
      match nth_error (recorders s) r with
      | Some m => call_handler (onstop m) None s
      | None => s
      end
  | recorder_error r =>
      match nth_error (recorders s) r with
      | Some m => call_handler (onerror m) None s
      | None => s
      end
  | getUserMedia_fulfilled req n =>
      if mem_nat req (gum_pending s) then
        let s := set_gum_pending (remove_nat req (gum_pending s)) s in
        let st := mkStream (stream_next s) n in
        let s := set_stream_next (S (stream_next s)) s in
        let s := set_live (live s ++ getTracks st) s in
        initCamera_acquired req st s
      else s
  | getUserMedia_rejected req =>
      set_gum_pending (remove_nat req (gum_pending s)) s
  | play_fulfilled req =>
      if mem_nat req (play_pending s) then
        let s := set_play_pending (remove_nat req (play_pending s)) s in
        initCamera_playing s
      else s
  | play_rejected req =>
      set_play_pending (remove_nat req (play_pending s)) s
  | clock perf date => set_Date_now date (set_performance_now perf s)
  | video_state ready w h =>
      set_videoHeight h (set_videoWidth w (set_readyState ready s))
  end.

Definition run (es : list Event) (s : Sys) : Sys :=
  fold_left (fun s e => handle e s) es s.

End Handlers.

(** The state at the top of the script, in a browser [w], and after its
    last statement, [initCamera()]. *)
Definition initial (w : World) : Sys :=
  mkSys
    {| stream := None; currentFacing := "environment";
       currentMode := "photo"; currentFilter := Some "none";
       zoom := 1; maxZoom := 5; exposure := 0;
       recording := false; mediaRecorder := None; recordedChunks := [];
       recordStartTime := 0; recordTimerRAF := None;
       targetFPS := 60; lastFrameTime := 0;
       pinchStartDistance := None; pinchStartZoom := 1 |}
    w.

Definition boot (w : World) : Sys := initCamera (initial w).

(** A browser in which nothing has happened yet. *)
Definition fresh_world (ratio : float) : World :=
  {| readyState := 0; videoWidth := 0; videoHeight := 0; srcObject := None;
     canvas_width := 300; canvas_height := 150; canvas_rect := (300, 150);
     dpr := ratio; zoomSlider_value := 1;
     performance_now := 0; Date_now := 0;
     raf_next := 1; raf_pending := [];
     recorders := [];
     gum_next := 0; gum_pending := []; play_pending := [];
     stream_next := 0; live := []; log := [] |}.


(** *** Observations used in the statements *)

Definition is_drawImage (e : Effect) : bool :=
  match e with ctx_drawImage _ _ _ _ _ _ _ _ => true | _ => false end.

Definition is_grain (e : Effect) : bool :=
  match e with ctx_grain _ _ => true | _ => false end.

(** The number of frames composited so far. *)
Definition draws (l : list Effect) : nat := List.length (filter is_drawImage l).

(** The source rectangles of the frames composited so far. *)
Definition crops (l : list Effect) : list (float * float * float * float) :=
  flat_map
    (fun e =>
       match e with
       | ctx_drawImage sx sy sw sh _ _ _ _ => [(sx, sy, sw, sh)]
       | _ => []
       end) l.

(** The filters set on the canvas so far. *)
Definition filters (l : list Effect) : list FilterString :=
  flat_map (fun e => match e with ctx_filter f => [f] | _ => [] end) l.

(** The number of grain passes so far. *)
Definition grains (l : list Effect) : nat := List.length (filter is_grain l).

(** The value [setZoom] stores for [v] under the bound [M]. *)
Definition clamp (M v : float) : float := Math_min (Math_max v 1) M.

(** The stored zoom is within its bounds. *)
Definition zoom_in_range (s : Sys) : Prop :=
  (1 <=? zoom s) = true /\ (zoom s <=? maxZoom s) = true.

(** Inputs of the zoom handlers that make sense: the slider's value
    parses to a number, the maximum zoom chosen in the select is a
    finite number not below 1, and the distance between two touch
    points is finite.  The script itself checks none of this. *)
Definition input_ok (Math_hypot : float -> float -> float) (e : Event) : Prop :=
  match e with
  | zoomSlider_input v => is_nan v = false
  | maxZoomSelect_change v => (1 <=? v) = true /\ is_finite v = true
  | touchmove [t0; t1] => is_finite (getPinchDistance Math_hypot t0 t1) = true
  | _ => True
  end.

(** The variables of the zoom control, and what holds of them
    throughout: the zoom is within its bounds, the bound is a finite
    number not below 1, and so is the zoom remembered at the start of
    a pinch. *)
Definition zoom_vars (s : Sys) : float * float * float :=
  (zoom s, maxZoom s, pinchStartZoom s).

Definition zoom_invariant (s : Sys) : Prop :=
  zoom_in_range s /\
  (1 <=? maxZoom s) = true /\ is_finite (maxZoom s) = true /\
  (1 <=? pinchStartZoom s) = true /\ is_finite (pinchStartZoom s) = true.

(** One way to compute [Math.hypot]. *)
Definition hypot_sqrt (dx dy : float) : float := sqrt (dx * dx + dy * dy).

(** The files handed to the download link so far. *)
Definition downloads (l : list Effect) : list (FileName * Blob) :=
  flat_map (fun e => match e with download n b => [(n, b)] | _ => [] end) l.

(** The number of elapsed-time updates of the recording timer so far. *)
Definition is_tick (e : Effect) : bool :=
  match e with recordTimer_text (Elapsed _ _) => true | _ => false end.

Definition timer_ticks (l : list Effect) : nat := List.length (filter is_tick l).

(** What may happen between the two presses of the capture button,
    and until the recorder [r] has stopped: chunks (and errors) from
    [r], animation frames, and any use of the page other than the
    capture button and the photo mode button; recorders of earlier
    sessions are silent. *)
Definition session_event (r : nat) (e : Event) : Prop :=
  match e with
  | recorder_dataavailable r' _ | recorder_error r' => r' = r
  | captureBtn_click | modePhoto_click | recorder_stopped _ => False
  | _ => True
  end.

(** The part of the state a recording session lives in. *)
Definition session_vars (s : Sys) :
    bool * string * option nat * list Blob * list MediaRecorder *
    list (FileName * Blob) :=
  (recording s, currentMode s, mediaRecorder s, recordedChunks s,
   recorders s, downloads (log s)).

(** A step that leaves the recording session alone: it downloads
    nothing, and moves the timer only while recording. *)
Definition quiet_step (s s' : Sys) : Prop :=
  recording s' = recording s /\ currentMode s' = currentMode s /\
  mediaRecorder s' = mediaRecorder s /\
  recordedChunks s' = recordedChunks s /\
  recorders s' = recorders s /\
  downloads (log s') = downloads (log s) /\
  (recording s = false -> timer_ticks (log s') = timer_ticks (log s)).

(** A recorder as [startRecording] sets it up. *)
Definition session_recorder : MediaRecorder :=
  mkRecorder (Some push_chunk) (Some saveVideo_cb) None.

(** No recorder has an [onerror] handler. *)
Definition no_onerror (s : Sys) : Prop :=
  Forall (fun m => onerror m = None) (recorders s).

(** The chunks delivered by a sequence of events, in order. *)
Definition chunks_of (es : list Event) : list Blob :=
  flat_map
    (fun e => match e with recorder_dataavailable _ b => [b] | _ => [] end) es.

(** A state as the script leaves it at load, with the camera delivering
    1920x1080 frames. *)
Definition ready_world : World :=
  {| readyState := 4; videoWidth := 1920; videoHeight := 1080;
     srcObject := None;
     canvas_width := 390; canvas_height := 844; canvas_rect := (390, 844);
     dpr := 1; zoomSlider_value := 1;
     performance_now := 0; Date_now := 0;
     raf_next := 1; raf_pending := [];
     recorders := [];
     gum_next := 0; gum_pending := []; play_pending := [];
     stream_next := 0; live := []; log := [] |}.

(** The camera handles held: the streams that have a live track. *)
Definition handles (s : Sys) : list nat :=
  nodup Nat.eq_dec (map fst (live s)).

(** The tracks of the stream the script holds. *)
Definition current_tracks (s : Sys) : list Track :=
  match stream s with
  | Some st => getTracks st
  | None => []
  end.

(** The camera part of the state. *)
Definition cam_vars (s : Sys) : option MediaStream * list Track * list nat :=
  (stream s, live s, gum_pending s).

(** A change of facing or frame rate is serialized when no acquisition
    is outstanding at the time it is made. *)
Definition serial (e : Event) (s : Sys) : Prop :=
  match e with
  | switchCameraBtn_click | fpsSelect_change _ => gum_pending s = []
  | _ => True
  end.

Fixpoint serial_run (Math_hypot : float -> float -> float)
    (es : list Event) (s : Sys) : Prop :=
  match es with
  | [] => True
  | e :: es' => serial e s /\ serial_run Math_hypot es' (handle Math_hypot e s)
  end.

(** A camera session is active: a track of the stream the script holds
    is live. *)
Definition session_active (s : Sys) : Prop :=
  exists t, In t (current_tracks s) /\ In t (live s).

(** A change of facing or frame rate made while a session is active. *)
Definition in_session (e : Event) (s : Sys) : Prop :=
  match e with
  | switchCameraBtn_click | fpsSelect_change _ => session_active s
  | _ => True
  end.

Fixpoint in_session_run (Math_hypot : float -> float -> float)
    (es : list Event) (s : Sys) : Prop :=
  match es with
  | [] => True
  | e :: es' =>
      in_session e s /\ in_session_run Math_hypot es' (handle Math_hypot e s)
  end.

(** With no acquisition outstanding every live track belongs to the
    stream the script holds; with one outstanding no track is live;
    there is never more than one outstanding. *)
Definition camera_invariant (s : Sys) : Prop :=
  match gum_pending s with
  | [] => forall t, In t (live s) -> In t (current_tracks s)
  | [_] => live s = []
  | _ => False
  end.

(** Three chunks as a recorder may deliver them. *)
Definition chunk1 : Blob := mkBlob "video/webm;codecs=vp9" [26; 69; 223; 163]%nat.
Definition chunk2 : Blob := mkBlob "video/webm;codecs=vp9" [31; 67; 182; 117]%nat.

End Cam.

(** ** Further observations of the script's state *)

Module Obs.

Import JS Cam.
Open Scope string_scope.
Open Scope list_scope.
Open Scope float_scope.

(** The canvas calls [drawFrame] makes in a state: none while the video
    has no current frame. *)
Definition frame_effects (s : Sys) : list Effect :=
  if (readyState s <? 2)%Z then []
  else
    let cw := canvas_width s / dpr s in
    let ch := canvas_height s / dpr s in
    [ctx_save;
     ctx_filter (buildFilterString s);
     ctx_drawImage ((videoWidth s - videoWidth s / zoom s) / 2)
       ((videoHeight s - videoHeight s / zoom s) / 2)
       (videoWidth s / zoom s) (videoHeight s / zoom s) 0 0 cw ch]
    ++ (if strict_eq (currentFilter s) "film" then [ctx_grain cw ch] else [])
    ++ [ctx_restore].

(** The constraints [initCamera] asks for in a state. *)
Definition constraints_of (s : Sys) : Constraints :=
  {| audio := false;
     facingMode := currentFacing s;
     width_ideal := 1920;
     height_ideal := 1080;
     frameRate_ideal := targetFPS s;
     frameRate_max := targetFPS s |}.

(** The animation frame callbacks that are queued. *)
Definition is_renderLoop (p : nat * FrameCallback) : bool :=
  match snd p with renderLoop_cb => true | updateRecordTimer_cb => false end.

Definition is_timer (p : nat * FrameCallback) : bool :=
  match snd p with renderLoop_cb => false | updateRecordTimer_cb => true end.

Definition render_loops (s : Sys) : nat :=
  List.length (filter is_renderLoop (raf_pending s)).

Definition timer_callbacks (s : Sys) : list (nat * FrameCallback) :=
  filter is_timer (raf_pending s).

(** The browser hands out fresh handles: the queued callbacks have
    distinct handles, all handed out already. *)
Definition raf_wf (s : Sys) : Prop :=
  NoDup (map fst (raf_pending s)) /\
  Forall (fun p => (fst p < raf_next s)%nat) (raf_pending s).

(** The number of render loops an event starts: one when it fulfils a
    [video.play()] that [initCamera] awaits. *)
Definition starts_loop (e : Event) (s : Sys) : nat :=
  match e with
  | play_fulfilled req => if mem_nat req (play_pending s) then 1 else 0
  | _ => 0
  end.

Fixpoint started_loops (Math_hypot : float -> float -> float)
    (es : list Event) (s : Sys) : nat :=
  match es with
  | [] => 0
  | e :: es' =>
      (starts_loop e s + started_loops Math_hypot es' (handle Math_hypot e s))%nat
  end.

(** The timer callback is queued once while recording, under the
    handle the script remembers, and not at all otherwise. *)
Definition timer_state (s : Sys) : Prop :=
  if recording s then
    exists t, recordTimerRAF s = Some t /\
              timer_callbacks s = [(t, updateRecordTimer_cb)]
  else timer_callbacks s = [].

Definition loop_invariant (s : Sys) : Prop :=
  raf_wf s /\ (recording s = true -> mediaRecorder s <> None) /\ timer_state s.

Definition loop_vars (s : Sys) :
    list (nat * FrameCallback) * nat * bool * option nat * option nat :=
  (raf_pending s, raf_next s, recording s, mediaRecorder s, recordTimerRAF s).

(** A pinch is in progress: a start distance is remembered and it is
    truthy (neither [null], nor [0], nor [NaN]). *)
Definition pinch_armed (s : Sys) : bool :=
  match pinchStartDistance s with
  | Some d => truthy d
  | None => false
  end.

(** What may happen during a pinch without ending it: anything but a
    new two-finger [touchstart], a [touchend], and a change of the
    maximum zoom. *)
Definition during_pinch (e : Event) : Prop :=
  match e with
  | touchstart [_; _] | touchend | maxZoomSelect_change _ => False
  | _ => True
  end.

(** Events that are no use of a zoom control: neither the slider, nor
    the maximum zoom select, nor the start of a pinch. *)
Definition no_zoom_control (e : Event) : Prop :=
  match e with
  | touchstart [_; _] | zoomSlider_input _ | maxZoomSelect_change _ => False
  | _ => True
  end.

(** The variables of a pinch. *)
Definition pinch_vars (s : Sys) : option float * float * float :=
  (pinchStartDistance s, pinchStartZoom s, maxZoom s).

(** The camera requests made so far. *)
Definition requests (l : list Effect) : list Constraints :=
  flat_map (fun e => match e with getUserMedia _ c => [c] | _ => [] end) l.

(** What every camera request of the script looks like. *)
Definition video_only (c : Constraints) : Prop :=
  audio c = false /\ width_ideal c = 1920 /\ height_ideal c = 1080 /\
  frameRate_max c = frameRate_ideal c /\
  (facingMode c = "environment" \/ facingMode c = "user").

(** The camera request an event makes: one for a press of the camera
    switch, with the facing switched, and one for a change of the
    frame rate, with the new rate. *)
Definition new_requests (e : Event) (s : Sys) : list Constraints :=
  match e with
  | switchCameraBtn_click =>
      [constraints_of
         (set_currentFacing
            (if String.eqb (currentFacing s) "environment" then "user"
             else "environment") s)]
  | fpsSelect_change v => [constraints_of (set_targetFPS v s)]
  | _ => []
  end.

(** The calls to a recorder so far: [start()] and [stop()]. *)
Definition recorder_calls (l : list Effect) : list Effect :=
  filter
    (fun e => match e with recorder_start _ | recorder_stop _ => true | _ => false end)
    l.

Definition not_modeVideo (e : Event) : Prop :=
  match e with
  | modeVideo_click => False
  | _ => True
  end.

(** What may happen while the recorder [r], stopped, has not yet
    reported its stop and the next recorder, [S r], is recording: what
    may happen in a session, with chunks (and errors) from either
    recorder. *)
Definition overlap_event (r : nat) (e : Event) : Prop :=
  session_event r e \/ session_event (S r) e.

(** The number of presses of the camera switch in a sequence of
    events. *)
Definition switches (es : list Event) : nat :=
  List.length
    (filter (fun e => match e with switchCameraBtn_click => true | _ => false end)
       es).

(** The destination rectangles of the frames composited so far. *)
Definition dests (l : list Effect) : list (float * float * float * float) :=
  flat_map
    (fun e =>
       match e with
       | ctx_drawImage _ _ _ _ dx dy dw dh => [(dx, dy, dw, dh)]
       | _ => []
       end) l.

(** The effects that are no part of a composited frame. *)
Definition outside_frame (x : Effect) : Prop :=
  match x with
  | ctx_save | ctx_filter _ | ctx_drawImage _ _ _ _ _ _ _ _ | ctx_grain _ _
  | ctx_restore => False
  | _ => True
  end.

(** An animation frame that runs a render loop callback which passes
    the frame-interval test. *)
Definition accepted_frame (e : Event) (s : Sys) : Prop :=
  exists id now,
    e = animation_frame id now /\
    pending_frame id s = Some renderLoop_cb /\
    ge (now - lastFrameTime s) (1000 / targetFPS s) = true.

(** The events before the camera has started for the first time. *)
Definition before_play (e : Event) : Prop :=
  match e with
  | play_fulfilled _ => False
  | _ => True
  end.

(** A frame rate at which the frame interval is [NaN] or [+Infinity]:
    [NaN] (what [parseInt] gives for a value that is no number) and
    [0]. *)
Definition no_rate (v : float) : bool :=
  is_nan v || (is_zero v && negb (get_sign v)).

(** The variables of the frame-interval gate. *)
Definition rate_vars (s : Sys) : float * float := (targetFPS s, lastFrameTime s).

(** Events under which a loop without a rate stays as it is: no new
    choice of frame rate, and animation frames at times that are not
    infinitely far from the baseline [base] (for the rate 0; the rate
    [NaN] needs nothing). *)
Definition keeps_rate (fps base : float) (e : Event) : Prop :=
  match e with
  | fpsSelect_change _ => False
  | animation_frame _ now =>
      is_nan fps = true \/ (now - base =? infinity) = false
  | _ => True
  end.

(** The size of the canvas and what it is computed from. *)
Definition canvas_vars (s : Sys) : float * float * (float * float) * float :=
  (canvas_width s, canvas_height s, canvas_rect s, dpr s).

Definition no_resize (e : Event) : Prop :=
  match e with
  | window_resize _ _ => False
  | _ => True
  end.

End Obs.

(** ** The page around the script

    [Cam] follows the script's variables, the camera, the canvas and
    the recorder.  [Page] adds what the script does to the rest of the
    page: the classes of the focus ring, the shutter flash, the filter
    chips, the mode buttons and the settings drawer, its timeouts, the
    shutter sound, and the photo on its way from [canvas.toBlob] to
    the download link. *)

Module Page.

Import JS Cam.
Open Scope string_scope.
Open Scope list_scope.
Open Scope float_scope.

(** [element.classList]: class names in order, each at most once. *)
Definition classList : Type := list string.

Definition contains (c : string) (l : classList) : bool :=
  existsb (String.eqb c) l.

Definition classList_add (c : string) (l : classList) : classList :=
  if contains c l then l else l ++ [c].

Definition classList_remove (c : string) (l : classList) : classList :=
  filter (fun x => negb (String.eqb x c)) l.

(** A filter chip: its [data-filter] attribute and its classes. *)
Record Chip := mkChip { dataset_filter : option string; chip_classes : classList }.

(** The functions the script passes to [setTimeout]:
    [() => shutterFlash.classList.remove("active")], the callback of
    [showFocusRing], and [() => focusRing.classList.remove("fade-out")]. *)
Inductive TimeoutCallback := flash_end | ring_fade | ring_clear.

Record Timeout := mkTimeout { tid : nat; callback : TimeoutCallback; delay : float }.

(** The name given to a photo: [`photo_${Date.now()}.${saveFormatSelect.value}`]. *)
Record PhotoName := mkPhotoName { stamp : float; ext : string }.

(** What the script does to the page and the browser here, in order. *)
Inductive DocEffect :=
| canvas_toBlob (id : nat) (type : string) (quality : float)
| shutter_sound (wave : string) (frequency gain duration : float)
| createObjectURL (url : nat) (b : Blob)
| downloadLink_click (href : nat) (download : PhotoName)
| revokeObjectURL (url : nat)
| console_error (message : string)
| alert (message : string).

(** The page: the state of [Cam], the position and classes of the
    focus ring, the classes of the other elements the script touches,
    the two settings read by [capturePhoto], the timeouts and
    [toBlob] calls that are pending, the next object URL, the camera
    request made at load (the one whose failure is caught), and the
    effects so far. *)
#[projections(primitive)]
Record Doc := mkDoc {
  sys : Sys;
  focusRing_left : float;
  focusRing_top : float;
  focusRing_classes : classList;
  shutterFlash_classes : classList;
  filterChips : list Chip;
  modePhotoBtn_classes : classList;
  modeVideoBtn_classes : classList;
  settingsDrawer_classes : classList;
  shutterSoundToggle_checked : bool;
  saveFormatSelect_value : string;
  timeout_next : nat;
  timeouts : list Timeout;
  toBlob_next : nat;
  toBlob_pending : list nat;
  url_next : nat;
  boot_request : nat;
  doc_log : list DocEffect
}.

(** Assignments, one per property. *)

Definition set_sys (v : Sys) (d : Doc) : Doc :=
  mkDoc v (focusRing_left d) (focusRing_top d) (focusRing_classes d)
    (shutterFlash_classes d) (filterChips d) (modePhotoBtn_classes d)
    (modeVideoBtn_classes d) (settingsDrawer_classes d)
    (shutterSoundToggle_checked d) (saveFormatSelect_value d) (timeout_next
    d) (timeouts d) (toBlob_next d) (toBlob_pending d) (url_next d)
    (boot_request d) (doc_log d).

Definition set_focusRing_left (v : float) (d : Doc) : Doc :=
  mkDoc (sys d) v (focusRing_top d) (focusRing_classes d)
    (shutterFlash_classes d) (filterChips d) (modePhotoBtn_classes d)
    (modeVideoBtn_classes d) (settingsDrawer_classes d)
    (shutterSoundToggle_checked d) (saveFormatSelect_value d) (timeout_next
    d) (timeouts d) (toBlob_next d) (toBlob_pending d) (url_next d)
    (boot_request d) (doc_log d).

Definition set_focusRing_top (v : float) (d : Doc) : Doc :=
  mkDoc (sys d) (focusRing_left d) v (focusRing_classes d)
    (shutterFlash_classes d) (filterChips d) (modePhotoBtn_classes d)
    (modeVideoBtn_classes d) (settingsDrawer_classes d)
    (shutterSoundToggle_checked d) (saveFormatSelect_value d) (timeout_next
    d) (timeouts d) (toBlob_next d) (toBlob_pending d) (url_next d)
    (boot_request d) (doc_log d).

Definition set_focusRing_classes (v : classList) (d : Doc) : Doc :=
  mkDoc (sys d) (focusRing_left d) (focusRing_top d) v (shutterFlash_classes
    d) (filterChips d) (modePhotoBtn_classes d) (modeVideoBtn_classes d)
    (settingsDrawer_classes d) (shutterSoundToggle_checked d)
    (saveFormatSelect_value d) (timeout_next d) (timeouts d) (toBlob_next d)
    (toBlob_pending d) (url_next d) (boot_request d) (doc_log d).

Definition set_shutterFlash_classes (v : classList) (d : Doc) : Doc :=
  mkDoc (sys d) (focusRing_left d) (focusRing_top d) (focusRing_classes d) v
    (filterChips d) (modePhotoBtn_classes d) (modeVideoBtn_classes d)
    (settingsDrawer_classes d) (shutterSoundToggle_checked d)
    (saveFormatSelect_value d) (timeout_next d) (timeouts d) (toBlob_next d)
    (toBlob_pending d) (url_next d) (boot_request d) (doc_log d).

Definition set_filterChips (v : list Chip) (d : Doc) : Doc :=
  mkDoc (sys d) (focusRing_left d) (focusRing_top d) (focusRing_classes d)
    (shutterFlash_classes d) v (modePhotoBtn_classes d)
    (modeVideoBtn_classes d) (settingsDrawer_classes d)
    (shutterSoundToggle_checked d) (saveFormatSelect_value d) (timeout_next
    d) (timeouts d) (toBlob_next d) (toBlob_pending d) (url_next d)
    (boot_request d) (doc_log d).

Definition set_modePhotoBtn_classes (v : classList) (d : Doc) : Doc :=
  mkDoc (sys d) (focusRing_left d) (focusRing_top d) (focusRing_classes d)
    (shutterFlash_classes d) (filterChips d) v (modeVideoBtn_classes d)
    (settingsDrawer_classes d) (shutterSoundToggle_checked d)
    (saveFormatSelect_value d) (timeout_next d) (timeouts d) (toBlob_next d)
    (toBlob_pending d) (url_next d) (boot_request d) (doc_log d).

Definition set_modeVideoBtn_classes (v : classList) (d : Doc) : Doc :=
  mkDoc (sys d) (focusRing_left d) (focusRing_top d) (focusRing_classes d)
    (shutterFlash_classes d) (filterChips d) (modePhotoBtn_classes d) v
    (settingsDrawer_classes d) (shutterSoundToggle_checked d)
    (saveFormatSelect_value d) (timeout_next d) (timeouts d) (toBlob_next d)
    (toBlob_pending d) (url_next d) (boot_request d) (doc_log d).

Definition set_settingsDrawer_classes (v : classList) (d : Doc) : Doc :=
  mkDoc (sys d) (focusRing_left d) (focusRing_top d) (focusRing_classes d)
    (shutterFlash_classes d) (filterChips d) (modePhotoBtn_classes d)
    (modeVideoBtn_classes d) v (shutterSoundToggle_checked d)
    (saveFormatSelect_value d) (timeout_next d) (timeouts d) (toBlob_next d)
    (toBlob_pending d) (url_next d) (boot_request d) (doc_log d).

Definition set_shutterSoundToggle_checked (v : bool) (d : Doc) : Doc :=
  mkDoc (sys d) (focusRing_left d) (focusRing_top d) (focusRing_classes d)
    (shutterFlash_classes d) (filterChips d) (modePhotoBtn_classes d)
    (modeVideoBtn_classes d) (settingsDrawer_classes d) v
    (saveFormatSelect_value d) (timeout_next d) (timeouts d) (toBlob_next d)
    (toBlob_pending d) (url_next d) (boot_request d) (doc_log d).

Definition set_saveFormatSelect_value (v : string) (d : Doc) : Doc :=
  mkDoc (sys d) (focusRing_left d) (focusRing_top d) (focusRing_classes d)
    (shutterFlash_classes d) (filterChips d) (modePhotoBtn_classes d)
    (modeVideoBtn_classes d) (settingsDrawer_classes d)
    (shutterSoundToggle_checked d) v (timeout_next d) (timeouts d)
    (toBlob_next d) (toBlob_pending d) (url_next d) (boot_request d)
    (doc_log d).

Definition set_timeout_next (v : nat) (d : Doc) : Doc :=
  mkDoc (sys d) (focusRing_left d) (focusRing_top d) (focusRing_classes d)
    (shutterFlash_classes d) (filterChips d) (modePhotoBtn_classes d)
    (modeVideoBtn_classes d) (settingsDrawer_classes d)
    (shutterSoundToggle_checked d) (saveFormatSelect_value d) v (timeouts d)
    (toBlob_next d) (toBlob_pending d) (url_next d) (boot_request d)
    (doc_log d).

Definition set_timeouts (v : list Timeout) (d : Doc) : Doc :=
  mkDoc (sys d) (focusRing_left d) (focusRing_top d) (focusRing_classes d)
    (shutterFlash_classes d) (filterChips d) (modePhotoBtn_classes d)
    (modeVideoBtn_classes d) (settingsDrawer_classes d)
    (shutterSoundToggle_checked d) (saveFormatSelect_value d) (timeout_next
    d) v (toBlob_next d) (toBlob_pending d) (url_next d) (boot_request d)
    (doc_log d).

Definition set_toBlob_next (v : nat) (d : Doc) : Doc :=
  mkDoc (sys d) (focusRing_left d) (focusRing_top d) (focusRing_classes d)
    (shutterFlash_classes d) (filterChips d) (modePhotoBtn_classes d)
    (modeVideoBtn_classes d) (settingsDrawer_classes d)
    (shutterSoundToggle_checked d) (saveFormatSelect_value d) (timeout_next
    d) (timeouts d) v (toBlob_pending d) (url_next d) (boot_request d)
    (doc_log d).

Definition set_toBlob_pending (v : list nat) (d : Doc) : Doc :=
  mkDoc (sys d) (focusRing_left d) (focusRing_top d) (focusRing_classes d)
    (shutterFlash_classes d) (filterChips d) (modePhotoBtn_classes d)
    (modeVideoBtn_classes d) (settingsDrawer_classes d)
    (shutterSoundToggle_checked d) (saveFormatSelect_value d) (timeout_next
    d) (timeouts d) (toBlob_next d) v (url_next d) (boot_request d) (doc_log
    d).

Definition set_url_next (v : nat) (d : Doc) : Doc :=
  mkDoc (sys d) (focusRing_left d) (focusRing_top d) (focusRing_classes d)
    (shutterFlash_classes d) (filterChips d) (modePhotoBtn_classes d)
    (modeVideoBtn_classes d) (settingsDrawer_classes d)
    (shutterSoundToggle_checked d) (saveFormatSelect_value d) (timeout_next
    d) (timeouts d) (toBlob_next d) (toBlob_pending d) v (boot_request d)
    (doc_log d).

Definition set_boot_request (v : nat) (d : Doc) : Doc :=
  mkDoc (sys d) (focusRing_left d) (focusRing_top d) (focusRing_classes d)
    (shutterFlash_classes d) (filterChips d) (modePhotoBtn_classes d)
    (modeVideoBtn_classes d) (settingsDrawer_classes d)
    (shutterSoundToggle_checked d) (saveFormatSelect_value d) (timeout_next
    d) (timeouts d) (toBlob_next d) (toBlob_pending d) (url_next d) v
    (doc_log d).

Definition set_doc_log (v : list DocEffect) (d : Doc) : Doc :=
  mkDoc (sys d) (focusRing_left d) (focusRing_top d) (focusRing_classes d)
    (shutterFlash_classes d) (filterChips d) (modePhotoBtn_classes d)
    (modeVideoBtn_classes d) (settingsDrawer_classes d)
    (shutterSoundToggle_checked d) (saveFormatSelect_value d) (timeout_next
    d) (timeouts d) (toBlob_next d) (toBlob_pending d) (url_next d)
    (boot_request d) v.

(** *** Browser operations *)

Definition lift (f : Sys -> Sys) (d : Doc) : Doc := set_sys (f (sys d)) d.

Definition emit (e : DocEffect) (d : Doc) : Doc :=
  set_doc_log (doc_log d ++ [e]) d.

(** [setTimeout(cb, delay)] *)
Definition setTimeout (cb : TimeoutCallback) (ms : float) (d : Doc) : Doc :=
  set_timeout_next (S (timeout_next d))
    (set_timeouts (timeouts d ++ [mkTimeout (timeout_next d) cb ms]) d).

(** [canvas.toBlob(callback, type, quality)]: the callback runs later. *)
Definition canvas_toBlob_call (type : string) (quality : float) (d : Doc) : Doc :=
  let id := toBlob_next d in
  let d := emit (canvas_toBlob id type quality) d in
  set_toBlob_next (S id) (set_toBlob_pending (toBlob_pending d ++ [id]) d).

(** *** The script's functions *)

(** Tap to focus *)

Definition showFocusRing (x y : float) (d : Doc) : Doc :=
  let d := set_focusRing_left (x - 32) d in
  let d := set_focusRing_top (y - 32) d in
  let d := set_focusRing_classes (classList_add "active" (focusRing_classes d)) d in
  setTimeout ring_fade 500 d.

Definition call_timeout (cb : TimeoutCallback) (d : Doc) : Doc :=
  match cb with
  | flash_end =>
      set_shutterFlash_classes
        (classList_remove "active" (shutterFlash_classes d)) d
  | ring_fade =>
      let d :=
        set_focusRing_classes
          (classList_remove "active" (focusRing_classes d)) d in
      let d :=
        set_focusRing_classes
          (classList_add "fade-out" (focusRing_classes d)) d in
      setTimeout ring_clear 200 d
  | ring_clear =>
      set_focusRing_classes
        (classList_remove "fade-out" (focusRing_classes d)) d
  end.

(** Filter selection; [i] is the position of the chip in [filterChips]. *)
Definition on_filterChip_click (i : nat) (d : Doc) : Doc :=
  match nth_error (filterChips d) i with
  | Some chip =>
      let d :=
        set_filterChips
          (map (fun c => mkChip (dataset_filter c)
                           (classList_remove "active" (chip_classes c)))
             (filterChips d)) d in
      let d :=
        set_filterChips
          (update_nth i
             (fun c => mkChip (dataset_filter c)
                         (classList_add "active" (chip_classes c)))
             (filterChips d)) d in
      lift (Cam.on_filterChip_click (dataset_filter chip)) d
  | None => d
  end.

(** Shutter sound: a square wave of 1200 Hz at gain 0.1, stopped 0.05
    seconds after the current time of a new audio context. *)
Definition playShutterSound (d : Doc) : Doc :=
  emit (shutter_sound "square" 1200 0.1 0.05) d.

(** Photo capture *)

Definition toBlob_callback (blob : option Blob) (d : Doc) : Doc :=
  match blob with
  | Some b =>
      let url := url_next d in
      let d := set_url_next (S url) (emit (createObjectURL url b) d) in
      let d :=
        emit (downloadLink_click url
                (mkPhotoName (Date_now (sys d)) (saveFormatSelect_value d))) d in
      emit (revokeObjectURL url) d
  | None => d      (* [URL.createObjectURL(null)] raises a [TypeError] *)
  end.

Definition capturePhoto (d : Doc) : Doc :=
  let d :=
    set_shutterFlash_classes
      (classList_add "active" (shutterFlash_classes d)) d in
  let d := setTimeout flash_end 200 d in
  let d := if shutterSoundToggle_checked d then playShutterSound d else d in
  let d := canvas_toBlob_call ("image/" ++ saveFormatSelect_value d)%string 0.95 d in
  lift Cam.capturePhoto d.

(** Mode switching and the capture button *)

Definition on_modePhoto_click (d : Doc) : Doc :=
  let d := lift Cam.on_modePhoto_click d in
  let d :=
    set_modePhotoBtn_classes
      (classList_add "active" (modePhotoBtn_classes d)) d in
  set_modeVideoBtn_classes
    (classList_remove "active" (modeVideoBtn_classes d)) d.

Definition on_modeVideo_click (d : Doc) : Doc :=
  let d := lift Cam.on_modeVideo_click d in
  let d :=
    set_modeVideoBtn_classes
      (classList_add "active" (modeVideoBtn_classes d)) d in
  set_modePhotoBtn_classes
    (classList_remove "active" (modePhotoBtn_classes d)) d.

Definition on_captureBtn_click (d : Doc) : Doc :=
  if String.eqb (currentMode (sys d)) "photo" then capturePhoto d
  else if recording (sys d) then lift stopRecording d
  else lift startRecording d.

(** Settings drawer *)

Definition on_settingsBtn_click (d : Doc) : Doc :=
  set_settingsDrawer_classes
    (classList_add "open" (settingsDrawer_classes d)) d.

Definition on_closeSettingsBtn_click (d : Doc) : Doc :=
  set_settingsDrawer_classes
    (classList_remove "open" (settingsDrawer_classes d)) d.

(** The [catch] of the [initCamera()] call at load. *)
Definition boot_catch (d : Doc) : Doc :=
  let d := emit (console_error "Camera init failed:") d in
  emit (alert "Camera access failed. Please allow camera permissions.") d.

(** *** Events and their handlers *)

(** The events of [Cam] ([script]), a click on the chip at a position,
    a tap, the settings buttons, a timeout that is due, the end of an
    encoding started by [canvas.toBlob] ([null] when the canvas could
    not be encoded), and a change of one of the two settings read by
    [capturePhoto]. *)
Inductive Event :=
| script (e : Cam.Event)
| chip_click (i : nat)
| pointerdown (clientX clientY : float)
| settingsBtn_click
| closeSettingsBtn_click
| timeout (id : nat)
| toBlob_done (id : nat) (blob : option Blob)
| shutterSoundToggle_change (checked : bool)
| saveFormatSelect_change (v : string).

Definition pending_timeout (id : nat) (d : Doc) : option Timeout :=
  find (fun t => Nat.eqb (tid t) id) (timeouts d).

Section Handlers.

Variable Math_hypot : float -> float -> float.

(** A camera request of [initCamera] is rejected: its continuation is
    dropped, and the rejection reaches a [catch] only when the request
    is the one made at load. *)
Definition on_rejected (e : Cam.Event) (req : nat) (pending : list nat)
    (d : Doc) : Doc :=
  let caught := Nat.eqb req (boot_request d) && mem_nat req pending in
  let d := lift (Cam.handle Math_hypot e) d in
  if caught then boot_catch d else d.

Definition handle (e : Event) (d : Doc) : Doc :=
  match e with
  | script Cam.modePhoto_click => on_modePhoto_click d
  | script Cam.modeVideo_click => on_modeVideo_click d
  | script Cam.captureBtn_click => on_captureBtn_click d
  | script (Cam.filterChip_click _) => d       (* see [chip_click] *)
  | script (getUserMedia_rejected req) =>
      on_rejected (getUserMedia_rejected req) req (gum_pending (sys d)) d
  | script (play_rejected req) =>
      on_rejected (play_rejected req) req (play_pending (sys d)) d
  | script e => lift (Cam.handle Math_hypot e) d
  | chip_click i => on_filterChip_click i d
  | pointerdown x y => showFocusRing x y d
  | settingsBtn_click => on_settingsBtn_click d
  | closeSettingsBtn_click => on_closeSettingsBtn_click d
  | timeout id =>
      match pending_timeout id d with
      | Some t =>
          let d :=
            set_timeouts
              (filter (fun u => negb (Nat.eqb (tid u) id)) (timeouts d)) d in
          call_timeout (callback t) d
      | None => d
      end
  | toBlob_done id blob =>
      if mem_nat id (toBlob_pending d) then
        let d := set_toBlob_pending (remove_nat id (toBlob_pending d)) d in
        toBlob_callback blob d
      else d
  | shutterSoundToggle_change checked => set_shutterSoundToggle_checked checked d
  | saveFormatSelect_change v => set_saveFormatSelect_value v d
  end.

Definition run (es : list Event) (d : Doc) : Doc :=
  fold_left (fun d e => handle e d) es d.

End Handlers.

(** The page after the script has run, in a browser [w]; [html] gives
    the page as the markup describes it. *)
Definition boot (w : World) (html : Doc) : Doc :=
  set_boot_request (gum_next w) (set_sys (Cam.boot w) html).

(** *** Observations used in the statements *)

(** The events of [Cam] a page event amounts to: itself for an event of
    the script, the choice of its [data-filter] for a click on a chip,
    none for the rest. *)
Definition to_script (d : Doc) (e : Event) : list Cam.Event :=
  match e with
  | script (Cam.filterChip_click _) => []
  | script e => [e]
  | chip_click i =>
      match nth_error (filterChips d) i with
      | Some chip => [Cam.filterChip_click (dataset_filter chip)]
      | None => []
      end
  | _ => []
  end.

Fixpoint script_events (Math_hypot : float -> float -> float)
    (es : list Event) (d : Doc) : list Cam.Event :=
  match es with
  | [] => []
  | e :: es' =>
      to_script d e ++ script_events Math_hypot es' (handle Math_hypot e d)
  end.

(** The integer a number is, if it is one. *)
Definition integer_value (x : float) : option Z :=
  match Prim2SF x with
  | S754_zero _ => Some 0%Z
  | S754_finite s m e =>
      let magnitude :=
        if (0 <=? e)%Z then Some (Z.pos m * 2 ^ e)%Z
        else if (Z.pos m mod 2 ^ (- e) =? 0)%Z then Some (Z.pos m / 2 ^ (- e))%Z
        else None in
      option_map (fun v => if s then (- v)%Z else v) magnitude
  | _ => None
  end.

(** [`${x}`] for a number that is an integer of magnitude below
    [2^53]: its decimal digits, after a minus sign when negative.
    (Other numbers are written with the fewest digits that tell them
    from their neighbours, or with an exponent; [Date.now()] is never
    one of them.) *)
Definition Number_toString (x : float) : option string :=
  match integer_value x with
  | Some z =>
      if (Z.abs z <? 2 ^ 53)%Z then Some (NilZero.string_of_int (Z.to_int z))
      else None
  | None => None
  end.

Definition PhotoName_text (n : PhotoName) : option string :=
  option_map (fun t => "photo_" ++ t ++ "." ++ ext n)%string
    (Number_toString (stamp n)).

Definition is_digit (c : Ascii.ascii) : bool :=
  ((48 <=? Ascii.nat_of_ascii c) && (Ascii.nat_of_ascii c <=? 57))%nat.

(** The number of alerts shown. *)
Definition alerts (l : list DocEffect) : nat :=
  List.length (filter (fun e => match e with alert _ => true | _ => false end) l).

Definition has_timeout (cb : TimeoutCallback) (d : Doc) : Prop :=
  exists t, In t (timeouts d) /\ callback t = cb.

(** A class that the script takes away again after a delay is only
    there while the timeout that takes it away is pending. *)
Definition transient_classes (d : Doc) : Prop :=
  (contains "active" (shutterFlash_classes d) = true -> has_timeout flash_end d) /\
  (contains "active" (focusRing_classes d) = true -> has_timeout ring_fade d) /\
  (contains "fade-out" (focusRing_classes d) = true -> has_timeout ring_clear d).

(** Timeout handles are fresh: the pending ones are distinct and were
    handed out already. *)
Definition timeouts_wf (d : Doc) : Prop :=
  NoDup (map tid (timeouts d)) /\
  Forall (fun t => (tid t < timeout_next d)%nat) (timeouts d).

(** The part of the page the timeouts work on. *)
Definition chrome (d : Doc) : classList * classList * list Timeout * nat :=
  (shutterFlash_classes d, focusRing_classes d, timeouts d, timeout_next d).

(** The chips that show as selected. *)
Definition active_chips (d : Doc) : list nat :=
  filter
    (fun i =>
       match nth_error (filterChips d) i with
       | Some c => contains "active" (chip_classes c)
       | None => false
       end)
    (seq 0 (List.length (filterChips d))).

(** The mode buttons show the mode. *)
Definition mode_shown (d : Doc) : Prop :=
  contains "active" (modePhotoBtn_classes d) =
    String.eqb (currentMode (sys d)) "photo" /\
  contains "active" (modeVideoBtn_classes d) =
    String.eqb (currentMode (sys d)) "video".

Definition not_chip_click (e : Event) : Prop :=
  match e with
  | chip_click _ => False
  | _ => True
  end.

(** The events other than the end of the encoding [id]. *)
Definition other_encoding (id : nat) (e : Event) : Prop :=
  match e with
  | toBlob_done j _ => j <> id
  | _ => True
  end.

(** The events that are no failure of the camera request [req]. *)
Definition not_rejected (req : nat) (e : Event) : Prop :=
  match e with
  | script (getUserMedia_rejected r) | script (play_rejected r) => r <> req
  | _ => True
  end.

(** A page as markup may describe it, with five chips, the first one
    selected. *)
Definition sample_html : Doc :=
  {| sys := Cam.initial ready_world;
     focusRing_left := 0; focusRing_top := 0;
     focusRing_classes := ["focus-ring"];
     shutterFlash_classes := ["shutter-flash"];
     filterChips :=
       [mkChip (Some "none") ["filter-chip"; "active"];
        mkChip (Some "bw") ["filter-chip"];
        mkChip (Some "vivid") ["filter-chip"];
        mkChip (Some "cinema") ["filter-chip"];
        mkChip (Some "film") ["filter-chip"]];
     modePhotoBtn_classes := ["mode-btn"; "active"];
     modeVideoBtn_classes := ["mode-btn"];
     settingsDrawer_classes := ["settings-drawer"];
     shutterSoundToggle_checked := true;
     saveFormatSelect_value := "png";
     timeout_next := 1; timeouts := [];
     toBlob_next := 0; toBlob_pending := [];
     url_next := 0; boot_request := 0;
     doc_log := [] |}.

End Page.

(** ** The film grain pass *)

Module Grain.

Import JS.
Open Scope string_scope.
Open Scope list_scope.
Open Scope float_scope.

(** The canvas calls of [applyFilmGrain]. *)
Inductive Call :=
| fillStyle (v : string)
| fillRect (x y w h : float).

(** The loop of [applyFilmGrain], from the counter [i] on.  [random k]
    is the number the [k]-th call of [Math.random()] returns.  The
    counter is a number like any other: [fuel] bounds the number of
    turns, and the loop has not ended when it runs out. *)
Fixpoint marks (fuel : nat) (random : nat -> float) (k : nat)
    (i count w h : float) : option (list Call) :=
  match fuel with
  | O => None
  | S fuel' =>
      if i <? count then
        let x := random k * w in
        let y := random (S k) * h in
        option_map (cons (fillRect x y 1 1))
          (marks fuel' random (S (S k)) (i + 1) count w h)
      else Some []
  end.

Definition applyFilmGrain (fuel : nat) (random : nat -> float) (k : nat)
    (w h : float) : option (list Call) :=
  let grainDensity := 0.015 in
  let count := w * h * grainDensity in
  option_map (cons (fillStyle "rgba(255,255,255,0.03)"))
    (marks fuel random k 0 count w h).

(** The number that is the integer [z] (rounded, when [z] has more
    than 53 bits). *)
Definition Number_of_Z (z : Z) : float :=
  SF2Prim (binary_normalize prec emax z 0 false).

(** The binary64 form of a positive integer [p] of at most 53 bits:
    the mantissa is [p] shifted to 53 bits. *)
Definition whole (p : positive) : spec_float :=
  let e := (Z.pos (digits2_pos p) - 53)%Z in
  S754_finite false (fst (shl_align p 0 e)) e.

(** The marks of a pass that draws [n] of them. *)
Definition expected_marks (random : nat -> float) (k : nat) (w h : float)
    (n : nat) : list Call :=
  map (fun j => fillRect (random (k + 2 * j)%nat * w)
                  (random (k + 2 * j + 1)%nat * h) 1 1)
    (seq 0 n).

End Grain.

(** * Numbers: facts about binary64 arithmetic *)

Module NumberFacts.

Import JS.
Open Scope float_scope.

(** ** The operations on some values *)

Example rem_frame : rem 45 (1000 / 30) = 11.666666666666664.
Proof. reflexivity. Qed.

Example rem_sign_of_dividend : rem (-7.5) 2 = -1.5 /\ rem 7.5 (-2) = 1.5.
Proof. split; reflexivity. Qed.

Example rem_special :
  rem 5 0 = nan /\ rem infinity 3 = nan /\ rem 3 infinity = 3 /\
  rem (-4) 2 = neg_zero.
Proof. repeat split; reflexivity. Qed.

Example Math_floor_values :
  Math_floor 2.5 = 2 /\ Math_floor (-0.5) = -1 /\
  Math_floor 1919.9999 = 1919 /\ Math_floor neg_zero = neg_zero.
Proof. repeat split; reflexivity. Qed.

Example Math_max_min_values :
  Math_max nan 1 = nan /\ Math_min 1 nan = nan /\
  Math_max neg_zero 0 = 0 /\ Math_min 0 neg_zero = neg_zero /\
  Math_max 3 infinity = infinity /\ Math_min neg_infinity 3 = neg_infinity.
Proof. repeat split; reflexivity. Qed.

(** ** Comparison *)

Lemma SFcompare_antisym (a b : spec_float) :
  SFcompare b a = option_map CompOpp (SFcompare a b).
Proof.
  destruct a as [s | s | | s m e], b as [s' | s' | | s' m' e']; simpl;
    try reflexivity;
    try (destruct s; reflexivity); try (destruct s'; reflexivity);
    try (destruct s, s'; reflexivity).
  pose proof (Pos.compare_cont_antisym m m' Eq) as Hp. cbn [CompOpp] in Hp.
  destruct s, s'; try reflexivity;
    rewrite (Z.compare_antisym e e'), <- Hp;
    destruct (e ?= e')%Z; simpl; try reflexivity.
Qed.

Lemma SFcompare_refl (a : spec_float) :
  SFcompare a a = match a with S754_nan => None | _ => Some Eq end.
Proof.
  destruct a as [s | s | | s m e]; simpl; try reflexivity.
  - destruct s; reflexivity.
  - rewrite Z.compare_refl, Pos.compare_cont_refl. destruct s; reflexivity.
Qed.

Lemma SFcompare_None (a b : spec_float) :
  SFcompare a b = None -> a = S754_nan \/ b = S754_nan.
Proof.
  destruct a as [s | s | | s m e], b as [s' | s' | | s' m' e']; simpl;
    intros H; try discriminate; auto.
Qed.

Lemma is_nan_spec (x : float) :
  is_nan x = match Prim2SF x with S754_nan => true | _ => false end.
Proof.
  unfold is_nan. rewrite eqb_spec. unfold SFeqb. rewrite SFcompare_refl.
  destruct (Prim2SF x); reflexivity.
Qed.

Lemma is_nan_eq (x : float) : is_nan x = true -> x = nan.
Proof.
  rewrite is_nan_spec. intros H. apply Prim2SF_inj.
  destruct (Prim2SF x); try discriminate. reflexivity.
Qed.

Lemma compare_cases (x y : float) :
  is_nan x = false -> is_nan y = false -> order x y.
Proof.
  rewrite !is_nan_spec. intros Hx Hy.
  pose proof (SFcompare_antisym (Prim2SF x) (Prim2SF y)) as Ha.
  destruct (SFcompare (Prim2SF x) (Prim2SF y)) as [c|] eqn:Hc.
  - destruct c; [apply order_eq | apply order_lt | apply order_gt];
      rewrite ?ltb_spec, ?leb_spec; unfold SFltb, SFleb; rewrite ?Hc, ?Ha;
      reflexivity.
  - apply SFcompare_None in Hc.
    destruct Hc as [Hc | Hc]; rewrite Hc in *; discriminate.
Qed.

Lemma ltb_irrefl (x : float) : (x <? x) = false.
Proof.
  rewrite ltb_spec. unfold SFltb. rewrite SFcompare_refl.
  destruct (Prim2SF x); reflexivity.
Qed.

Lemma leb_refl (x : float) : is_nan x = false -> (x <=? x) = true.
Proof.
  rewrite is_nan_spec, leb_spec. unfold SFleb. rewrite SFcompare_refl.
  destruct (Prim2SF x); intros H; try reflexivity; discriminate.
Qed.

Lemma leb_not_nan (x y : float) :
  (x <=? y) = true -> is_nan x = false /\ is_nan y = false.
Proof.
  rewrite !is_nan_spec, leb_spec. unfold SFleb.
  destruct (Prim2SF x), (Prim2SF y); simpl; intros H;
    try discriminate; auto.
Qed.

Lemma is_zero_lt_one (a : float) : is_zero a = true -> (a <? 1) = true.
Proof.
  unfold is_zero. rewrite eqb_spec, ltb_spec. unfold SFeqb, SFltb.
  change (Prim2SF 1) with (S754_finite false 4503599627370496 (-52)).
  change (Prim2SF zero) with (S754_zero false).
  destruct (Prim2SF a) as [s | s | | s m e]; cbn [SFcompare];
    try discriminate; try reflexivity; destruct s; discriminate.
Qed.

(** ** [Math.max] and [Math.min] *)

Lemma Math_max_cases (a b : float) :
  is_nan a = false -> is_nan b = false ->
  (Math_max a b = a /\ (b <=? a) = true) \/
  (Math_max a b = b /\ (a <=? b) = true).
Proof.
  intros Ha Hb. unfold Math_max. rewrite Ha, Hb. cbn [orb].
  destruct (compare_cases a b Ha Hb) as [H1 H2 H3 H4 | H1 H2 H3 H4 | H1 H2 H3 H4];
    rewrite H1; try rewrite H2; auto.
  destruct (is_zero a && get_sign a); auto.
Qed.

Lemma Math_min_cases (a b : float) :
  is_nan a = false -> is_nan b = false ->
  (Math_min a b = a /\ (a <=? b) = true) \/
  (Math_min a b = b /\ (b <=? a) = true).
Proof.
  intros Ha Hb. unfold Math_min. rewrite Ha, Hb. cbn [orb].
  destruct (compare_cases a b Ha Hb) as [H1 H2 H3 H4 | H1 H2 H3 H4 | H1 H2 H3 H4];
    rewrite H1; try rewrite H2; auto.
  destruct (is_zero a && get_sign a); auto.
Qed.

Lemma Math_max_nan (a b : float) :
  is_nan a || is_nan b = true -> Math_max a b = nan.
Proof. intros H. unfold Math_max. rewrite H. reflexivity. Qed.

Lemma Math_min_nan (a b : float) :
  is_nan a || is_nan b = true -> Math_min a b = nan.
Proof. intros H. unfold Math_min. rewrite H. reflexivity. Qed.

Lemma Math_max_diag (b : float) : is_nan b = false -> Math_max b b = b.
Proof.
  intros Hb. unfold Math_max. rewrite Hb, ltb_irrefl. cbn [orb].
  destruct (is_zero b && get_sign b); reflexivity.
Qed.

Lemma Math_min_diag (b : float) : is_nan b = false -> Math_min b b = b.
Proof.
  intros Hb. unfold Math_min. rewrite Hb, ltb_irrefl. cbn [orb].
  destruct (is_zero b && get_sign b); reflexivity.
Qed.

Lemma Math_max_idem_r (a b : float) :
  Math_max (Math_max a b) b = Math_max a b.
Proof.
  destruct (is_nan a || is_nan b) eqn:Hn.
  - rewrite (Math_max_nan a b Hn). reflexivity.
  - apply orb_false_iff in Hn. destruct Hn as [Ha Hb].
    unfold Math_max at 2 3. rewrite Ha, Hb. cbn [orb].
    pose proof (Math_max_diag b Hb) as Hbb.
    destruct (a <? b) eqn:H1; [exact Hbb|].
    destruct (b <? a) eqn:H2.
    + unfold Math_max. rewrite Ha, Hb, H1, H2. reflexivity.
    + destruct (is_zero a && get_sign a) eqn:Hz; [exact Hbb|].
      unfold Math_max. rewrite Ha, Hb, H1, H2, Hz. reflexivity.
Qed.

(** [Math.min(Math.max(a, 1), a)] is [a]. *)
Lemma Math_min_max_absorb (a : float) : Math_min (Math_max a 1) a = a.
Proof.
  destruct (is_nan a) eqn:Ha.
  - rewrite Math_max_nan by (rewrite Ha; reflexivity).
    rewrite (is_nan_eq a Ha). reflexivity.
  - assert (H1n : is_nan 1 = false) by reflexivity.
    pose proof (Math_min_diag a Ha) as Haa.
    unfold Math_max. rewrite Ha, H1n. cbn [orb].
    destruct (compare_cases a 1 Ha H1n) as [H1 H2 H3 H4 | H1 H2 H3 H4 | H1 H2 H3 H4];
      rewrite H1; try rewrite H2; try exact Haa.
    + unfold Math_min. rewrite Ha, H1n, H1, H2. reflexivity.
    + destruct (is_zero a) eqn:Hz.
      * apply is_zero_lt_one in Hz. congruence.
      * cbn [andb]. exact Haa.
Qed.

(** ** Division by one and subtraction from itself *)

Lemma div_eucl_mul (a b : Z) : (0 < b)%Z -> Z.div_eucl (a * b) b = (a, 0%Z).
Proof.
  intros Hb.
  rewrite (surjective_pairing (Z.div_eucl (a * b) b)).
  change (fst (Z.div_eucl (a * b) b)) with (Z.div (a * b) b).
  change (snd (Z.div_eucl (a * b) b)) with (Z.modulo (a * b) b).
  rewrite Z.div_mul, Z.mod_mul by lia. reflexivity.
Qed.

Lemma shr_fexp_canonical (m : positive) (e : Z) :
  Z.max (Z.pos (digits2_pos m) + e - 53) (-1074) = e ->
  shr_fexp 53 1024 (Z.pos m) e loc_Exact =
  (Build_shr_record (Z.pos m) false false, e).
Proof.
  intros Hc. unfold shr_fexp, fexp.
  change (Zdigits2 (Z.pos m)) with (Z.pos (digits2_pos m)).
  change (SpecFloat.emin 53 1024) with (-1074)%Z.
  rewrite Hc, Z.sub_diag. reflexivity.
Qed.

(** Rounding a mantissa that is already in canonical form. *)
Lemma binary_round_aux_canonical (s : bool) (m : positive) (e : Z) :
  Z.max (Z.pos (digits2_pos m) + e - 53) (-1074) = e ->
  (e <= 971)%Z ->
  binary_round_aux 53 1024 s (Z.pos m) e loc_Exact = S754_finite s m e.
Proof.
  intros Hc He. unfold binary_round_aux.
  rewrite shr_fexp_canonical by exact Hc.
  cbn [shr_m loc_of_shr_record round_nearest_even].
  rewrite shr_fexp_canonical by exact Hc. cbn [shr_m].
  replace (e <=? 1024 - 53)%Z with true; [reflexivity|].
  symmetry. apply Z.leb_le. lia.
Qed.

(** Rounding twice a full mantissa, one exponent lower. *)
Lemma binary_round_aux_double (s : bool) (m : positive) (e : Z) :
  Z.pos (digits2_pos m) = 53%Z ->
  (-1074 < e <= 971)%Z ->
  binary_round_aux 53 1024 s (Z.pos m~0) (e - 1) loc_Exact = S754_finite s m e.
Proof.
  intros Hd He.
  assert (Hc : Z.max (Z.pos (digits2_pos m) + e - 53) (-1074) = e) by lia.
  unfold binary_round_aux.
  assert (H1 : shr_fexp 53 1024 (Z.pos m~0) (e - 1) loc_Exact =
               (Build_shr_record (Z.pos m) false false, e)).
  { unfold shr_fexp, fexp.
    change (Zdigits2 (Z.pos m~0)) with (Z.pos (Pos.succ (digits2_pos m))).
    change (SpecFloat.emin 53 1024) with (-1074)%Z.
    replace (Z.max (Z.pos (Pos.succ (digits2_pos m)) + (e - 1) - 53) (-1074)
             - (e - 1))%Z with 1%Z by lia.
    cbn. f_equal. lia. }
  rewrite H1. cbn [shr_m loc_of_shr_record round_nearest_even].
  rewrite shr_fexp_canonical by exact Hc. cbn [shr_m].
  replace (e <=? 1024 - 53)%Z with true; [reflexivity|].
  symmetry. apply Z.leb_le. lia.
Qed.

Lemma SF64div_one (x : spec_float) :
  valid_binary x = true ->
  SF64div x (S754_finite false 4503599627370496 (-52)) = x.
Proof.
  destruct x as [s | s | | s m e]; simpl; intros Hv;
    try (rewrite xorb_false_r; reflexivity); try reflexivity.
  unfold bounded, canonical_mantissa, fexp in Hv.
  apply andb_true_iff in Hv. destruct Hv as [Hc He].
  apply Z.eqb_eq in Hc. apply Z.leb_le in He.
  unfold SF64div, SFdiv, SFdiv_core_binary.
  rewrite xorb_false_r.
  change (Zdigits2 4503599627370496) with 53%Z.
  change (Zdigits2 (Z.pos m)) with (Z.pos (digits2_pos m)).
  unfold fexp. change prec with 53%Z in *. change emax with 1024%Z in *.
  change (SpecFloat.emin 53 1024) with (-1074)%Z in *.
  destruct (Z.eq_dec e (-1074)) as [Hmin | Hnorm].
  - replace (Z.min (Z.max (Z.pos (digits2_pos m) + e - (53 + -52) - 53) (-1074))
               (e - -52)) with e by lia.
    replace (e - -52 - e)%Z with 52%Z by lia.
    rewrite Z.shiftl_mul_pow2 by lia.
    rewrite div_eucl_mul by reflexivity.
    apply binary_round_aux_canonical; lia.
  - assert (Hd : Z.pos (digits2_pos m) = 53%Z) by lia.
    replace (Z.min (Z.max (Z.pos (digits2_pos m) + e - (53 + -52) - 53) (-1074))
               (e - -52)) with (e - 1)%Z by lia.
    replace (e - -52 - (e - 1))%Z with 53%Z by lia.
    rewrite Z.shiftl_mul_pow2 by lia.
    replace (Z.pos m * 2 ^ 53)%Z with (Z.pos m~0 * 4503599627370496)%Z by lia.
    rewrite div_eucl_mul by reflexivity.
    apply binary_round_aux_double; lia.
Qed.

(** [x / 1] is [x], for every number. *)
Lemma div_one (x : float) : x / 1 = x.
Proof.
  apply Prim2SF_inj. rewrite div_spec.
  change (Prim2SF 1) with (S754_finite false 4503599627370496 (-52)).
  apply SF64div_one, Prim2SF_valid.
Qed.

Lemma is_finite_spec (x : float) :
  is_finite x = true ->
  match Prim2SF x with
  | S754_zero _ | S754_finite _ _ _ => True
  | _ => False
  end.
Proof.
  unfold is_finite, is_infinity. rewrite is_nan_spec, eqb_spec, abs_spec.
  change (Prim2SF infinity) with (S754_infinity false).
  destruct (Prim2SF x) as [s | s | | s m e]; cbn; intros H;
    try discriminate; exact I.
Qed.

(** [x - x] is [+0], for every finite number. *)
Lemma sub_diag (x : float) : is_finite x = true -> x - x = 0.
Proof.
  intros Hf. apply is_finite_spec in Hf.
  apply Prim2SF_inj. rewrite sub_spec.
  change (Prim2SF 0) with (S754_zero false).
  destruct (Prim2SF x) as [s | s | | s m e]; try contradiction.
  - destruct s; reflexivity.
  - unfold SF64sub, SFsub. rewrite Z.min_id.
    unfold shl_align. rewrite Z.sub_diag. cbn [fst].
    rewrite ?Z.sub_diag. reflexivity.
Qed.

(** ** Finite numbers, zero, and results that are not [NaN] *)

Lemma is_finite_eq (x : float) :
  is_finite x =
  match Prim2SF x with
  | S754_zero _ | S754_finite _ _ _ => true
  | _ => false
  end.
Proof.
  unfold is_finite, is_infinity. rewrite is_nan_spec, eqb_spec, abs_spec.
  change (Prim2SF infinity) with (S754_infinity false).
  destruct (Prim2SF x) as [s | s | | s m e]; reflexivity.
Qed.

Lemma is_zero_spec (x : float) :
  is_zero x = match Prim2SF x with S754_zero _ => true | _ => false end.
Proof.
  unfold is_zero. rewrite eqb_spec. unfold SFeqb.
  change (Prim2SF zero) with (S754_zero false).
  destruct (Prim2SF x) as [s | s | | s m e]; cbn [SFcompare];
    try reflexivity; destruct s; reflexivity.
Qed.

(** Rounding never makes a [NaN] out of a mantissa that is not negative. *)

Lemma shr_1_nonneg (mrs : shr_record) :
  (0 <= shr_m mrs)%Z -> (0 <= shr_m (shr_1 mrs))%Z.
Proof.
  destruct mrs as [m r s]. cbn [shr_m].
  destruct m as [|p|p]; [| destruct p | ]; cbn; lia.
Qed.

Lemma iter_pos_shr_1_nonneg (p : positive) (mrs : shr_record) :
  (0 <= shr_m mrs)%Z -> (0 <= shr_m (iter_pos shr_1 p mrs))%Z.
Proof.
  revert mrs. induction p as [p IH | p IH |]; intros mrs H; cbn [iter_pos].
  - apply IH, IH, shr_1_nonneg, H.
  - apply IH, IH, H.
  - apply shr_1_nonneg, H.
Qed.

Lemma shr_fexp_nonneg (m e : Z) (l : location) :
  (0 <= m)%Z -> (0 <= shr_m (fst (shr_fexp 53 1024 m e l)))%Z.
Proof.
  intros Hm. unfold shr_fexp, shr.
  assert (H0 : (0 <= shr_m (shr_record_of_loc m l))%Z).
  { destruct l as [|c]; [|destruct c]; exact Hm. }
  destruct (fexp 53 1024 (Zdigits2 m + e) - e)%Z; cbn [fst]; try exact H0.
  apply iter_pos_shr_1_nonneg, H0.
Qed.

Lemma binary_round_aux_not_nan (s : bool) (m e : Z) (l : location) :
  (0 <= m)%Z -> binary_round_aux 53 1024 s m e l <> S754_nan.
Proof.
  intros Hm. unfold binary_round_aux.
  pose proof (shr_fexp_nonneg m e l Hm) as H1.
  destruct (shr_fexp 53 1024 m e l) as [mrs' e']. cbn [fst] in H1.
  assert (H2 : (0 <= round_nearest_even (shr_m mrs') (loc_of_shr_record mrs'))%Z).
  { unfold round_nearest_even.
    destruct (loc_of_shr_record mrs') as [|c]; [|destruct c];
      try destruct (Z.even (shr_m mrs')); lia. }
  pose proof (shr_fexp_nonneg _ e' loc_Exact H2) as H3.
  destruct (shr_fexp 53 1024 _ e' loc_Exact) as [mrs'' e'']. cbn [fst] in H3.
  destruct (shr_m mrs'') as [|p|p]; try discriminate.
  - destruct (e'' <=? 1024 - 53)%Z; discriminate.
  - lia.
Qed.

Lemma mul_not_nan (x y : float) :
  is_finite x = true -> is_zero x = false -> is_nan y = false ->
  is_nan (x * y) = false.
Proof.
  rewrite is_finite_eq, is_zero_spec, !is_nan_spec, mul_spec.
  unfold SF64mul, SFmul.
  destruct (Prim2SF x) as [s | s | | s m e]; try discriminate.
  destruct (Prim2SF y) as [s' | s' | | s' m' e']; try discriminate;
    intros _ _ _; try reflexivity.
  pose proof (binary_round_aux_not_nan (xorb s s') (Z.pos (m * m')) (e + e')
                loc_Exact ltac:(lia)) as H.
  change prec with 53%Z. change emax with 1024%Z.
  destruct (binary_round_aux 53 1024 _ _ _ _); try reflexivity.
  contradiction.
Qed.

Lemma div_not_nan (x y : float) :
  is_finite x = true -> truthy y = true -> is_nan (x / y) = false.
Proof.
  unfold truthy. rewrite is_finite_eq, is_zero_spec, !is_nan_spec, div_spec.
  unfold SF64div, SFdiv.
  destruct (Prim2SF x) as [s | s | | s m e]; try discriminate;
    destruct (Prim2SF y) as [s' | s' | | s' m' e']; try discriminate;
    intros _ _; try reflexivity.
  unfold SFdiv_core_binary.
  set (m1 := match _ with 0%Z => Z.pos m | Z.pos _ => _ | Z.neg _ => 0%Z end).
  assert (Hm1 : (0 <= m1)%Z).
  { unfold m1. destruct (_ - _ - _)%Z; try lia.
    apply Z.shiftl_nonneg. lia. }
  pose proof (Z.div_pos m1 (Z.pos m') Hm1 ltac:(lia)) as Hq.
  unfold Z.div in Hq.
  destruct (Z.div_eucl m1 (Z.pos m')) as [q r]. cbn [fst] in Hq.
  pose proof (binary_round_aux_not_nan (xorb s s') q
                (Z.min (fexp prec emax (Zdigits2 (Z.pos m) + e - (Zdigits2 (Z.pos m') + e')))
                   (e - e')) (new_location (Z.pos m') r) Hq) as H.
  change prec with 53%Z in *. change emax with 1024%Z in *.
  destruct (binary_round_aux 53 1024 _ _ _ _); try reflexivity.
  contradiction.
Qed.

Lemma one_le_nonzero (z : float) : (1 <=? z) = true -> is_zero z = false.
Proof.
  rewrite leb_spec, is_zero_spec. unfold SFleb.
  change (Prim2SF 1) with (S754_finite false 4503599627370496 (-52)).
  destruct (Prim2SF z) as [s | s | | s m e]; cbn [SFcompare];
    intros H; try reflexivity; discriminate.
Qed.

Lemma finite_between (z M : float) :
  (1 <=? z) = true -> (z <=? M) = true -> is_finite M = true ->
  is_finite z = true.
Proof.
  rewrite !leb_spec, !is_finite_eq. unfold SFleb.
  change (Prim2SF 1) with (S754_finite false 4503599627370496 (-52)).
  destruct (Prim2SF z) as [s | s | | s m e]; cbn [SFcompare];
    try reflexivity; try discriminate.
  destruct s; [discriminate|].
  destruct (Prim2SF M) as [s' | s' | | s' m' e']; cbn [SFcompare];
    intros _ H H'; try discriminate.
Qed.

End NumberFacts.

(** * The render loop, the crop and the filter *)

Module RenderFacts.

Import JS Cam NumberFacts.
Open Scope string_scope.
Open Scope list_scope.
Open Scope float_scope.

Lemma draws_app (l l' : list Effect) : draws (l ++ l') = (draws l + draws l')%nat.
Proof. unfold draws. rewrite filter_app, length_app. reflexivity. Qed.

Lemma crops_app (l l' : list Effect) : crops (l ++ l') = crops l ++ crops l'.
Proof. unfold crops. apply flat_map_app. Qed.

(** A frame drawn from a source that has data: the canvas calls made,
    in order. *)
Lemma drawFrame_log (s : Sys) :
  (2 <= readyState s)%Z ->
  log (drawFrame s) =
  log s ++
  [ctx_save; ctx_filter (buildFilterString s);
   ctx_drawImage ((videoWidth s - videoWidth s / zoom s) / 2)
     ((videoHeight s - videoHeight s / zoom s) / 2)
     (videoWidth s / zoom s) (videoHeight s / zoom s) 0 0
     (canvas_width s / dpr s) (canvas_height s / dpr s)] ++
  (if strict_eq (currentFilter s) "film"
   then [ctx_grain (canvas_width s / dpr s) (canvas_height s / dpr s)]
   else []) ++
  [ctx_restore].
Proof.
  intros Hr. unfold drawFrame.
  replace (readyState s <? 2)%Z with false by (symmetry; apply Z.ltb_ge; lia).
  cbn.
  destruct (strict_eq (currentFilter s) "film"); cbn;
    rewrite <- ?app_assoc; reflexivity.
Qed.

Lemma drawFrame_unready (s : Sys) : (readyState s < 2)%Z -> drawFrame s = s.
Proof.
  intros Hr. unfold drawFrame.
  replace (readyState s <? 2)%Z with true by (symmetry; apply Z.ltb_lt; lia).
  reflexivity.
Qed.

Lemma drawFrame_js (s : Sys) : js (drawFrame s) = js s.
Proof.
  unfold drawFrame. destruct (readyState s <? 2)%Z; [reflexivity|].
  destruct (strict_eq (currentFilter _) "film"); reflexivity.
Qed.

Lemma drawFrame_draws (s : Sys) :
  draws (log (drawFrame s)) =
  (draws (log s) + (if (readyState s <? 2)%Z then 0 else 1))%nat.
Proof.
  destruct (readyState s <? 2)%Z eqn:Hr.
  - rewrite drawFrame_unready by (apply Z.ltb_lt; exact Hr). lia.
  - rewrite drawFrame_log by (apply Z.ltb_ge; exact Hr).
    rewrite draws_app. f_equal.
    destruct (strict_eq (currentFilter s) "film"); reflexivity.
Qed.

Lemma raf_js (cb : FrameCallback) (s : Sys) :
  js (snd (requestAnimationFrame cb s)) = js s.
Proof. reflexivity. Qed.

Lemma raf_log (cb : FrameCallback) (s : Sys) :
  log (snd (requestAnimationFrame cb s)) = log s.
Proof. reflexivity. Qed.

Lemma raf_readyState (cb : FrameCallback) (s : Sys) :
  readyState (snd (requestAnimationFrame cb s)) = readyState s.
Proof. reflexivity. Qed.

Lemma drawFrame_readyState (s : Sys) :
  readyState (drawFrame s) = readyState s.
Proof.
  unfold drawFrame. destruct (readyState s <? 2)%Z; [reflexivity|].
  destruct (strict_eq (currentFilter _) "film"); reflexivity.
Qed.

(** One tick of the loop that passes the frame-interval test. *)
Lemma renderLoop_accept (now : float) (s : Sys) :
  ge (now - lastFrameTime s) (1000 / targetFPS s) = true ->
  js (renderLoop now s) =
    js (set_lastFrameTime
          (now - rem (now - lastFrameTime s) (1000 / targetFPS s)) s) /\
  log (renderLoop now s) =
    log (drawFrame
           (set_lastFrameTime
              (now - rem (now - lastFrameTime s) (1000 / targetFPS s)) s)).
Proof.
  intros Hg. unfold renderLoop. rewrite Hg.
  rewrite raf_js, raf_log, drawFrame_js. split; reflexivity.
Qed.

(** One tick of the loop that does not. *)
Lemma renderLoop_skip (now : float) (s : Sys) :
  ge (now - lastFrameTime s) (1000 / targetFPS s) = false ->
  js (renderLoop now s) = js s /\ log (renderLoop now s) = log s.
Proof. intros Hg. unfold renderLoop. rewrite Hg. split; reflexivity. Qed.

Lemma renderLoop_targetFPS (now : float) (s : Sys) :
  targetFPS (renderLoop now s) = targetFPS s.
Proof.
  destruct (ge (now - lastFrameTime s) (1000 / targetFPS s)) eqn:Hg.
  - destruct (renderLoop_accept now s Hg) as [Hj _]. rewrite Hj. reflexivity.
  - destruct (renderLoop_skip now s Hg) as [Hj _]. rewrite Hj. reflexivity.
Qed.

Lemma renderLoop_readyState (now : float) (s : Sys) :
  readyState (renderLoop now s) = readyState s.
Proof.
  unfold renderLoop. rewrite raf_readyState.
  destruct (ge _ _); [|reflexivity].
  rewrite drawFrame_readyState. reflexivity.
Qed.

(** C1.  On every tick of the render loop a frame is composited only
    if the time elapsed since the last accepted draw (the baseline
    [lastFrameTime]) is at least [1000 / targetFPS]; an accepted tick
    moves the baseline to the tick time minus
    [elapsed % (1000 / targetFPS)], so the remainder carries forward,
    and a rejected one leaves the baseline and the canvas alone.  With
    [targetFPS = 30] and the baseline at [0], ticks at 10, 20 and 45 ms
    give exactly one draw, at the third tick (and so do ticks at 0,
    10 and 35 ms). *)
Theorem frame_interval_gating :
  (forall (now : float) (s : Sys),
      let delta := now - lastFrameTime s in
      let frameInterval := 1000 / targetFPS s in
      ((draws (log s) < draws (log (renderLoop now s)))%nat ->
       (frameInterval <=? delta) = true) /\
      ((frameInterval <=? delta) = true ->
       lastFrameTime (renderLoop now s) = now - rem delta frameInterval /\
       draws (log (renderLoop now s)) =
         (draws (log s) + (if (readyState s <? 2)%Z then 0 else 1))%nat) /\
      ((frameInterval <=? delta) = false ->
       lastFrameTime (renderLoop now s) = lastFrameTime s /\
       log (renderLoop now s) = log s)) /\
  (forall s : Sys,
      targetFPS s = 30 -> lastFrameTime s = 0 -> (2 <= readyState s)%Z ->
      let s1 := renderLoop 10 s in
      let s2 := renderLoop 20 s1 in
      let s3 := renderLoop 45 s2 in
      draws (log s1) = draws (log s) /\
      draws (log s2) = draws (log s) /\
      draws (log s3) = (draws (log s) + 1)%nat /\
      lastFrameTime s3 = 45 - rem 45 (1000 / 30) /\
      draws (log (renderLoop 10 (renderLoop 0 s))) = draws (log s) /\
      draws (log (renderLoop 35 (renderLoop 10 (renderLoop 0 s)))) =
        (draws (log s) + 1)%nat).
Proof.
  assert (Hstep : forall (now : float) (s : Sys),
      ((1000 / targetFPS s <=? now - lastFrameTime s) = true ->
       lastFrameTime (renderLoop now s) =
         now - rem (now - lastFrameTime s) (1000 / targetFPS s) /\
       draws (log (renderLoop now s)) =
         (draws (log s) + (if (readyState s <? 2)%Z then 0 else 1))%nat) /\
      ((1000 / targetFPS s <=? now - lastFrameTime s) = false ->
       lastFrameTime (renderLoop now s) = lastFrameTime s /\
       log (renderLoop now s) = log s)).
  { intros now s. split; intros Hg.
    - destruct (renderLoop_accept now s Hg) as [Hj Hl].
      split; [rewrite Hj; reflexivity|].
      rewrite Hl, drawFrame_draws. reflexivity.
    - destruct (renderLoop_skip now s Hg) as [Hj Hl].
      split; [|exact Hl]. rewrite Hj. reflexivity. }
  split.
  - intros now s delta frameInterval. subst delta frameInterval.
    destruct (Hstep now s) as [Hacc Hrej].
    split; [|split; assumption].
    intros Hlt.
    destruct (1000 / targetFPS s <=? now - lastFrameTime s) eqn:Hg;
      [reflexivity|].
    destruct (Hrej eq_refl) as [_ Hl]. rewrite Hl in Hlt. lia.
  - intros s Hfps Hbase Hready. cbv zeta.
    destruct (renderLoop_skip 10 s) as [J1 L1];
      [rewrite Hfps, Hbase; reflexivity|].
    destruct (renderLoop_skip 20 (renderLoop 10 s)) as [J2 L2];
      [rewrite J1, Hfps, Hbase; reflexivity|].
    destruct (renderLoop_accept 45 (renderLoop 20 (renderLoop 10 s)))
      as [J3 L3]; [rewrite J2, J1, Hfps, Hbase; reflexivity|].
    rewrite L2, L1, J3, L3, drawFrame_draws.
    change (readyState (set_lastFrameTime ?v ?x)) with (readyState x).
    rewrite !renderLoop_readyState.
    replace (readyState s <? 2)%Z with false by (symmetry; apply Z.ltb_ge; lia).
    change (log (set_lastFrameTime ?v ?x)) with (log x).
    rewrite L2, L1, J2, J1, Hfps, Hbase.
    destruct (renderLoop_skip 0 s) as [K1 M1];
      [rewrite Hfps, Hbase; reflexivity|].
    destruct (renderLoop_skip 10 (renderLoop 0 s)) as [K2 M2];
      [rewrite K1, Hfps, Hbase; reflexivity|].
    destruct (renderLoop_accept 35 (renderLoop 10 (renderLoop 0 s)))
      as [K3 M3]; [rewrite K2, K1, Hfps, Hbase; reflexivity|].
    rewrite M2, M1, M3, drawFrame_draws.
    change (readyState (set_lastFrameTime ?v ?x)) with (readyState x).
    rewrite !renderLoop_readyState.
    replace (readyState s <? 2)%Z with false by (symmetry; apply Z.ltb_ge; lia).
    change (log (set_lastFrameTime ?v ?x)) with (log x).
    rewrite M2, M1.
    repeat split; reflexivity.
Qed.

(** C1, run: from the state of the script at load with a 1920x1080
    camera and [targetFPS] set to 30, the three ticks draw once. *)
Lemma frame_interval_gating_run :
  let s := set_targetFPS 30 (initial ready_world) in
  draws (log (renderLoop 45 (renderLoop 20 (renderLoop 10 s)))) = 1%nat.
Proof.
  intros s.
  destruct frame_interval_gating as [_ H].
  destruct (H s eq_refl eq_refl) as (_ & _ & H3 & _).
  - vm_compute. discriminate.
  - exact H3.
Defined.

(** C2, as the script behaves: a tick at which the source has no data
    yet draws nothing and makes no canvas call at all, and the loop is
    scheduled again; the baseline follows the frame-interval test
    alone: it stays put
    when the elapsed time is below the frame interval and otherwise
    moves to the tick time minus the remainder, exactly as for a
    source that has data. *)
Theorem unready_tick (now : float) (s : Sys) :
  (readyState s < 2)%Z ->
  let delta := now - lastFrameTime s in
  let frameInterval := 1000 / targetFPS s in
  log (renderLoop now s) = log s /\
  raf_pending (renderLoop now s) = raf_pending s ++ [(raf_next s, renderLoop_cb)] /\
  lastFrameTime (renderLoop now s) =
    (if frameInterval <=? delta then now - rem delta frameInterval
     else lastFrameTime s).
Proof.
  intros Hr delta frameInterval. subst delta frameInterval.
  unfold renderLoop, ge.
  destruct (1000 / targetFPS s <=? now - lastFrameTime s).
  - rewrite drawFrame_unready by exact Hr. repeat split; reflexivity.
  - repeat split; reflexivity.
Qed.

Lemma unready_tick_run :
  let s := initial (fresh_world 1) in
  log (renderLoop 10 s) = [] /\
  lastFrameTime (renderLoop 10 s) = 0 /\
  log (renderLoop 100 s) = [] /\
  lastFrameTime (renderLoop 100 s) = 100 - rem 100 (1000 / 60).
Proof.
  intros s.
  assert (Hr : (readyState s < 2)%Z) by (vm_compute; reflexivity).
  destruct (unready_tick 10 s Hr) as (L1 & _ & T1).
  destruct (unready_tick 100 s Hr) as (L2 & _ & T2).
  repeat split; assumption.
Defined.

(** C2, as stated, fails: at load, before the camera delivers data, a
    tick at 100 ms moves the baseline from 0 to 83.33 ms. *)
Lemma unready_tick_moves_baseline :
  ~ (forall (now : float) (s : Sys),
        (readyState s < 2)%Z ->
        lastFrameTime (renderLoop now s) = lastFrameTime s).
Proof.
  intros H.
  specialize (H 100 (initial (fresh_world 1)) ltac:(vm_compute; reflexivity)).
  apply (f_equal is_zero) in H. vm_compute in H. discriminate.
Qed.

(** ** Crop *)

(** C3.  A frame is drawn from the centred source rectangle
    [sx = (w - w/zoom)/2], [sy = (h - h/zoom)/2], [sw = w/zoom],
    [sh = h/zoom], and at [zoom = 1] this is the whole frame
    [(0, 0, w, h)]; [w] and [h] are the video's width and height,
    which are finite. *)
Theorem crop_rectangle (s : Sys) :
  (2 <= readyState s)%Z ->
  let w := videoWidth s in
  let h := videoHeight s in
  crops (log (drawFrame s)) =
    crops (log s) ++
    [((w - w / zoom s) / 2, (h - h / zoom s) / 2, w / zoom s, h / zoom s)] /\
  (zoom s = 1 -> is_finite w = true -> is_finite h = true ->
   crops (log (drawFrame s)) = crops (log s) ++ [(0, 0, w, h)]).
Proof.
  intros Hr w h.
  assert (Hc : crops (log (drawFrame s)) =
               crops (log s) ++
               [((w - w / zoom s) / 2, (h - h / zoom s) / 2,
                 w / zoom s, h / zoom s)]).
  { rewrite drawFrame_log by exact Hr. rewrite crops_app. f_equal.
    destruct (strict_eq (currentFilter s) "film"); reflexivity. }
  split; [exact Hc|].
  intros Hz Hw Hh. rewrite Hc, Hz, !div_one, !sub_diag by assumption.
  reflexivity.
Qed.

(** C3, run: a 1920x1080 source at zoom 1 and at zoom 2. *)
Lemma crop_rectangle_full_frame :
  crops (log (drawFrame (initial ready_world))) = [(0, 0, 1920, 1080)] /\
  crops (log (drawFrame (setZoom 2 (initial ready_world)))) =
    [(480, 270, 960, 540)].
Proof.
  split.
  - destruct (crop_rectangle (initial ready_world)) as [_ H].
    + vm_compute. discriminate.
    + apply H; reflexivity.
  - destruct (crop_rectangle (setZoom 2 (initial ready_world))) as [H _].
    + vm_compute. discriminate.
    + exact H.
Defined.

(** ** Filter *)

Lemma strict_eq_true (a : option string) (lit : string) :
  strict_eq a lit = true <-> a = Some lit.
Proof.
  destruct a as [x|]; simpl.
  - rewrite String.eqb_eq. split; intros H; [subst|injection H]; auto.
  - split; discriminate.
Qed.

Lemma strict_eq_false (a : option string) (lit : string) :
  strict_eq a lit = false <-> a <> Some lit.
Proof.
  rewrite <- strict_eq_true. destruct (strict_eq a lit); split; intros H;
    try reflexivity; try discriminate; try (intros H'; discriminate).
  exfalso. apply H. reflexivity.
Qed.

Lemma filters_app (l l' : list Effect) :
  filters (l ++ l') = filters l ++ filters l'.
Proof. unfold filters. apply flat_map_app. Qed.

Lemma grains_app (l l' : list Effect) :
  grains (l ++ l') = (grains l + grains l')%nat.
Proof. unfold grains. rewrite filter_app, length_app. reflexivity. Qed.

Lemma drawFrame_filters (s : Sys) :
  (2 <= readyState s)%Z ->
  filters (log (drawFrame s)) = filters (log s) ++ [buildFilterString s].
Proof.
  intros Hr. rewrite drawFrame_log by exact Hr. rewrite filters_app. f_equal.
  destruct (strict_eq (currentFilter s) "film"); reflexivity.
Qed.

Lemma drawFrame_grains (s : Sys) :
  (2 <= readyState s)%Z ->
  grains (log (drawFrame s)) =
  (grains (log s) + (if strict_eq (currentFilter s) "film" then 1 else 0))%nat.
Proof.
  intros Hr. rewrite drawFrame_log by exact Hr. rewrite grains_app. f_equal.
  destruct (strict_eq (currentFilter s) "film"); reflexivity.
Qed.

(** C4.  The filter computed from the exposure and the selected filter
    has brightness [1 + exposure * 0.15], contrast 1.15 for [cinema]
    and 1 otherwise, saturation 0 for [bw], 1.3 for [vivid] and 1
    otherwise; it is a function of these two values alone; it is the
    filter a drawn frame is composited with, and the frame gets a grain
    pass exactly when the selected filter is [film]. *)
Theorem filter_descriptor (s : Sys) :
  let f := buildFilterString s in
  brightness f = 1 + exposure s * 0.15 /\
  (currentFilter s = Some "cinema" -> contrast f = 1.15) /\
  (currentFilter s <> Some "cinema" -> contrast f = 1) /\
  (currentFilter s = Some "bw" -> saturate f = 0) /\
  (currentFilter s = Some "vivid" -> saturate f = 1.3) /\
  (currentFilter s <> Some "bw" -> currentFilter s <> Some "vivid" ->
   saturate f = 1) /\
  (forall s' : Sys,
      exposure s' = exposure s -> currentFilter s' = currentFilter s ->
      buildFilterString s' = f) /\
  ((2 <= readyState s)%Z ->
   filters (log (drawFrame s)) = filters (log s) ++ [f] /\
   (currentFilter s = Some "film" ->
    grains (log (drawFrame s)) = S (grains (log s))) /\
   (currentFilter s <> Some "film" ->
    grains (log (drawFrame s)) = grains (log s))).
Proof.
  intros f. subst f. unfold buildFilterString. cbn [brightness contrast saturate].
  split; [reflexivity|].
  split; [intros H; apply strict_eq_true in H; rewrite H; reflexivity|].
  split; [intros H; apply strict_eq_false in H; rewrite H; reflexivity|].
  split; [intros H; apply strict_eq_true in H; rewrite H; reflexivity|].
  split.
  { intros H. rewrite H. reflexivity. }
  split.
  { intros H1 H2. apply strict_eq_false in H1, H2. rewrite H1, H2. reflexivity. }
  split.
  { intros s' He Hf. rewrite He, Hf. reflexivity. }
  intros Hr. split; [apply drawFrame_filters; exact Hr|].
  rewrite drawFrame_grains by exact Hr.
  split; intros H.
  - apply strict_eq_true in H. rewrite H. lia.
  - apply strict_eq_false in H. rewrite H. lia.
Qed.

(** C4, run: the film filter at exposure 0.5 on a 1920x1080 source. *)
Lemma filter_descriptor_film :
  let s :=
    on_exposureSlider_input 0.5
      (on_filterChip_click (Some "film") (initial ready_world)) in
  filters (log (drawFrame s)) = [mkFilter (1 + 0.5 * 0.15) 1 1] /\
  grains (log (drawFrame s)) = 1%nat.
Proof.
  intros s.
  destruct (filter_descriptor s) as (_ & _ & _ & _ & _ & _ & _ & H).
  destruct H as (Hf & Hg & _); [vm_compute; discriminate|].
  split; [exact Hf | exact (Hg eq_refl)].
Defined.

(** C10.  A filter chip whose [data-filter] is none of [cinema], [bw],
    [vivid], [film] (any other string, or no attribute at all) selects
    the same rendering as [none]: contrast 1, saturation 1, the
    brightness of the exposure, and no grain pass. *)
Theorem unknown_filter_as_none (name : option string) (s : Sys) :
  name <> Some "cinema" -> name <> Some "bw" ->
  name <> Some "vivid" -> name <> Some "film" ->
  let s' := on_filterChip_click name s in
  let none := on_filterChip_click (Some "none") s in
  buildFilterString s' = mkFilter (1 + exposure s * 0.15) 1 1 /\
  buildFilterString s' = buildFilterString none /\
  log (drawFrame s') = log (drawFrame none) /\
  grains (log (drawFrame s')) = grains (log s).
Proof.
  intros Hc Hb Hv Hf s' none.
  apply strict_eq_false in Hc, Hb, Hv, Hf.
  assert (Hbuild : buildFilterString s' = mkFilter (1 + exposure s * 0.15) 1 1).
  { unfold buildFilterString, s', on_filterChip_click.
    cbn [currentFilter exposure js set_currentFilter].
    rewrite Hc, Hb, Hv. reflexivity. }
  assert (Hnone : buildFilterString none = mkFilter (1 + exposure s * 0.15) 1 1)
    by reflexivity.
  split; [exact Hbuild|]. split; [congruence|].
  destruct (readyState s <? 2)%Z eqn:Hr.
  - apply Z.ltb_lt in Hr.
    rewrite !drawFrame_unready by exact Hr. split; reflexivity.
  - apply Z.ltb_ge in Hr.
    rewrite (drawFrame_grains s') by exact Hr.
    rewrite (drawFrame_log s'), (drawFrame_log none) by exact Hr.
    rewrite Hbuild, Hnone.
    change (currentFilter s') with name.
    rewrite Hf. split; [reflexivity|].
    change (log s') with (log s). lia.
Qed.

Lemma unknown_filter_as_none_sepia :
  let s := initial ready_world in
  buildFilterString (on_filterChip_click (Some "sepia") s) = mkFilter 1 1 1 /\
  grains (log (drawFrame (on_filterChip_click (Some "sepia") s))) = 0%nat.
Proof.
  intros s.
  destruct (unknown_filter_as_none (Some "sepia") s) as (H1 & _ & _ & H4);
    try discriminate.
  split; [exact H1 | exact H4].
Defined.

End RenderFacts.

(** * Facts shared by the sections below *)

Module StateFacts.

Import JS Cam NumberFacts.
Open Scope string_scope.
Open Scope list_scope.
Open Scope float_scope.

Lemma track_eqb_eq (a b : Track) : track_eqb a b = true <-> a = b.
Proof.
  destruct a as [a1 a2], b as [b1 b2]. unfold track_eqb. cbn [fst snd].
  rewrite andb_true_iff, !Nat.eqb_eq. split.
  - intros [H1 H2]. subst. reflexivity.
  - intros H. injection H as H1 H2. auto.
Qed.

(** Stopping the tracks of a stream: the stops are logged in order,
    none of its tracks stays live, and nothing else changes. *)
Lemma stop_tracks_list (l : list Track) (s : Sys) :
  let s' := fold_left (fun s t => stop_track t s) l s in
  js s' = js s /\ recorders s' = recorders s /\
  gum_pending s' = gum_pending s /\ gum_next s' = gum_next s /\
  log s' = log s ++ map track_stop l /\
  (forall t, In t (live s') <-> In t (live s) /\ ~ In t l).
Proof.
  revert s. induction l as [|u l IH]; intros s; cbn [fold_left map].
  - rewrite app_nil_r. repeat split; try reflexivity; tauto.
  - destruct (IH (stop_track u s)) as (Hj & Hr & Hp & Hn & Hl & Hv).
    cbv zeta in Hj, Hr, Hp, Hn, Hl, Hv |- *.
    rewrite Hj, Hr, Hp, Hn, Hl.
    split; [reflexivity|]. split; [reflexivity|]. split; [reflexivity|].
    split; [reflexivity|].
    split; [cbn; rewrite <- app_assoc; reflexivity|].
    intros t. rewrite Hv.
    change (live (stop_track u s))
      with (filter (fun v => negb (track_eqb v u)) (live s)).
    rewrite filter_In, negb_true_iff. cbn [In]. split.
    + intros [[Hin Hne] Hnl].
      split; [exact Hin|]. intros [E | E]; [|tauto].
      subst u. rewrite (proj2 (track_eqb_eq t t) eq_refl) in Hne.
      discriminate.
    + intros [Hin Hnl].
      split; [split; [exact Hin|] | tauto].
      destruct (track_eqb t u) eqn:E; [|reflexivity].
      apply track_eqb_eq in E. subst u. tauto.
Qed.

Lemma getUserMedia_effect (c : Constraints) (s : Sys) :
  js (navigator_getUserMedia c s) = js s /\
  recorders (navigator_getUserMedia c s) = recorders s /\
  gum_pending (navigator_getUserMedia c s) = gum_pending s ++ [gum_next s] /\
  log (navigator_getUserMedia c s) = log s ++ [getUserMedia (gum_next s) c] /\
  live (navigator_getUserMedia c s) = live s.
Proof. repeat split; reflexivity. Qed.

(** [initCamera] up to its first [await]: the tracks of the stream the
    script holds are stopped, then the new request is made. *)
Lemma initCamera_effect (s : Sys) :
  js (initCamera s) = js s /\
  recorders (initCamera s) = recorders s /\
  gum_pending (initCamera s) = gum_pending s ++ [gum_next s] /\
  (exists c,
      log (initCamera s) =
      log s ++ map track_stop (current_tracks s) ++
      [getUserMedia (gum_next s) c]) /\
  (forall t,
      In t (live (initCamera s)) <->
      In t (live s) /\ ~ In t (current_tracks s)).
Proof.
  unfold initCamera, current_tracks. destruct (stream s) as [st|] eqn:Hst.
  - destruct (stop_tracks_list (getTracks st) s)
      as (Hj & Hr & Hp & Hn & Hl & Hv).
    cbv zeta in Hj, Hr, Hp, Hn, Hl, Hv. fold (stop_tracks st s) in *.
    match goal with
    | |- context [navigator_getUserMedia ?c _] =>
        destruct (getUserMedia_effect c (stop_tracks st s))
          as (Gj & Gr & Gp & Gl & Gv)
    end.
    rewrite Gj, Gr, Gp, Gl, Gv, Hj, Hr, Hp, Hn, Hl.
    split; [reflexivity|]. split; [reflexivity|]. split; [reflexivity|].
    split; [|exact Hv].
    eexists. rewrite <- app_assoc. reflexivity.
  - match goal with
    | |- context [navigator_getUserMedia ?c _] =>
        destruct (getUserMedia_effect c s) as (Gj & Gr & Gp & Gl & Gv)
    end.
    rewrite Gj, Gr, Gp, Gl, Gv.
    split; [reflexivity|]. split; [reflexivity|]. split; [reflexivity|].
    split; [eexists; reflexivity|].
    intros t. cbn. tauto.
Qed.

Ltac destruct_conds :=
  repeat match goal with
    | |- context [if ?c then _ else _] => destruct c
    | |- context [match ?x with _ => _ end] =>
        lazymatch type of x with
        | prod _ _ => fail
        | _ => destruct x
        end
    end.

End StateFacts.

(** * The zoom control *)

Module ZoomFacts.

Import JS Cam NumberFacts.
Open Scope string_scope.
Open Scope list_scope.
Open Scope float_scope.

Lemma zoom_setZoom (v : float) (s : Sys) :
  zoom (setZoom v s) = clamp (maxZoom s) v.
Proof. reflexivity. Qed.

Lemma maxZoom_setZoom (v : float) (s : Sys) :
  maxZoom (setZoom v s) = maxZoom s.
Proof. reflexivity. Qed.

Lemma clamp_range (M v : float) :
  (1 <=? M) = true -> is_nan v = false ->
  (1 <=? clamp M v) = true /\ (clamp M v <=? M) = true.
Proof.
  intros HM Hv. unfold clamp.
  destruct (leb_not_nan 1 M HM) as [H1 HMn].
  assert (Hr : is_nan (Math_max v 1) = false /\ (1 <=? Math_max v 1) = true).
  { destruct (Math_max_cases v 1 Hv H1) as [[E L] | [E L]]; rewrite E.
    - auto.
    - split; [exact H1 | apply leb_refl; exact H1]. }
  destruct Hr as [Hrn Hr1].
  destruct (Math_min_cases (Math_max v 1) M Hrn HMn) as [[E L] | [E L]];
    rewrite E.
  - auto.
  - split; [exact HM | apply leb_refl; exact HMn].
Qed.

Lemma clamp_idempotent (M v : float) : clamp M (clamp M v) = clamp M v.
Proof.
  unfold clamp.
  destruct (is_nan v) eqn:Hv.
  { rewrite (Math_max_nan v 1) by (rewrite Hv; reflexivity). reflexivity. }
  destruct (is_nan M) eqn:HM.
  { rewrite !Math_min_nan by (rewrite HM; apply orb_true_r).
    reflexivity. }
  assert (H1 : is_nan 1 = false) by reflexivity.
  assert (Hrn : is_nan (Math_max v 1) = false).
  { destruct (Math_max_cases v 1 Hv H1) as [[E _] | [E _]]; rewrite E;
      assumption. }
  destruct (Math_min_cases (Math_max v 1) M Hrn HM) as [[E _] | [E _]].
  - rewrite E at 1. rewrite Math_max_idem_r. reflexivity.
  - rewrite E. rewrite Math_min_max_absorb. reflexivity.
Qed.

Lemma setZoom_idempotent (v : float) (s : Sys) :
  setZoom (zoom (setZoom v s)) (setZoom v s) = setZoom v s.
Proof.
  unfold setZoom at 1.
  change (maxZoom (setZoom v s)) with (maxZoom s).
  rewrite zoom_setZoom. fold (clamp (maxZoom s) (clamp (maxZoom s) v)).
  rewrite clamp_idempotent. reflexivity.
Qed.

Lemma setZoom_range (v : float) (s : Sys) :
  (1 <=? maxZoom s) = true -> is_nan v = false ->
  zoom_in_range (setZoom v s).
Proof.
  intros HM Hv. unfold zoom_in_range.
  rewrite zoom_setZoom, maxZoom_setZoom.
  apply clamp_range; assumption.
Qed.

(** C5, as the script behaves.  For every input [v] that is a number
    (not [NaN]) and every bound [maxZoom] not below 1, [setZoom]
    stores a value between 1 and [maxZoom]; for [NaN] it stores [NaN];
    and clamping is idempotent for every input: calling [setZoom]
    again with the value it stored changes nothing. *)
Theorem setZoom_clamps (v : float) (s : Sys) :
  ((1 <=? maxZoom s) = true -> is_nan v = false ->
   zoom_in_range (setZoom v s)) /\
  zoom (setZoom nan s) = nan /\
  setZoom (zoom (setZoom v s)) (setZoom v s) = setZoom v s.
Proof.
  split; [apply setZoom_range|].
  split; [reflexivity | apply setZoom_idempotent].
Qed.

Lemma setZoom_clamps_run :
  let s := initial ready_world in
  zoom_in_range (setZoom 7.5 s) /\
  zoom (setZoom 7.5 s) = 5 /\ zoom (setZoom 0.25 s) = 1 /\
  zoom (setZoom 2.5 s) = 2.5 /\
  setZoom (zoom (setZoom 7.5 s)) (setZoom 7.5 s) = setZoom 7.5 s.
Proof.
  intros s.
  destruct (setZoom_clamps 7.5 s) as (Hr & _ & Hi).
  split; [apply Hr; reflexivity|].
  split; [reflexivity|]. split; [reflexivity|]. split; [reflexivity|].
  exact Hi.
Defined.

(** C5, as stated, fails: [Math.max] and [Math.min] return [NaN] when
    given [NaN], so [setZoom(NaN)] stores [NaN], which is not between 1
    and [maxZoom = 5]. *)
Lemma setZoom_NaN_out_of_range :
  zoom (setZoom nan (initial ready_world)) = nan /\
  ~ zoom_in_range (setZoom nan (initial ready_world)).
Proof.
  split; [reflexivity|]. intros [H _]. vm_compute in H. discriminate.
Qed.

(** ** The zoom stays within its bounds *)

Lemma js_initCamera (s : Sys) : js (initCamera s) = js s.
Proof. apply StateFacts.initCamera_effect. Qed.

Lemma js_renderLoop (now : float) (s : Sys) :
  zoom_vars (renderLoop now s) = zoom_vars s.
Proof.
  unfold zoom_vars, renderLoop. rewrite RenderFacts.raf_js.
  destruct (ge _ _); [|reflexivity].
  rewrite RenderFacts.drawFrame_js. reflexivity.
Qed.

Lemma zoom_vars_updateRecordTimer (s : Sys) :
  zoom_vars (updateRecordTimer s) = zoom_vars s.
Proof. unfold updateRecordTimer. destruct (recording s); reflexivity. Qed.

Lemma zoom_vars_captureBtn (s : Sys) :
  zoom_vars (on_captureBtn_click s) = zoom_vars s.
Proof.
  unfold on_captureBtn_click.
  destruct (String.eqb (currentMode s) "photo"); [reflexivity|].
  destruct (recording s).
  - unfold stopRecording.
    match goal with |- context [match ?x with _ => _ end] => destruct x end;
      [|reflexivity].
    match goal with
    | |- context [cancelAnimationFrame ?x _] => destruct x
    end; reflexivity.
  - reflexivity.
Qed.

Lemma zoom_invariant_ext (s s' : Sys) :
  zoom_vars s' = zoom_vars s -> zoom_invariant s -> zoom_invariant s'.
Proof.
  unfold zoom_vars, zoom_invariant, zoom_in_range. intros H.
  injection H as Hz HM Hp. rewrite Hz, HM, Hp. auto.
Qed.

Section Handlers.

Variable Math_hypot : float -> float -> float.

(** The handlers that leave the zoom variables alone. *)
Lemma zoom_vars_frame (e : Event) (s : Sys) :
  match e with
  | zoomSlider_input _ | maxZoomSelect_change _
  | touchstart _ | touchmove _ => False
  | _ => True
  end ->
  zoom_vars (handle Math_hypot e s) = zoom_vars s.
Proof.
  destruct e; intros He; try contradiction; cbn [handle]; try reflexivity.
  - (* animation_frame *)
    destruct (pending_frame id s) as [[|]|]; [| | reflexivity].
    + rewrite js_renderLoop. reflexivity.
    + rewrite zoom_vars_updateRecordTimer. reflexivity.
  - apply zoom_vars_captureBtn.
  - unfold zoom_vars, on_switchCameraBtn_click. rewrite js_initCamera.
    reflexivity.
  - unfold zoom_vars, on_fpsSelect_change. rewrite js_initCamera.
    reflexivity.
  - destruct (nth_error (recorders s) r) as [m|]; [|reflexivity].
    destruct (ondataavailable m) as [[|]|]; reflexivity.
  - destruct (nth_error (recorders s) r) as [m|]; [|reflexivity].
    destruct (onstop m) as [[|]|]; reflexivity.
  - destruct (nth_error (recorders s) r) as [m|]; [|reflexivity].
    destruct (onerror m) as [[|]|]; reflexivity.
  - destruct (mem_nat req (gum_pending s)); reflexivity.
  - destruct (mem_nat req (play_pending s)); reflexivity.
Qed.

Lemma setZoom_invariant (v : float) (s : Sys) :
  zoom_invariant s -> is_nan v = false -> zoom_invariant (setZoom v s).
Proof.
  intros (_ & HM & HMf & Hp & Hpf) Hv.
  split; [|repeat split; assumption].
  apply setZoom_range; assumption.
Qed.

Lemma handle_zoom_invariant (e : Event) (s : Sys) :
  zoom_invariant s -> input_ok Math_hypot e ->
  zoom_invariant (handle Math_hypot e s).
Proof.
  intros Hinv Hok.
  destruct e;
    try (apply (zoom_invariant_ext s); [apply zoom_vars_frame; exact I | exact Hinv]).
  - (* touchstart *)
    cbn [handle]. unfold on_touchstart.
    destruct touches as [|t0 [|t1 [|t2 l]]]; try exact Hinv.
    destruct Hinv as ((Hz1 & Hz2) & HM & HMf & Hp & Hpf).
    repeat split; try assumption.
    apply (finite_between _ (maxZoom s)); assumption.
  - (* touchmove *)
    cbn [handle]. unfold on_touchmove.
    destruct touches as [|t0 [|t1 [|t2 l]]]; try exact Hinv.
    destruct (pinchStartDistance s) as [start|]; [|exact Hinv].
    destruct (truthy start) eqn:Ht; [|exact Hinv].
    cbn [input_ok] in Hok.
    apply setZoom_invariant; [exact Hinv|].
    destruct Hinv as (_ & _ & _ & Hp & Hpf).
    apply mul_not_nan; [exact Hpf | apply one_le_nonzero; exact Hp |].
    apply div_not_nan; assumption.
  - (* zoomSlider_input *)
    cbn [handle]. unfold on_zoomSlider_input.
    change (zoom_invariant (setZoom v (set_zoomSlider_value v s))).
    apply setZoom_invariant; [|exact Hok].
    apply (zoom_invariant_ext s); [reflexivity | exact Hinv].
  - (* maxZoomSelect_change *)
    cbn [handle]. unfold on_maxZoomSelect_change.
    destruct Hok as [Hv Hvf].
    destruct Hinv as ((Hz1 & Hz2) & HM & HMf & Hp & Hpf).
    destruct (leb_not_nan _ _ Hz1) as [_ Hzn].
    split; [|repeat split; assumption].
    change (zoom_in_range (setZoom (zoom s) (set_maxZoom v s))).
    apply setZoom_range; assumption.
Qed.

Lemma boot_zoom_invariant (w : World) : zoom_invariant (boot w).
Proof.
  apply (zoom_invariant_ext (initial w)).
  - unfold zoom_vars, boot. rewrite js_initCamera. reflexivity.
  - repeat split; reflexivity.
Qed.

Lemma run_zoom_invariant (es : list Event) (s : Sys) :
  zoom_invariant s -> Forall (input_ok Math_hypot) es ->
  zoom_invariant (run Math_hypot es s).
Proof.
  revert s. induction es as [|e es IH]; intros s Hinv Hok; [exact Hinv|].
  inversion Hok as [|e' es' He Hes]; subst.
  cbn [run fold_left]. apply IH; [|exact Hes].
  apply handle_zoom_invariant; assumption.
Qed.

(** C6, as the script behaves.  As long as the handlers are given
    numbers that make sense -- a slider value that parses to a number
    (not [NaN]), a finite distance between the touch points of a
    pinch, a maximum zoom that is finite and not below 1 -- the stored
    zoom satisfies [1 <= zoom <= maxZoom] after every event from page
    load on (slider input, pinch gesture, change of the maximum zoom,
    and every other event handled). *)
Theorem zoom_never_out_of_range (w : World) (es : list Event) :
  Forall (input_ok Math_hypot) es ->
  zoom_in_range (run Math_hypot es (boot w)).
Proof.
  intros Hok.
  apply (run_zoom_invariant es (boot w)); [|exact Hok].
  apply boot_zoom_invariant.
Qed.

End Handlers.

(** C6, run: the slider dragged past the end, a pinch that spreads the
    fingers from 100 to 150 pixels apart, and the maximum zoom lowered
    to 3. *)
Lemma zoom_never_out_of_range_run :
  let es :=
    [zoomSlider_input 2;
     touchstart [mkTouch 100 300; mkTouch 200 300];
     touchmove [mkTouch 75 300; mkTouch 225 300];
     maxZoomSelect_change 3;
     zoomSlider_input 40] in
  Forall (input_ok hypot_sqrt) es /\
  zoom_in_range (run hypot_sqrt es (boot ready_world)) /\
  zoom (run hypot_sqrt (firstn 3 es) (boot ready_world)) = 3 /\
  zoom (run hypot_sqrt es (boot ready_world)) = 3.
Proof.
  intros es.
  assert (Hok : Forall (input_ok hypot_sqrt) es).
  { repeat constructor. }
  split; [exact Hok|].
  split; [exact (zoom_never_out_of_range hypot_sqrt ready_world es Hok)|].
  split; reflexivity.
Defined.

(** C6, as stated, fails: [setZoom] has no guard, and neither have the
    handlers that call it.  Right after load, a maximum zoom of [0]
    makes the stored zoom [0]; a slider value that does not parse
    ([NaN]) is stored as [NaN]; and so is the zoom of a pinch between
    touch points so far apart that both distances are [Infinity].  In
    each case the stored zoom is not between 1 and [maxZoom]. *)
Lemma zoom_stored_out_of_range :
  let s0 := boot ready_world in
  let far := [mkTouch 1e308 0; mkTouch (-1e308) 0] in
  let s1 := run hypot_sqrt [maxZoomSelect_change 0] s0 in
  let s2 := run hypot_sqrt [zoomSlider_input nan] s0 in
  let s3 := run hypot_sqrt [touchstart far; touchmove far] s0 in
  zoom_in_range s0 /\
  (zoom s1 = 0 /\ maxZoom s1 = 0 /\ ~ zoom_in_range s1) /\
  (zoom s2 = nan /\ maxZoom s2 = 5 /\ ~ zoom_in_range s2) /\
  (zoom s3 = nan /\ maxZoom s3 = 5 /\ ~ zoom_in_range s3).
Proof.
  intros s0 far s1 s2 s3.
  split; [split; reflexivity|].
  repeat split; try reflexivity;
    intros [H _]; vm_compute in H; discriminate.
Qed.

End ZoomFacts.

(** * The camera session *)

Module CameraFacts.

Import JS Cam NumberFacts StateFacts.
Open Scope string_scope.
Open Scope list_scope.
Open Scope float_scope.

Lemma cam_vars_renderLoop (now : float) (s : Sys) :
  cam_vars (renderLoop now s) = cam_vars s.
Proof.
  unfold cam_vars, renderLoop, drawFrame. destruct_conds; reflexivity.
Qed.

Lemma cam_vars_updateRecordTimer (s : Sys) :
  cam_vars (updateRecordTimer s) = cam_vars s.
Proof. unfold cam_vars, updateRecordTimer. destruct_conds; reflexivity. Qed.

Lemma cam_vars_captureBtn (s : Sys) :
  cam_vars (on_captureBtn_click s) = cam_vars s.
Proof.
  unfold cam_vars, on_captureBtn_click, stopRecording, startRecording,
    updateRecordTimer, cancelAnimationFrame.
  destruct_conds; reflexivity.
Qed.

Section Handlers.

Variable Math_hypot : float -> float -> float.

(** The handlers that leave the camera alone. *)
Lemma cam_vars_frame (e : Event) (s : Sys) :
  match e with
  | switchCameraBtn_click | fpsSelect_change _
  | getUserMedia_fulfilled _ _ | getUserMedia_rejected _ => False
  | _ => True
  end ->
  cam_vars (handle Math_hypot e s) = cam_vars s.
Proof.
  destruct e; intros He; try contradiction; cbn [handle];
    try reflexivity.
  - destruct (pending_frame id s) as [[|]|]; [| | reflexivity].
    + rewrite cam_vars_renderLoop. reflexivity.
    + rewrite cam_vars_updateRecordTimer. reflexivity.
  - unfold on_touchstart. destruct_conds; reflexivity.
  - unfold on_touchmove. destruct_conds; reflexivity.
  - apply cam_vars_captureBtn.
  - unfold call_handler. destruct_conds; reflexivity.
  - unfold call_handler. destruct_conds; reflexivity.
  - unfold call_handler. destruct_conds; reflexivity.
  - destruct_conds; reflexivity.
Qed.

Lemma camera_invariant_ext (s s' : Sys) :
  cam_vars s' = cam_vars s -> camera_invariant s -> camera_invariant s'.
Proof.
  unfold cam_vars, camera_invariant, current_tracks. intros H.
  injection H as Hs Hl Hp. rewrite Hs, Hl, Hp. auto.
Qed.

Lemma mem_nat_single (a b : nat) : mem_nat a [b] = true -> a = b.
Proof.
  unfold mem_nat. cbn. rewrite orb_false_r. apply Nat.eqb_eq.
Qed.

Lemma remove_nat_single (a b : nat) :
  remove_nat a [b] = if Nat.eqb b a then [] else [b].
Proof. unfold remove_nat. cbn. destruct (Nat.eqb b a); reflexivity. Qed.

Lemma no_element_nil {A : Type} (l : list A) :
  (forall x, ~ In x l) -> l = [].
Proof.
  destruct l as [|x l]; [reflexivity|]. intros H. exfalso.
  apply (H x). left. reflexivity.
Qed.

(** A change made while no acquisition is outstanding leaves no
    track live. *)
Lemma initCamera_invariant (s : Sys) :
  camera_invariant s -> gum_pending s = [] ->
  camera_invariant (initCamera s).
Proof.
  intros Hinv Hp. unfold camera_invariant in *.
  destruct (initCamera_effect s) as (_ & _ & Hp' & _ & Hv).
  rewrite Hp', Hp. cbn [app]. rewrite Hp in Hinv.
  apply no_element_nil. intros t Hin.
  apply Hv in Hin. destruct Hin as [Hin Hnot]. apply Hnot, Hinv, Hin.
Qed.

Lemma cam_vars_inv (s : Sys) (a : option MediaStream) (b : list Track)
    (c : list nat) :
  cam_vars s = (a, b, c) ->
  stream s = a /\ live s = b /\ gum_pending s = c.
Proof. unfold cam_vars. intros H. injection H as Ha Hb Hc. auto. Qed.

Lemma fulfilled_effect (req n : nat) (s : Sys) :
  mem_nat req (gum_pending s) = true ->
  cam_vars (handle Math_hypot (getUserMedia_fulfilled req n) s) =
  (Some (mkStream (stream_next s) n),
   live s ++ getTracks (mkStream (stream_next s) n),
   remove_nat req (gum_pending s)).
Proof. intros H. cbn [handle]. rewrite H. reflexivity. Qed.

Lemma handle_camera_invariant (e : Event) (s : Sys) :
  camera_invariant s -> serial e s ->
  camera_invariant (handle Math_hypot e s).
Proof.
  intros Hinv Hser.
  destruct e;
    try (apply (camera_invariant_ext s);
         [apply cam_vars_frame; exact I | exact Hinv]).
  - (* switchCameraBtn_click *)
    cbn [handle]. unfold on_switchCameraBtn_click.
    apply initCamera_invariant; [|exact Hser].
    apply (camera_invariant_ext s); [reflexivity | exact Hinv].
  - (* fpsSelect_change *)
    cbn [handle]. unfold on_fpsSelect_change.
    apply initCamera_invariant; [|exact Hser].
    apply (camera_invariant_ext s); [reflexivity | exact Hinv].
  - (* getUserMedia_fulfilled *)
    destruct (mem_nat req (gum_pending s)) eqn:Hmem.
    + destruct (cam_vars_inv _ _ _ _ (fulfilled_effect req n s Hmem))
        as (Es & El & Ep).
      unfold camera_invariant, current_tracks in *.
      rewrite Es, El, Ep.
      destruct (gum_pending s) as [|p [|q l]]; try contradiction;
        [discriminate|].
      apply mem_nat_single in Hmem. subst p.
      rewrite remove_nat_single, Nat.eqb_refl, Hinv. cbn [app]. auto.
    + cbn [handle]. rewrite Hmem. exact Hinv.
  - (* getUserMedia_rejected *)
    assert (E : cam_vars (handle Math_hypot (getUserMedia_rejected req) s)
                = (stream s, live s, remove_nat req (gum_pending s)))
      by reflexivity.
    destruct (cam_vars_inv _ _ _ _ E) as (Es & El & Ep).
    unfold camera_invariant, current_tracks in *.
    rewrite Es, El, Ep.
    destruct (gum_pending s) as [|p [|q l]]; try contradiction.
    + exact Hinv.
    + rewrite remove_nat_single. destruct (Nat.eqb p req).
      * rewrite Hinv. intros t [].
      * exact Hinv.
Qed.

Lemma run_camera_invariant (es : list Event) (s : Sys) :
  camera_invariant s -> serial_run Math_hypot es s ->
  camera_invariant (run Math_hypot es s).
Proof.
  revert s. induction es as [|e es IH]; intros s Hinv Hser; [exact Hinv|].
  destruct Hser as [He Hes]. cbn [run fold_left].
  apply IH; [|exact Hes]. apply handle_camera_invariant; assumption.
Qed.

Lemma nodup_const (a : nat) (l : list nat) :
  (forall x, In x l -> x = a) ->
  (List.length (nodup Nat.eq_dec l) <= 1)%nat.
Proof.
  induction l as [|x l IH]; intros H; cbn [nodup]; [cbn; lia|].
  destruct (in_dec Nat.eq_dec x l) as [Hin | Hnin].
  - apply IH. intros y Hy. apply H. right. exact Hy.
  - destruct l as [|y l'].
    + cbn. lia.
    + exfalso. apply Hnin. left.
      rewrite (H x (or_introl eq_refl)).
      apply H. right. left. reflexivity.
Qed.

Lemma camera_invariant_handles (s : Sys) :
  camera_invariant s -> (List.length (handles s) <= 1)%nat.
Proof.
  unfold camera_invariant, handles, current_tracks. intros Hinv.
  destruct (gum_pending s) as [|p [|q l]]; try contradiction.
  - destruct (stream s) as [st|].
    + apply (nodup_const (sid st)). intros x Hx.
      apply in_map_iff in Hx. destruct Hx as (t & Ht & Hin).
      apply Hinv in Hin. unfold getTracks in Hin.
      apply in_map_iff in Hin. destruct Hin as (i & Hi & _).
      subst t x. reflexivity.
    + destruct (live s) as [|t l]; [cbn; lia|].
      exfalso. apply (Hinv t). left. reflexivity.
  - rewrite Hinv. cbn. lia.
Qed.

Lemma boot_camera_invariant (w : World) :
  live w = [] -> gum_pending w = [] -> camera_invariant (boot w).
Proof.
  intros Hlive Hpend. unfold boot. unfold camera_invariant.
  destruct (initCamera_effect (initial w)) as (_ & _ & Hp & _ & Hv).
  rewrite Hp. change (gum_pending (initial w)) with (gum_pending w).
  rewrite Hpend. cbn [app].
  apply no_element_nil. intros t Hin.
  apply Hv in Hin. destruct Hin as [Hin _].
  change (live (initial w)) with (live w) in Hin.
  rewrite Hlive in Hin. exact Hin.
Qed.

(** While a session is active no acquisition is outstanding. *)
Lemma active_no_acquisition (s : Sys) :
  camera_invariant s -> session_active s -> gum_pending s = [].
Proof.
  unfold camera_invariant. intros Hinv (t & _ & Hl).
  destruct (gum_pending s) as [|p [|q l]];
    [reflexivity | rewrite Hinv in Hl; destruct Hl | contradiction].
Qed.

Lemma in_session_serial (e : Event) (s : Sys) :
  camera_invariant s -> in_session e s -> serial e s.
Proof.
  intros Hinv He. destruct e; try exact I;
    apply active_no_acquisition; assumption.
Qed.

Lemma in_session_run_serial (es : list Event) (s : Sys) :
  camera_invariant s -> in_session_run Math_hypot es s ->
  serial_run Math_hypot es s.
Proof.
  revert s. induction es as [|e es IH]; intros s Hinv Hes; [exact I|].
  destruct Hes as [He Hes].
  assert (Hs : serial e s) by (apply in_session_serial; assumption).
  split; [exact Hs|].
  apply IH; [apply handle_camera_invariant; assumption | exact Hes].
Qed.

Lemma in_session_run_firstn (n : nat) (es : list Event) (s : Sys) :
  in_session_run Math_hypot es s ->
  in_session_run Math_hypot (firstn n es) s.
Proof.
  revert es s. induction n as [|n IH]; intros [|e es] s Hes; try exact I.
  destruct Hes as [He Hes]. split; [exact He | apply IH; exact Hes].
Qed.

(** C9.  Every change of facing or frame rate stops all the tracks of
    the stream the script holds before it begins the new acquisition
    (the [getUserMedia] call), and none of them is live afterwards;
    and in every run from page load in which each such change is made
    while a camera session is active, at no point are two camera
    handles held. *)
Theorem session_replacement :
  (forall (e : Event) (s : Sys),
      e = switchCameraBtn_click \/ (exists v, e = fpsSelect_change v) ->
      (exists c,
          log (handle Math_hypot e s) =
          log s ++ map track_stop (current_tracks s) ++
          [getUserMedia (gum_next s) c]) /\
      (forall t,
          In t (current_tracks s) ->
          ~ In t (live (handle Math_hypot e s)))) /\
  (forall (w : World) (es : list Event),
      live w = [] -> gum_pending w = [] ->
      in_session_run Math_hypot es (boot w) ->
      forall n,
        (List.length (handles (run Math_hypot (firstn n es) (boot w))) <= 1)%nat).
Proof.
  split.
  - intros e s [He | [v He]]; subst e; cbn [handle].
    + unfold on_switchCameraBtn_click.
      match goal with
      | |- context [initCamera ?s0] =>
          destruct (initCamera_effect s0) as (_ & _ & _ & Hl & Hv)
      end.
      split; [exact Hl|]. intros t Ht Hin. apply Hv in Hin. tauto.
    + unfold on_fpsSelect_change.
      match goal with
      | |- context [initCamera ?s0] =>
          destruct (initCamera_effect s0) as (_ & _ & _ & Hl & Hv)
      end.
      split; [exact Hl|]. intros t Ht Hin. apply Hv in Hin. tauto.
  - intros w es Hlive Hpend Hes n.
    pose proof (boot_camera_invariant w Hlive Hpend) as Hinv.
    apply camera_invariant_handles, run_camera_invariant; [exact Hinv|].
    apply in_session_run_serial; [exact Hinv|].
    apply in_session_run_firstn. exact Hes.
Qed.

End Handlers.

(** C9, run: the camera is switched, and the frame rate changed, each
    time while the session started before is active: one handle is
    held after each event, stream 2 at the end. *)
Lemma session_replacement_run :
  let es :=
    [getUserMedia_fulfilled 0 1; play_fulfilled 0;
     switchCameraBtn_click; getUserMedia_fulfilled 1 1; play_fulfilled 1;
     fpsSelect_change 30; getUserMedia_fulfilled 2 1] in
  in_session_run hypot_sqrt es (boot ready_world) /\
  (forall n,
      (List.length (handles (run hypot_sqrt (firstn n es) (boot ready_world)))
       <= 1)%nat) /\
  map (fun n => handles (run hypot_sqrt (firstn n es) (boot ready_world)))
    (seq 0 8) =
  [[]; [0]; [0]; []; [1]; [1]; []; [2]]%nat.
Proof.
  intros es.
  assert (Hes : in_session_run hypot_sqrt es (boot ready_world)).
  { cbn. repeat split.
    - exists (0, 0)%nat. split; left; reflexivity.
    - exists (1, 0)%nat. split; left; reflexivity. }
  split; [exact Hes|]. split; [|reflexivity].
  destruct (session_replacement hypot_sqrt) as [_ H].
  apply H; [reflexivity | reflexivity | exact Hes].
Defined.

(** A change made while an acquisition is outstanding is not made
    while a session is active (the change before it stopped the
    tracks), and the statement above does not cover it: the frame rate
    is changed and the camera is switched before the new stream has
    arrived; both requests are answered, and the streams 1 and 2 are
    held at the same time (the script holds stream 2 only, stream 1 is
    never stopped). *)
Lemma two_handles_held :
  let es :=
    [getUserMedia_fulfilled 0 1; play_fulfilled 0;
     fpsSelect_change 30; switchCameraBtn_click;
     getUserMedia_fulfilled 1 1; getUserMedia_fulfilled 2 1] in
  handles (run hypot_sqrt (firstn 2 es) (boot ready_world)) = [0%nat] /\
  live (run hypot_sqrt (firstn 3 es) (boot ready_world)) = [] /\
  gum_pending (run hypot_sqrt (firstn 3 es) (boot ready_world)) = [1%nat] /\
  handles (run hypot_sqrt es (boot ready_world)) = [1%nat; 2%nat] /\
  stream (run hypot_sqrt es (boot ready_world)) = Some (mkStream 2 1).
Proof. repeat split; reflexivity. Qed.

End CameraFacts.

(** * Recording *)

Module RecordingFacts.

Import JS Cam NumberFacts StateFacts.
Open Scope string_scope.
Open Scope list_scope.
Open Scope float_scope.

Lemma downloads_app (l l' : list Effect) :
  downloads (l ++ l') = downloads l ++ downloads l'.
Proof. unfold downloads. apply flat_map_app. Qed.

Lemma timer_ticks_app (l l' : list Effect) :
  timer_ticks (l ++ l') = (timer_ticks l + timer_ticks l')%nat.
Proof. unfold timer_ticks. rewrite filter_app, length_app. reflexivity. Qed.

(** ** Steps that leave the session alone *)

Lemma quiet_refl (s : Sys) : quiet_step s s.
Proof. unfold quiet_step. repeat split; reflexivity. Qed.

Lemma quiet_trans (s1 s2 s3 : Sys) :
  quiet_step s1 s2 -> quiet_step s2 s3 -> quiet_step s1 s3.
Proof.
  unfold quiet_step.
  intros (A1 & A2 & A3 & A4 & A5 & A6 & A7) (B1 & B2 & B3 & B4 & B5 & B6 & B7).
  rewrite B1, B2, B3, B4, B5, B6, A1, A2, A3, A4, A5, A6.
  repeat split; try reflexivity.
  intros H. rewrite B7, A7; [reflexivity | exact H | rewrite A1; exact H].
Qed.

(** A step that changes none of the session's variables and appends to
    the log effects that are neither downloads nor timer updates. *)
Lemma quiet_intro (s s' : Sys) (l : list Effect) :
  (recording s', currentMode s', mediaRecorder s', recordedChunks s',
   recorders s') =
  (recording s, currentMode s, mediaRecorder s, recordedChunks s,
   recorders s) ->
  log s' = log s ++ l ->
  Forall (fun e => match e with
                   | download _ _ | recordTimer_text _ => False
                   | _ => True
                   end) l ->
  quiet_step s s'.
Proof.
  intros Hv Hl Hq. injection Hv as H1 H2 H3 H4 H5.
  assert (Hd : downloads l = [] /\ timer_ticks l = 0%nat).
  { clear - Hq. induction Hq as [|e l He Hq IH]; [split; reflexivity|].
    destruct IH as [IH1 IH2].
    unfold downloads, timer_ticks in *. cbn [flat_map filter].
    destruct e; try contradiction; cbn; rewrite ?IH1, ?IH2; split; reflexivity. }
  destruct Hd as [Hd Ht].
  unfold quiet_step. rewrite H1, H2, H3, H4, H5, Hl.
  rewrite downloads_app, timer_ticks_app, Hd, Ht, app_nil_r, Nat.add_0_r.
  repeat split; reflexivity.
Qed.

Lemma quiet_drawFrame (s : Sys) : quiet_step s (drawFrame s).
Proof.
  unfold drawFrame. destruct (readyState s <? 2)%Z; [apply quiet_refl|].
  destruct (strict_eq (currentFilter _) "film").
  - eapply quiet_intro; [reflexivity | cbn; rewrite <- !app_assoc; reflexivity |].
    repeat constructor.
  - eapply quiet_intro; [reflexivity | cbn; rewrite <- !app_assoc; reflexivity |].
    repeat constructor.
Qed.

Lemma quiet_same_log (s s' : Sys) :
  (recording s', currentMode s', mediaRecorder s', recordedChunks s',
   recorders s') =
  (recording s, currentMode s, mediaRecorder s, recordedChunks s,
   recorders s) ->
  log s' = log s ->
  quiet_step s s'.
Proof.
  intros Hv Hl. apply (quiet_intro s s' []); [exact Hv | | constructor].
  rewrite app_nil_r. exact Hl.
Qed.

Ltac quiet :=
  first
    [ apply quiet_refl
    | apply quiet_same_log; reflexivity
    | eapply quiet_intro;
      [ reflexivity
      | cbn; rewrite <- ?app_assoc; reflexivity
      | repeat constructor ] ].

Lemma quiet_renderLoop (now : float) (s : Sys) :
  quiet_step s (renderLoop now s).
Proof.
  unfold renderLoop. destruct (ge _ _).
  - match goal with
    | |- quiet_step _ (snd (requestAnimationFrame _ (drawFrame ?x))) =>
        apply (quiet_trans _ x); [quiet|];
        apply (quiet_trans _ (drawFrame x)); [apply quiet_drawFrame | quiet]
    end.
  - quiet.
Qed.

(** The timer callback: a tick while recording, nothing otherwise. *)
Lemma quiet_updateRecordTimer (s : Sys) :
  quiet_step s (updateRecordTimer s).
Proof.
  unfold updateRecordTimer. destruct (recording s) eqn:Hrec; [|quiet].
  unfold quiet_step. cbn. rewrite downloads_app, app_nil_r.
  repeat split; try reflexivity.
  intros H. change (recording s = false) in H. congruence.
Qed.

Lemma harmless_stops (l : list Track) :
  Forall (fun e => match e with
                   | download _ _ | recordTimer_text _ => False
                   | _ => True
                   end) (map track_stop l).
Proof. induction l as [|t l IH]; constructor; [exact I | exact IH]. Qed.

Lemma quiet_initCamera (s : Sys) : quiet_step s (initCamera s).
Proof.
  destruct (initCamera_effect s) as (Hj & Hr & _ & [c Hl] & _).
  eapply quiet_intro; [rewrite Hj, Hr; reflexivity | exact Hl |].
  apply Forall_app. split; [apply harmless_stops | repeat constructor].
Qed.

Lemma session_vars_inv (s : Sys) (a : bool) (b : string) (c : option nat)
    (d : list Blob) (e : list MediaRecorder) (f : list (FileName * Blob)) :
  session_vars s = (a, b, c, d, e, f) ->
  recording s = a /\ currentMode s = b /\ mediaRecorder s = c /\
  recordedChunks s = d /\ recorders s = e /\ downloads (log s) = f.
Proof.
  unfold session_vars. intros H. injection H as H1 H2 H3 H4 H5 H6.
  repeat split; assumption.
Qed.

Section Handlers.

Variable Math_hypot : float -> float -> float.

(** Every event of a session other than a chunk leaves the session
    alone. *)
Lemma quiet_handle (r : nat) (e : Event) (s : Sys) :
  session_event r e ->
  match e with recorder_dataavailable _ _ => False | _ => True end ->
  currentMode s = "video" ->
  nth_error (recorders s) r = Some session_recorder ->
  quiet_step s (handle Math_hypot e s).
Proof.
  intros He Hd Hm Hr.
  destruct e; try contradiction; cbn [handle]; try quiet.
  - (* animation_frame *)
    destruct (pending_frame id s) as [[|]|]; [| |quiet].
    + apply (quiet_trans _ (cancelAnimationFrame (Some id) s));
        [quiet | apply quiet_renderLoop].
    + apply (quiet_trans _ (cancelAnimationFrame (Some id) s));
        [quiet | apply quiet_updateRecordTimer].
  - unfold on_touchstart.
    destruct touches as [|t0 [|t1 [|t2 l]]]; quiet.
  - unfold on_touchmove.
    destruct touches as [|t0 [|t1 [|t2 l]]]; try quiet;
      destruct (pinchStartDistance s) as [start|]; try quiet.
    destruct (truthy start); quiet.
  - (* modeVideo_click *)
    apply quiet_same_log; [|reflexivity].
    unfold on_modeVideo_click. cbn. rewrite Hm. reflexivity.
  - (* switchCameraBtn_click *)
    unfold on_switchCameraBtn_click.
    match goal with
    | |- quiet_step _ (initCamera ?x) =>
        apply (quiet_trans _ x); [quiet | apply quiet_initCamera]
    end.
  - (* fpsSelect_change *)
    unfold on_fpsSelect_change.
    match goal with
    | |- quiet_step _ (initCamera ?x) =>
        apply (quiet_trans _ x); [quiet | apply quiet_initCamera]
    end.
  - (* recorder_error *)
    cbn in He. subst r0. rewrite Hr. quiet.
  - destruct (mem_nat req (gum_pending s)); quiet.
  - destruct (mem_nat req (play_pending s)); quiet.
Qed.

(** One event of a session: the chunk of a data event is appended,
    nothing else of the session changes, and once recording has
    stopped the timer does not move. *)
Lemma session_step (r : nat) (e : Event) (s : Sys) :
  session_event r e ->
  currentMode s = "video" ->
  nth_error (recorders s) r = Some session_recorder ->
  session_vars (handle Math_hypot e s) =
  (recording s, currentMode s, mediaRecorder s,
   recordedChunks s ++ chunks_of [e], recorders s, downloads (log s)) /\
  (recording s = false ->
   timer_ticks (log (handle Math_hypot e s)) = timer_ticks (log s)).
Proof.
  intros He Hm Hr.
  assert (Hq : match e with
               | recorder_dataavailable _ _ => True
               | _ => quiet_step s (handle Math_hypot e s)
               end).
  { destruct e; try exact I;
      apply (quiet_handle r); try assumption; exact I. }
  destruct e;
    try (destruct Hq as (A1 & A2 & A3 & A4 & A5 & A6 & A7);
         unfold session_vars; rewrite A1, A2, A3, A4, A5, A6;
         cbn [chunks_of flat_map]; rewrite app_nil_r;
         split; [reflexivity | exact A7]).
  cbn in He. subst r0. cbn [handle]. rewrite Hr.
  split; reflexivity.
Qed.

Lemma session_run (r : nat) (es : list Event) (s : Sys) :
  Forall (session_event r) es ->
  currentMode s = "video" ->
  nth_error (recorders s) r = Some session_recorder ->
  session_vars (run Math_hypot es s) =
  (recording s, currentMode s, mediaRecorder s,
   recordedChunks s ++ chunks_of es, recorders s, downloads (log s)) /\
  (recording s = false ->
   timer_ticks (log (run Math_hypot es s)) = timer_ticks (log s)).
Proof.
  revert s. induction es as [|e es IH]; intros s Hes Hm Hr.
  - cbn. rewrite app_nil_r. split; reflexivity.
  - inversion Hes as [|e' es' He Hes']; subst.
    cbn [run fold_left].
    destruct (session_step r e s He Hm Hr) as [Hstep Htick].
    destruct (session_vars_inv _ _ _ _ _ _ _ Hstep)
      as (H1 & H2 & H3 & H4 & H5 & H6).
    change (fold_left (fun s e => handle Math_hypot e s) es
              (handle Math_hypot e s))
      with (run Math_hypot es (handle Math_hypot e s)).
    destruct (IH (handle Math_hypot e s) Hes') as [IH1 IH2];
      [rewrite H2; exact Hm | rewrite H5; exact Hr |].
    rewrite IH1. rewrite H1, H2, H3, H4, H5, H6.
    unfold chunks_of. cbn [flat_map].
    rewrite app_nil_r, <- app_assoc. split; [reflexivity|].
    intros Hrec. rewrite IH2 by (rewrite H1; exact Hrec).
    apply Htick, Hrec.
Qed.

Lemma update_nth_last {A : Type} (f : A -> A) (l : list A) (x : A) :
  update_nth (List.length l) f (l ++ [x]) = l ++ [f x].
Proof.
  induction l as [|y l IH]; cbn; [reflexivity|]. rewrite IH. reflexivity.
Qed.

Lemma nth_error_last {A : Type} (l : list A) (x : A) :
  nth_error (l ++ [x]) (List.length l) = Some x.
Proof.
  rewrite nth_error_app2 by lia. rewrite Nat.sub_diag. reflexivity.
Qed.

(** The first press of the capture button, in video mode. *)
Lemma start_session (s : Sys) :
  currentMode s = "video" -> recording s = false ->
  session_vars (handle Math_hypot captureBtn_click s) =
  (true, "video", Some (List.length (recorders s)), [],
   recorders s ++ [session_recorder], downloads (log s)).
Proof.
  intros Hm Hrec. cbn [handle]. unfold on_captureBtn_click.
  rewrite Hm, Hrec. cbn [String.eqb Ascii.eqb Bool.eqb].
  unfold startRecording, new_MediaRecorder, updateRecordTimer.
  cbn. unfold session_vars, set_onstop, set_ondataavailable. cbn.
  rewrite !update_nth_last.
  rewrite !downloads_app, !app_nil_r. rewrite <- Hm. reflexivity.
Qed.

Lemma stopRecording_effect (r : nat) (s : Sys) :
  mediaRecorder s = Some r ->
  js (stopRecording s) = js (set_recording false s) /\
  recorders (stopRecording s) = recorders s /\
  log (stopRecording s) =
    log s ++ [recordRing_active false; recorder_stop r].
Proof.
  intros Hr. unfold stopRecording.
  match goal with
  | |- context [match ?x with _ => _ end] =>
      change x with (mediaRecorder s)
  end.
  rewrite Hr.
  match goal with
  | |- context [cancelAnimationFrame ?x _] => destruct x
  end; cbn; rewrite <- app_assoc; repeat split; reflexivity.
Qed.

(** The second press. *)
Lemma stop_session (r : nat) (s : Sys) :
  currentMode s = "video" -> recording s = true ->
  mediaRecorder s = Some r ->
  session_vars (handle Math_hypot captureBtn_click s) =
  (false, "video", Some r, recordedChunks s, recorders s,
   downloads (log s)) /\
  timer_ticks (log (handle Math_hypot captureBtn_click s)) =
  timer_ticks (log s).
Proof.
  intros Hm Hrec Hr. cbn [handle]. unfold on_captureBtn_click.
  rewrite Hm, Hrec. cbn [String.eqb Ascii.eqb Bool.eqb].
  destruct (stopRecording_effect r s Hr) as (Hj & Hh & Hl).
  unfold session_vars. rewrite Hj, Hh, Hl.
  rewrite downloads_app, timer_ticks_app, app_nil_r.
  cbn [recording currentMode mediaRecorder recordedChunks js
         set_recording].
  rewrite <- Hm, <- Hr. split; [reflexivity|]. cbn. lia.
Qed.

(** The recorder has stopped: [saveVideo] runs. *)
Lemma stopped_event (r : nat) (s : Sys) :
  nth_error (recorders s) r = Some session_recorder ->
  log (handle Math_hypot (recorder_stopped r) s) =
    log s ++
    [download (video_name (Date_now s))
       (new_Blob (recordedChunks s) "video/webm");
     recordTimer_text Zeros] /\
  recording (handle Math_hypot (recorder_stopped r) s) = recording s.
Proof.
  intros Hr. cbn [handle]. rewrite Hr. cbn. rewrite <- app_assoc.
  split; reflexivity.
Qed.


(** ** Recorder errors *)

Lemma recorders_initCamera (s : Sys) :
  recorders (initCamera s) = recorders s.
Proof. apply initCamera_effect. Qed.

Lemma recorders_drawFrame (s : Sys) :
  recorders (drawFrame s) = recorders s.
Proof.
  unfold drawFrame. destruct (readyState s <? 2)%Z; [reflexivity|].
  destruct (strict_eq (currentFilter _) "film"); reflexivity.
Qed.

Lemma recorders_renderLoop (now : float) (s : Sys) :
  recorders (renderLoop now s) = recorders s.
Proof.
  unfold renderLoop.
  change (recorders (snd (requestAnimationFrame renderLoop_cb ?x)))
    with (recorders x).
  destruct (ge _ _); [|reflexivity]. rewrite recorders_drawFrame.
  reflexivity.
Qed.

Lemma recorders_updateRecordTimer (s : Sys) :
  recorders (updateRecordTimer s) = recorders s.
Proof. unfold updateRecordTimer. destruct (recording s); reflexivity. Qed.

(** Only the capture button creates or changes a recorder. *)
Lemma recorders_frame (e : Event) (s : Sys) :
  e <> captureBtn_click ->
  recorders (handle Math_hypot e s) = recorders s.
Proof.
  destruct e; intros He; try (exfalso; apply He; reflexivity);
    cbn [handle]; try reflexivity.
  - destruct (pending_frame id s) as [[|]|]; [| | reflexivity].
    + rewrite recorders_renderLoop. reflexivity.
    + rewrite recorders_updateRecordTimer. reflexivity.
  - unfold on_touchstart.
    destruct touches as [|t0 [|t1 [|t2 l]]]; reflexivity.
  - unfold on_touchmove.
    destruct touches as [|t0 [|t1 [|t2 l]]]; try reflexivity;
      destruct (pinchStartDistance s) as [start|]; try reflexivity.
    destruct (truthy start); reflexivity.
  - unfold on_switchCameraBtn_click. rewrite recorders_initCamera.
    reflexivity.
  - unfold on_fpsSelect_change. rewrite recorders_initCamera.
    reflexivity.
  - destruct (nth_error (recorders s) r) as [m|]; [|reflexivity].
    destruct (ondataavailable m) as [[|]|]; reflexivity.
  - destruct (nth_error (recorders s) r) as [m|]; [|reflexivity].
    destruct (onstop m) as [[|]|]; reflexivity.
  - destruct (nth_error (recorders s) r) as [m|]; [|reflexivity].
    destruct (onerror m) as [[|]|]; reflexivity.
  - destruct (mem_nat req (gum_pending s)); reflexivity.
  - destruct (mem_nat req (play_pending s)); reflexivity.
Qed.

Lemma Event_eq_capture (e : Event) :
  e = captureBtn_click \/ e <> captureBtn_click.
Proof. destruct e; try (right; discriminate). left. reflexivity. Qed.

Lemma handle_no_onerror (e : Event) (s : Sys) :
  no_onerror s -> no_onerror (handle Math_hypot e s).
Proof.
  unfold no_onerror. intros H.
  destruct (Event_eq_capture e) as [He | He].
  - subst e. cbn [handle]. unfold on_captureBtn_click.
    destruct (String.eqb (currentMode s) "photo"); [exact H|].
    destruct (recording s) eqn:Hrec.
    + destruct (mediaRecorder s) as [r|] eqn:Hr.
      * destruct (stopRecording_effect r s Hr) as (_ & Hh & _).
        rewrite Hh. exact H.
      * unfold stopRecording.
        match goal with
        | |- context [match ?x with _ => _ end] =>
            change x with (mediaRecorder s)
        end.
        rewrite Hr. exact H.
    + unfold startRecording, new_MediaRecorder, updateRecordTimer.
      cbn. unfold set_onstop, set_ondataavailable. cbn.
      rewrite !update_nth_last. apply Forall_app. split; [exact H|].
      repeat constructor.
  - rewrite recorders_frame by exact He. exact H.
Qed.

Lemma run_no_onerror (es : list Event) (s : Sys) :
  no_onerror s -> no_onerror (run Math_hypot es s).
Proof.
  revert s. induction es as [|e es IH]; intros s H; [exact H|].
  cbn [run fold_left]. apply IH, handle_no_onerror, H.
Qed.

(** C8, as the script behaves: the script installs no [onerror]
    handler on its recorders, so in every state reached from the load
    of the page a recorder error changes nothing: the recording flag,
    the accumulated chunks, the timer and the files are as they were.
    The recording ends only at the next press of the capture button,
    and the chunks are dropped only when the next recording starts
    (C7). *)
Theorem recorder_error_ignored (w : World) (es : list Event) (r : nat) :
  recorders w = [] ->
  handle Math_hypot (recorder_error r) (run Math_hypot es (boot w)) =
  run Math_hypot es (boot w).
Proof.
  intros Hw.
  assert (H : no_onerror (run Math_hypot es (boot w))).
  { apply run_no_onerror. unfold no_onerror, boot.
    rewrite recorders_initCamera. cbn. rewrite Hw. constructor. }
  cbn [handle].
  destruct (nth_error (recorders (run Math_hypot es (boot w))) r)
    as [m|] eqn:Hm; [|reflexivity].
  unfold no_onerror in H. rewrite Forall_forall in H.
  rewrite (H m (nth_error_In _ _ Hm)). reflexivity.
Qed.

End Handlers.


(** C8, as stated, fails: a recorder error during a recording leaves
    the script recording and the chunk in the buffer, and when the
    recorder then stops the chunk is saved to a file. *)
Lemma recorder_error_keeps_recording :
  let s :=
    run hypot_sqrt
      [modeVideo_click; captureBtn_click; recorder_dataavailable 0 chunk1;
       recorder_error 0] (boot ready_world) in
  recording s = true /\ recordedChunks s = [chunk1] /\
  downloads (log (handle hypot_sqrt (recorder_stopped 0) s)) =
    [(video_name 0, new_Blob [chunk1] "video/webm")].
Proof. repeat split; reflexivity. Qed.

Lemma recorder_error_ignored_run :
  let s :=
    run hypot_sqrt
      [modeVideo_click; captureBtn_click; recorder_dataavailable 0 chunk1]
      (boot ready_world) in
  handle hypot_sqrt (recorder_error 0) s = s /\
  recording s = true /\ recordedChunks s = [chunk1].
Proof.
  intros s. split; [|split; reflexivity].
  exact (recorder_error_ignored hypot_sqrt ready_world _ 0 eq_refl).
Defined.

End RecordingFacts.

(** ** How each function of the script changes the state *)

Module StepFacts.

Import JS Cam Obs NumberFacts StateFacts.
Open Scope string_scope.
Open Scope list_scope.
Open Scope float_scope.

Lemma emit_eq (e : Effect) (s : Sys) : emit e s = set_log (log s ++ [e]) s.
Proof. reflexivity. Qed.

Lemma set_log_assoc (s : Sys) (l : list Effect) (a : Effect) :
  set_log (log (set_log l s) ++ [a]) (set_log l s) = set_log (l ++ [a]) s.
Proof. reflexivity. Qed.

Lemma drawFrame_eq (s : Sys) :
  drawFrame s = set_log (log s ++ frame_effects s) s.
Proof.
  unfold drawFrame, frame_effects.
  destruct (readyState s <? 2)%Z.
  - rewrite app_nil_r. reflexivity.
  - match goal with
    | |- context [strict_eq ?a "film"] => change a with (currentFilter s)
    end.
    set (a := ctx_filter (buildFilterString s)).
    set (b := ctx_drawImage _ _ _ _ _ _ _ _).
    set (g := ctx_grain _ _).
    destruct (strict_eq (currentFilter s) "film").
    + transitivity
        (set_log (((((log s ++ [ctx_save]) ++ [a]) ++ [b]) ++ [g]) ++ [ctx_restore]) s);
        [reflexivity|].
      rewrite <- !app_assoc. reflexivity.
    + transitivity
        (set_log ((((log s ++ [ctx_save]) ++ [a]) ++ [b]) ++ [ctx_restore]) s);
        [reflexivity|].
      rewrite <- !app_assoc. reflexivity.
Qed.

Lemma renderLoop_eq (now : float) (s : Sys) :
  renderLoop now s =
  set_raf_next (S (raf_next s))
    (set_raf_pending (raf_pending s ++ [(raf_next s, renderLoop_cb)])
       (if ge (now - lastFrameTime s) (1000 / targetFPS s) then
          set_log (log s ++ frame_effects s)
            (set_lastFrameTime
               (now - rem (now - lastFrameTime s) (1000 / targetFPS s)) s)
        else s)).
Proof.
  unfold renderLoop.
  destruct (ge _ _); [|reflexivity].
  rewrite drawFrame_eq. reflexivity.
Qed.

Lemma stop_tracks_eq (st : MediaStream) (s : Sys) :
  exists lv,
    stop_tracks st s =
    set_log (log s ++ map track_stop (getTracks st)) (set_live lv s).
Proof.
  unfold stop_tracks. generalize (getTracks st) as l. intros l.
  revert s. induction l as [|t l IH]; intros s.
  - exists (live s). cbn. rewrite app_nil_r. reflexivity.
  - cbn [fold_left map]. destruct (IH (stop_track t s)) as [lv ->].
    exists lv. unfold stop_track, emit. cbn.
    rewrite <- app_assoc. reflexivity.
Qed.

Lemma initCamera_eq (s : Sys) :
  exists lv,
    initCamera s =
    set_log
      (log s ++ map track_stop (current_tracks s) ++
       [getUserMedia (gum_next s) (constraints_of s)])
      (set_gum_next (S (gum_next s))
         (set_gum_pending (gum_pending s ++ [gum_next s]) (set_live lv s))).
Proof.
  unfold initCamera, current_tracks, constraints_of.
  destruct (stream s) as [st|] eqn:Hst.
  - destruct (stop_tracks_eq st s) as [lv ->]. exists lv.
    unfold navigator_getUserMedia, emit. cbn. rewrite <- app_assoc.
    reflexivity.
  - exists (live s). reflexivity.
Qed.

(** Case analysis on everything a handler tests. *)
Ltac step_cases :=
  unfold on_touchstart, on_touchmove, on_touchend, on_zoomSlider_input,
    on_exposureSlider_input, on_filterChip_click, on_modePhoto_click,
    on_modeVideo_click, on_captureBtn_click, on_switchCameraBtn_click,
    on_fpsSelect_change, on_maxZoomSelect_change, call_handler,
    initCamera_acquired, initCamera_playing, capturePhoto, startRecording,
    stopRecording, updateRecordTimer, saveVideo;
  repeat first
    [ reflexivity
    | rewrite renderLoop_eq
    | progress unfold cancelAnimationFrame
    | match goal with
      | |- context [initCamera ?s] => destruct (initCamera_eq s) as [? ->]
      | |- context [if ?c then _ else _] => destruct c eqn:?
      | |- context [match ?x with _ => _ end] =>
          lazymatch type of x with
          | prod _ _ => fail
          | _ => destruct x eqn:?
          end
      end ].

End StepFacts.

(** ** The pinch gesture *)

Module PinchFacts.

Import JS Cam Obs NumberFacts StateFacts StepFacts.
Open Scope string_scope.
Open Scope list_scope.
Open Scope float_scope.

Section Handlers.

Variable Math_hypot : float -> float -> float.

Lemma pinch_vars_frame (e : Event) (s : Sys) :
  during_pinch e -> pinch_vars (handle Math_hypot e s) = pinch_vars s.
Proof.
  destruct e; intros He; cbn [handle]; try contradiction; try reflexivity;
    try (step_cases; fail).
  unfold on_touchstart. destruct touches as [|t0 [|t1 [|t2 l]]];
    try reflexivity. contradiction.
Qed.

Lemma pinch_vars_run (es : list Event) (s : Sys) :
  Forall during_pinch es ->
  pinch_vars (run Math_hypot es s) = pinch_vars s.
Proof.
  revert s. induction es as [|e es IH]; intros s He; [reflexivity|].
  inversion He as [|e' es' H1 H2]; subst.
  cbn [run fold_left]. fold (run Math_hypot es (handle Math_hypot e s)).
  rewrite IH by exact H2. apply pinch_vars_frame. exact H1.
Qed.

Lemma run_app (es es' : list Event) (s : Sys) :
  run Math_hypot (es ++ es') s = run Math_hypot es' (run Math_hypot es s).
Proof. unfold run. apply fold_left_app. Qed.

(** X1.  Pinch to zoom.  After a two-finger [touchstart] at a distance that
    is a number other than [0], a two-finger [touchmove] sets the zoom
    to the zoom at the start of the gesture times the ratio of the
    current distance to the start distance, clamped to [1, maxZoom],
    and shows it on the slider.  What happened in between (earlier
    moves of the gesture, frames, slider input, ...) does not matter:
    the moves of one gesture do not compound. *)
Theorem pinch_zoom (a0 a1 b0 b1 : Touch) (es : list Event) (s : Sys) :
  truthy (getPinchDistance Math_hypot a0 a1) = true ->
  Forall during_pinch es ->
  let s' :=
    run Math_hypot (touchstart [a0; a1] :: es ++ [touchmove [b0; b1]]) s in
  zoom s' =
    clamp (maxZoom s)
      (zoom s *
       (getPinchDistance Math_hypot b0 b1 / getPinchDistance Math_hypot a0 a1)) /\
  zoomSlider_value s' = zoom s'.
Proof.
  intros Hd Hes s'. subst s'.
  cbn [run fold_left].
  fold (run Math_hypot (es ++ [touchmove [b0; b1]])
          (handle Math_hypot (touchstart [a0; a1]) s)).
  rewrite run_app.
  set (s1 := handle Math_hypot (touchstart [a0; a1]) s).
  pose proof (pinch_vars_run es s1 Hes) as Hv.
  set (s2 := run Math_hypot es s1) in *.
  unfold pinch_vars in Hv. injection Hv as H1 H2 H3.
  change (pinchStartDistance s1) with (Some (getPinchDistance Math_hypot a0 a1)) in H1.
  change (pinchStartZoom s1) with (zoom s) in H2.
  change (maxZoom s1) with (maxZoom s) in H3.
  cbn [run fold_left handle]. unfold on_touchmove.
  rewrite H1, Hd. unfold setZoom, clamp. rewrite H2.
  split; [|reflexivity].
  cbn. rewrite H3. reflexivity.
Qed.

Lemma unarmed_step (e : Event) (s : Sys) :
  pinch_armed s = false -> no_zoom_control e ->
  pinch_armed (handle Math_hypot e s) = false /\
  zoom (handle Math_hypot e s) = zoom s /\
  zoomSlider_value (handle Math_hypot e s) = zoomSlider_value s.
Proof.
  intros Ha He.
  destruct e; cbn [handle]; try contradiction;
    try (repeat split; first [exact Ha | reflexivity]).
  - (* animation_frame *)
    destruct (pending_frame id s) as [[|]|];
      [| |repeat split; first [exact Ha | reflexivity]].
    + rewrite renderLoop_eq. unfold cancelAnimationFrame.
      destruct (ge _ _); repeat split; first [exact Ha | reflexivity].
    + unfold updateRecordTimer, cancelAnimationFrame.
      destruct (negb _); repeat split; first [exact Ha | reflexivity].
  - (* touchstart *)
    unfold on_touchstart. destruct touches as [|t0 [|t1 [|t2 l]]];
      try (repeat split; first [exact Ha | reflexivity]).
    contradiction.
  - (* touchmove *)
    unfold on_touchmove. unfold pinch_armed in Ha.
    destruct touches as [|t0 [|t1 [|t2 l]]];
      try (repeat split; first [exact Ha | reflexivity]).
    destruct (pinchStartDistance s) as [d|] eqn:Hd.
    + rewrite Ha. unfold pinch_armed. rewrite Hd.
      repeat split; first [exact Ha | reflexivity].
    + unfold pinch_armed. rewrite Hd.
      repeat split; reflexivity.
  - (* captureBtn_click *)
    unfold on_captureBtn_click.
    destruct (String.eqb _ _);
      [repeat split; first [exact Ha | reflexivity]|].
    destruct (recording s).
    + unfold stopRecording.
      match goal with
      | |- context [match ?x with _ => _ end] => destruct x
      end; [|repeat split; first [exact Ha | reflexivity]].
      unfold cancelAnimationFrame.
      match goal with
      | |- context [match ?x with _ => _ end] => destruct x
      end; repeat split; first [exact Ha | reflexivity].
    + repeat split; first [exact Ha | reflexivity].
  - unfold on_switchCameraBtn_click.
    match goal with
    | |- context [initCamera ?x] => destruct (initCamera_eq x) as [lv ->]
    end.
    repeat split; first [exact Ha | reflexivity].
  - unfold on_fpsSelect_change.
    match goal with
    | |- context [initCamera ?x] => destruct (initCamera_eq x) as [lv ->]
    end.
    repeat split; first [exact Ha | reflexivity].
  - destruct (nth_error (recorders s) r) as [m|];
      [|repeat split; first [exact Ha | reflexivity]].
    destruct (ondataavailable m) as [[|]|];
      repeat split; first [exact Ha | reflexivity].
  - destruct (nth_error (recorders s) r) as [m|];
      [|repeat split; first [exact Ha | reflexivity]].
    destruct (onstop m) as [[|]|];
      repeat split; first [exact Ha | reflexivity].
  - destruct (nth_error (recorders s) r) as [m|];
      [|repeat split; first [exact Ha | reflexivity]].
    destruct (onerror m) as [[|]|];
      repeat split; first [exact Ha | reflexivity].
  - destruct (mem_nat req (gum_pending s));
      repeat split; first [exact Ha | reflexivity].
  - destruct (mem_nat req (play_pending s));
      repeat split; first [exact Ha | reflexivity].
Qed.

(** The states with no pinch in progress: the state at load, the state
    after a [touchend], and the state after a two-finger [touchstart]
    with the fingers on one point. *)
Lemma pinch_disarmed :
  (forall w, pinch_armed (boot w) = false) /\
  (forall s, pinch_armed (handle Math_hypot touchend s) = false) /\
  (forall a0 a1 s,
      truthy (getPinchDistance Math_hypot a0 a1) = false ->
      pinch_armed (handle Math_hypot (touchstart [a0; a1]) s) = false).
Proof.
  split; [|split].
  - intros w. unfold boot.
    destruct (initCamera_eq (initial w)) as [lv ->]. reflexivity.
  - reflexivity.
  - intros a0 a1 s H. exact H.
Qed.

(** X2.  While no pinch is in progress ([pinchStartDistance] is [null], [0]
    or [NaN]) a [touchmove] does nothing, whatever the number of
    touch points: the zoom and the slider change only through a zoom
    control.  In particular a gesture that starts with both fingers on
    one point never divides by its zero start distance. *)
Theorem touchmove_needs_pinch (es : list Event) (s : Sys) :
  pinch_armed s = false ->
  Forall no_zoom_control es ->
  zoom (run Math_hypot es s) = zoom s /\
  zoomSlider_value (run Math_hypot es s) = zoomSlider_value s /\
  pinch_armed (run Math_hypot es s) = false.
Proof.
  revert s. induction es as [|e es IH]; intros s Ha He.
  - repeat split. exact Ha.
  - inversion He as [|e' es' H1 H2]; subst.
    cbn [run fold_left]. fold (run Math_hypot es (handle Math_hypot e s)).
    destruct (unarmed_step e s Ha H1) as (Ha' & Hz & Hv).
    destruct (IH _ Ha' H2) as (Iz & Iv & Ia).
    rewrite Iz, Iv, Hz, Hv. repeat split. exact Ia.
Qed.

End Handlers.

(** X1, run: from zoom 2, fingers moving from 100 to 150 pixels apart
    give zoom 3; a further move to 400 pixels
    apart gives the maximum, 5, not 2 * 1.5 * 4. *)
Lemma pinch_zoom_run :
  let s := handle hypot_sqrt (zoomSlider_input 2) (boot ready_world) in
  let a0 := mkTouch 100 200 in
  let a1 := mkTouch 100 300 in
  truthy (getPinchDistance hypot_sqrt a0 a1) = true /\
  zoom (run hypot_sqrt
          [touchstart [a0; a1]; touchmove [mkTouch 100 175; mkTouch 100 325]] s)
    = 3 /\
  zoom (run hypot_sqrt
          [touchstart [a0; a1]; touchmove [mkTouch 100 175; mkTouch 100 325];
           touchmove [mkTouch 100 50; mkTouch 100 450]] s)
    = 5.
Proof.
  cbv zeta.
  split; [reflexivity|].
  split.
  - pose proof (pinch_zoom hypot_sqrt (mkTouch 100 200) (mkTouch 100 300)
                  (mkTouch 100 175) (mkTouch 100 325) []
                  (handle hypot_sqrt (zoomSlider_input 2) (boot ready_world))
                  eq_refl (Forall_nil _)) as [H _].
    cbv zeta in H. cbn [app] in H. rewrite H. reflexivity.
  - pose proof (pinch_zoom hypot_sqrt (mkTouch 100 200) (mkTouch 100 300)
                  (mkTouch 100 50) (mkTouch 100 450)
                  [touchmove [mkTouch 100 175; mkTouch 100 325]]
                  (handle hypot_sqrt (zoomSlider_input 2) (boot ready_world))
                  eq_refl
                  ltac:(repeat constructor)) as [H _].
    cbv zeta in H. cbn [app] in H. rewrite H. reflexivity.
Defined.

(** X2, run: moves after the fingers were lifted, and moves of a gesture that
    began with both fingers on one point, leave the zoom at 2. *)
Lemma touchmove_needs_pinch_run :
  let s := handle hypot_sqrt (zoomSlider_input 2) (boot ready_world) in
  let far := [mkTouch 100 50; mkTouch 100 450] in
  let s1 := run hypot_sqrt [touchstart [mkTouch 100 200; mkTouch 100 300]; touchend] s in
  let s2 := handle hypot_sqrt (touchstart [mkTouch 7 7; mkTouch 7 7]) s in
  (pinch_armed s1 = false /\ pinch_armed s2 = false) /\
  zoom (run hypot_sqrt [touchmove far; touchmove [mkTouch 1 1]] s1) = 2 /\
  zoom (run hypot_sqrt [touchmove far; animation_frame 1 16; touchmove far] s2) = 2.
Proof.
  intros s far s1 s2. split; [split; reflexivity|]. split.
  - rewrite (proj1 (touchmove_needs_pinch hypot_sqrt
               [touchmove far; touchmove [mkTouch 1 1]] s1
               eq_refl ltac:(repeat constructor))).
    reflexivity.
  - rewrite (proj1 (touchmove_needs_pinch hypot_sqrt
               [touchmove far; animation_frame 1 16; touchmove far] s2
               eq_refl ltac:(repeat constructor))).
    reflexivity.
Defined.

End PinchFacts.

(** ** What each event adds to the log *)

Module LogFacts.

Import JS Cam Obs NumberFacts StateFacts StepFacts.
Open Scope string_scope.
Open Scope list_scope.
Open Scope float_scope.

Lemma outside_frame_stops (l : list Track) :
  Forall outside_frame (map track_stop l).
Proof. induction l as [|t l IH]; constructor; [exact I | exact IH]. Qed.

Ltac log_delta :=
  first
    [ exists []; split; [rewrite app_nil_r; reflexivity | right; constructor]
    | eexists; split;
      [ cbn; rewrite <- ?app_assoc; reflexivity
      | right; repeat constructor ] ].

Section Handlers.

Variable Math_hypot : float -> float -> float.

(** Every event appends to the log; what it appends is a frame exactly
    when it is an accepted tick of a render loop. *)
Lemma handle_log (e : Event) (s : Sys) :
  exists l,
    log (handle Math_hypot e s) = log s ++ l /\
    ((l = frame_effects s /\ accepted_frame e s) \/ Forall outside_frame l).
Proof.
  destruct e; cbn [handle]; try (log_delta; fail).
  - (* animation_frame *)
    destruct (pending_frame id s) as [[|]|] eqn:Hp; [| |log_delta].
    + rewrite renderLoop_eq.
      change (lastFrameTime (cancelAnimationFrame (Some id) s))
        with (lastFrameTime s).
      change (targetFPS (cancelAnimationFrame (Some id) s)) with (targetFPS s).
      destruct (ge (now - lastFrameTime s) (1000 / targetFPS s)) eqn:Hg;
        [|log_delta].
      exists (frame_effects s). split; [reflexivity|]. left.
      split; [reflexivity|]. exists id, now. auto.
    + unfold updateRecordTimer. destruct (negb _); log_delta.
  - unfold on_touchstart. destruct touches as [|t0 [|t1 [|t2 l]]]; log_delta.
  - unfold on_touchmove. destruct touches as [|t0 [|t1 [|t2 l]]]; try log_delta.
    destruct (pinchStartDistance s); [|log_delta].
    destruct (truthy _); log_delta.
  - (* captureBtn_click *)
    unfold on_captureBtn_click. destruct (String.eqb _ _); [log_delta|].
    destruct (recording s).
    + unfold stopRecording.
      match goal with
      | |- context [match ?x with _ => _ end] => destruct x
      end; [|log_delta].
      unfold cancelAnimationFrame.
      match goal with
      | |- context [match ?x with _ => _ end] => destruct x
      end; log_delta.
    + unfold startRecording, new_MediaRecorder, updateRecordTimer. log_delta.
  - unfold on_switchCameraBtn_click.
    match goal with
    | |- context [initCamera ?x] => destruct (initCamera_eq x) as [lv ->]
    end.
    eexists. split; [reflexivity|]. right.
    apply Forall_app. split; [apply outside_frame_stops | repeat constructor].
  - unfold on_fpsSelect_change.
    match goal with
    | |- context [initCamera ?x] => destruct (initCamera_eq x) as [lv ->]
    end.
    eexists. split; [reflexivity|]. right.
    apply Forall_app. split; [apply outside_frame_stops | repeat constructor].
  - destruct (nth_error (recorders s) r) as [m|]; [|log_delta].
    destruct (ondataavailable m) as [[|]|]; log_delta.
  - destruct (nth_error (recorders s) r) as [m|]; [|log_delta].
    destruct (onstop m) as [[|]|]; log_delta.
  - destruct (nth_error (recorders s) r) as [m|]; [|log_delta].
    destruct (onerror m) as [[|]|]; log_delta.
  - destruct (mem_nat req (gum_pending s)); log_delta.
  - destruct (mem_nat req (play_pending s)); log_delta.
Qed.

End Handlers.

End LogFacts.

(** ** The animation frame callbacks *)

Module LoopFacts.

Import JS Cam Obs NumberFacts StateFacts StepFacts.
Open Scope string_scope.
Open Scope list_scope.
Open Scope float_scope.

Lemma find_In_fst {B : Type} (id : nat) (l : list (nat * B)) (p : nat * B) :
  find (fun q => Nat.eqb (fst q) id) l = Some p -> In p l /\ fst p = id.
Proof.
  intros H. apply find_some in H. destruct H as [H1 H2].
  apply Nat.eqb_eq in H2. auto.
Qed.

Lemma NoDup_fst_inj {B : Type} (l : list (nat * B)) (p q : nat * B) :
  NoDup (map fst l) -> In p l -> In q l -> fst p = fst q -> p = q.
Proof.
  induction l as [|x l IH]; intros Hnd Hp Hq E; [contradiction|].
  cbn [map] in Hnd. inversion Hnd as [|? ? Hx Hl]; subst.
  destruct Hp as [Hp | Hp], Hq as [Hq | Hq]; subst.
  - reflexivity.
  - exfalso. apply Hx. rewrite E. apply in_map. exact Hq.
  - exfalso. apply Hx. rewrite <- E. apply in_map. exact Hp.
  - apply IH; assumption.
Qed.

Lemma filter_comm {A : Type} (f g : A -> bool) (l : list A) :
  filter f (filter g l) = filter g (filter f l).
Proof.
  induction l as [|x l IH]; [reflexivity|]. cbn [filter].
  destruct (g x) eqn:Eg, (f x) eqn:Ef; cbn [filter];
    rewrite ?Eg, ?Ef, IH; reflexivity.
Qed.

Lemma filter_all {A : Type} (f : A -> bool) (l : list A) :
  (forall x, In x l -> f x = true) -> filter f l = l.
Proof.
  induction l as [|x l IH]; intros H; [reflexivity|]. cbn [filter].
  rewrite (H x (or_introl eq_refl)). f_equal. apply IH.
  intros y Hy. apply H. right. exact Hy.
Qed.

(** Removing the one entry with handle [id] from a queue with distinct
    handles. *)
Lemma remove_count {B : Type} (P : nat * B -> bool) (id : nat)
    (l : list (nat * B)) (p : nat * B) :
  NoDup (map fst l) -> In p l -> fst p = id ->
  (List.length (filter P (filter (fun q => negb (Nat.eqb (fst q) id)) l)) +
   (if P p then 1 else 0))%nat = List.length (filter P l).
Proof.
  intros Hnd Hin Hid. subst id.
  induction l as [|x l IH]; [contradiction|].
  cbn [map] in Hnd. inversion Hnd as [|? ? Hx Hl]; subst.
  cbn [filter]. destruct Hin as [Hin | Hin].
  - subst x. rewrite Nat.eqb_refl. cbn [negb].
    rewrite (filter_all (fun q => negb (Nat.eqb (fst q) (fst p))) l).
    + destruct (P p); cbn [List.length]; lia.
    + intros y Hy. apply negb_true_iff, Nat.eqb_neq. intros E.
      apply Hx. rewrite <- E. apply in_map. exact Hy.
  - assert (Hne : Nat.eqb (fst x) (fst p) = false).
    { apply Nat.eqb_neq. intros E. apply Hx. rewrite E. apply in_map. exact Hin. }
    rewrite Hne. cbn [negb filter].
    specialize (IH Hl Hin).
    destruct (P x); cbn [List.length]; lia.
Qed.

Lemma raf_wf_cancel (id : nat) (s : Sys) :
  raf_wf s -> raf_wf (cancelAnimationFrame (Some id) s).
Proof.
  unfold raf_wf. intros [Hnd Hlt].
  change (raf_pending (cancelAnimationFrame (Some id) s))
    with (filter (fun p => negb (Nat.eqb (fst p) id)) (raf_pending s)).
  change (raf_next (cancelAnimationFrame (Some id) s)) with (raf_next s).
  split.
  - clear Hlt. induction (raf_pending s) as [|x l IH]; [constructor|].
    cbn [map] in Hnd. inversion Hnd as [|? ? Hx Hl]; subst.
    cbn [filter]. destruct (negb _); [|apply IH; exact Hl].
    cbn [map]. constructor; [|apply IH; exact Hl].
    intros Hin. apply Hx. apply in_map_iff in Hin.
    destruct Hin as (y & Hy & Hin). apply filter_In in Hin.
    rewrite <- Hy. apply in_map. apply Hin.
  - apply Forall_forall. intros p Hp. apply filter_In in Hp.
    rewrite Forall_forall in Hlt. apply Hlt. apply Hp.
Qed.

Lemma raf_wf_request (cb : FrameCallback) (s : Sys) :
  raf_wf s -> raf_wf (snd (requestAnimationFrame cb s)).
Proof.
  unfold raf_wf. intros [Hnd Hlt].
  change (raf_pending (snd (requestAnimationFrame cb s)))
    with (raf_pending s ++ [(raf_next s, cb)]).
  change (raf_next (snd (requestAnimationFrame cb s))) with (S (raf_next s)).
  rewrite Forall_forall in Hlt. split.
  - rewrite map_app. cbn [map fst].
    apply NoDup_app; [exact Hnd | repeat constructor; intros [] |].
    intros a Ha [Hb | []]. subst a. apply in_map_iff in Ha.
    destruct Ha as (p & Hp & Hin). specialize (Hlt p Hin). lia.
  - apply Forall_app. split.
    + apply Forall_forall. intros p Hp. specialize (Hlt p Hp). lia.
    + repeat constructor.
Qed.

Lemma raf_wf_ext (s s' : Sys) :
  raf_pending s' = raf_pending s -> raf_next s' = raf_next s ->
  raf_wf s -> raf_wf s'.
Proof. unfold raf_wf. intros -> ->. auto. Qed.

Lemma timer_state_recording (s : Sys) (t : nat) :
  recording s = true -> recordTimerRAF s = Some t ->
  timer_callbacks s = [(t, updateRecordTimer_cb)] -> timer_state s.
Proof. unfold timer_state. intros -> H1 H2. exists t. auto. Qed.

Lemma timer_state_idle (s : Sys) :
  recording s = false -> timer_callbacks s = [] -> timer_state s.
Proof. unfold timer_state. intros -> H. exact H. Qed.

Lemma timer_state_inv (s : Sys) :
  timer_state s ->
  (recording s = true ->
   exists t, recordTimerRAF s = Some t /\
             timer_callbacks s = [(t, updateRecordTimer_cb)]) /\
  (recording s = false -> timer_callbacks s = []).
Proof.
  unfold timer_state. destruct (recording s); intros H; split; intros E;
    try discriminate; exact H.
Qed.

Lemma loop_vars_inv (s s' : Sys) :
  loop_vars s' = loop_vars s ->
  raf_pending s' = raf_pending s /\ raf_next s' = raf_next s /\
  recording s' = recording s /\ mediaRecorder s' = mediaRecorder s /\
  recordTimerRAF s' = recordTimerRAF s.
Proof.
  unfold loop_vars. intros H. injection H as H1 H2 H3 H4 H5.
  repeat split; assumption.
Qed.

Lemma loop_invariant_ext (s s' : Sys) :
  loop_vars s' = loop_vars s -> loop_invariant s ->
  loop_invariant s' /\ render_loops s' = render_loops s.
Proof.
  intros H (Hwf & Hrec & Ht).
  apply loop_vars_inv in H. destruct H as (H1 & H2 & H3 & H4 & H5).
  split; [|unfold render_loops; rewrite H1; reflexivity].
  split; [apply (raf_wf_ext s); assumption|].
  split; [rewrite H3, H4; exact Hrec|].
  unfold timer_state, timer_callbacks in *. rewrite H1, H3, H5. exact Ht.
Qed.

(** Queuing a render loop callback. *)
Lemma loop_add_renderLoop (s x : Sys) :
  loop_vars x = loop_vars s -> loop_invariant s ->
  loop_invariant (snd (requestAnimationFrame renderLoop_cb x)) /\
  render_loops (snd (requestAnimationFrame renderLoop_cb x)) =
  (render_loops s + 1)%nat.
Proof.
  intros Hv Hinv.
  destruct (loop_invariant_ext s x Hv Hinv) as [(Hwf & Hrec & Ht) Hn].
  split; [split; [|split]|].
  - apply raf_wf_request. exact Hwf.
  - exact Hrec.
  - unfold timer_state, timer_callbacks in *.
    change (raf_pending (snd (requestAnimationFrame renderLoop_cb x)))
      with (raf_pending x ++ [(raf_next x, renderLoop_cb)]).
    change (recording (snd (requestAnimationFrame renderLoop_cb x)))
      with (recording x).
    change (recordTimerRAF (snd (requestAnimationFrame renderLoop_cb x)))
      with (recordTimerRAF x).
    rewrite filter_app. cbn [filter is_timer snd]. rewrite app_nil_r. exact Ht.
  - rewrite <- Hn. unfold render_loops.
    change (raf_pending (snd (requestAnimationFrame renderLoop_cb x)))
      with (raf_pending x ++ [(raf_next x, renderLoop_cb)]).
    rewrite filter_app, length_app. reflexivity.
Qed.

(** Queuing the timer callback while recording. *)
Lemma loop_add_timer (x : Sys) :
  raf_wf x -> recording x = true -> mediaRecorder x <> None ->
  timer_callbacks x = [] ->
  let s' :=
    set_recordTimerRAF (Some (raf_next x))
      (snd (requestAnimationFrame updateRecordTimer_cb x)) in
  loop_invariant s' /\ render_loops s' = render_loops x.
Proof.
  intros Hwf Hrec Hm Ht s'.
  split; [split; [|split]|].
  - apply (raf_wf_ext (snd (requestAnimationFrame updateRecordTimer_cb x)));
      [reflexivity | reflexivity |].
    apply raf_wf_request. exact Hwf.
  - intros _. exact Hm.
  - apply (timer_state_recording s' (raf_next x)); [exact Hrec | reflexivity |].
    unfold timer_callbacks in *.
    change (raf_pending s') with (raf_pending x ++ [(raf_next x, updateRecordTimer_cb)]).
    rewrite filter_app, Ht. reflexivity.
  - unfold render_loops.
    change (raf_pending s') with (raf_pending x ++ [(raf_next x, updateRecordTimer_cb)]).
    rewrite filter_app, length_app. cbn. lia.
Qed.

(** Cancelling, or running, the callback with handle [id]. *)
Lemma loop_cancel (id : nat) (p : nat * FrameCallback) (s : Sys) :
  raf_wf s -> In p (raf_pending s) -> fst p = id ->
  let s1 := cancelAnimationFrame (Some id) s in
  raf_wf s1 /\
  (render_loops s1 + (if is_renderLoop p then 1 else 0))%nat = render_loops s /\
  timer_callbacks s1 =
  filter (fun q => negb (Nat.eqb (fst q) id)) (timer_callbacks s).
Proof.
  intros Hwf Hin Hid s1. split; [apply raf_wf_cancel; exact Hwf|]. split.
  - unfold render_loops.
    change (raf_pending s1)
      with (filter (fun q => negb (Nat.eqb (fst q) id)) (raf_pending s)).
    apply remove_count; [apply Hwf | exact Hin | exact Hid].
  - unfold timer_callbacks.
    change (raf_pending s1)
      with (filter (fun q => negb (Nat.eqb (fst q) id)) (raf_pending s)).
    apply filter_comm.
Qed.

Lemma timer_entry (s : Sys) (p : nat * FrameCallback) :
  loop_invariant s -> In p (raf_pending s) -> snd p = updateRecordTimer_cb ->
  recording s = true /\ recordTimerRAF s = Some (fst p) /\
  timer_callbacks s = [p].
Proof.
  intros (Hwf & Hrec & Ht) Hin Hp.
  assert (Hint : In p (timer_callbacks s)).
  { unfold timer_callbacks. apply filter_In. split; [exact Hin|].
    unfold is_timer. rewrite Hp. reflexivity. }
  apply timer_state_inv in Ht. destruct Ht as [Ht1 Ht0].
  destruct (recording s) eqn:Hr.
  - destruct (Ht1 eq_refl) as (t & Hrt & Htc).
    rewrite Htc in Hint. destruct Hint as [E | []]. subst p.
    cbn [fst]. auto.
  - rewrite (Ht0 eq_refl) in Hint. contradiction.
Qed.

Lemma render_entry (s : Sys) (p : nat * FrameCallback) :
  loop_invariant s -> In p (raf_pending s) -> snd p = renderLoop_cb ->
  filter (fun q => negb (Nat.eqb (fst q) (fst p))) (timer_callbacks s) =
  timer_callbacks s.
Proof.
  intros (Hwf & Hrec & Ht) Hin Hp.
  apply filter_all. intros q Hq.
  apply negb_true_iff, Nat.eqb_neq. intros E.
  unfold timer_callbacks in Hq. apply filter_In in Hq. destruct Hq as [Hq1 Hq2].
  assert (q = p) by (apply (NoDup_fst_inj (raf_pending s)); [apply Hwf | | |]; assumption).
  subst q. unfold is_timer in Hq2. rewrite Hp in Hq2. discriminate.
Qed.

Section Handlers.

Variable Math_hypot : float -> float -> float.

(** The events that neither queue nor cancel a callback. *)
Lemma loop_vars_frame (e : Event) (s : Sys) :
  match e with
  | animation_frame _ _ | captureBtn_click | play_fulfilled _ => False
  | _ => True
  end ->
  loop_vars (handle Math_hypot e s) = loop_vars s.
Proof.
  destruct e; intros He; cbn [handle]; try contradiction; try reflexivity;
    step_cases.
Qed.

Lemma loop_frame_render (id : nat) (now : float) (p : nat * FrameCallback)
    (s : Sys) :
  loop_invariant s -> In p (raf_pending s) -> fst p = id ->
  snd p = renderLoop_cb ->
  let s' := renderLoop now (cancelAnimationFrame (Some id) s) in
  loop_invariant s' /\ render_loops s' = render_loops s.
Proof.
  intros Hinv Hin Hid Hp s'.
  pose proof (render_entry s p Hinv Hin Hp) as Hkeep. rewrite Hid in Hkeep.
  destruct Hinv as (Hwf & Hrec & Ht).
  destruct (loop_cancel id p s Hwf Hin Hid) as (Hwf1 & Hn1 & Ht1).
  cbv zeta in Hwf1, Hn1, Ht1.
  set (s1 := cancelAnimationFrame (Some id) s) in *.
  unfold is_renderLoop in Hn1. rewrite Hp in Hn1. rewrite Hkeep in Ht1.
  assert (Hinv1 : loop_invariant s1).
  { split; [exact Hwf1|]. split; [exact Hrec|].
    unfold timer_state in *. rewrite Ht1. exact Ht. }
  subst s'. rewrite renderLoop_eq.
  destruct (ge _ _);
    match goal with
    | |- context [set_raf_pending _ ?x] =>
        destruct (loop_add_renderLoop s1 x) as [H1 H2];
          [reflexivity | exact Hinv1 |]
    end;
    (split; [exact H1|]);
    match type of H2 with
    | render_loops ?a = _ =>
        match goal with |- render_loops ?b = _ => change b with a end
    end;
    rewrite H2; lia.
Qed.

Lemma loop_frame_timer (id : nat) (p : nat * FrameCallback) (s : Sys) :
  loop_invariant s -> In p (raf_pending s) -> fst p = id ->
  snd p = updateRecordTimer_cb ->
  let s' := updateRecordTimer (cancelAnimationFrame (Some id) s) in
  loop_invariant s' /\ render_loops s' = render_loops s.
Proof.
  intros Hinv Hin Hid Hp s'.
  destruct (timer_entry s p Hinv Hin Hp) as (Hr & Hrt & Htc).
  destruct Hinv as (Hwf & Hrec & Ht).
  destruct (loop_cancel id p s Hwf Hin Hid) as (Hwf1 & Hn1 & Ht1).
  cbv zeta in Hwf1, Hn1, Ht1.
  set (s1 := cancelAnimationFrame (Some id) s) in *.
  unfold is_renderLoop in Hn1. rewrite Hp in Hn1.
  rewrite Htc in Ht1. cbn [filter] in Ht1. rewrite Hid, Nat.eqb_refl in Ht1.
  cbn [negb] in Ht1.
  subst s'. unfold updateRecordTimer.
  change (recording s1) with (recording s). rewrite Hr. cbn [negb].
  match goal with
  | |- context [requestAnimationFrame updateRecordTimer_cb ?x] =>
      destruct (loop_add_timer x) as [H1 H2];
        [exact Hwf1 | exact Hr | exact (Hrec Hr) | exact Ht1 |]
  end.
  split; [exact H1|]. refine (eq_trans H2 _).
  change (render_loops s1 = render_loops s). lia.
Qed.

Lemma loop_stopRecording (s : Sys) :
  loop_invariant s -> recording s = true ->
  loop_invariant (stopRecording s) /\
  render_loops (stopRecording s) = render_loops s.
Proof.
  intros (Hwf & Hrec & Ht) Hr.
  apply timer_state_inv in Ht. destruct Ht as [Ht _].
  destruct (Ht Hr) as (t & Hrt & Htc).
  assert (Hin : In (t, updateRecordTimer_cb) (raf_pending s)).
  { assert (H : In (t, updateRecordTimer_cb) (timer_callbacks s))
      by (rewrite Htc; left; reflexivity).
    unfold timer_callbacks in H. apply filter_In in H. apply H. }
  destruct (loop_cancel t _ s Hwf Hin eq_refl) as (Hwf1 & Hn1 & Ht1).
  cbv zeta in Hwf1, Hn1, Ht1.
  rewrite Htc in Ht1. cbn [filter fst] in Ht1. rewrite Nat.eqb_refl in Ht1.
  cbn [negb] in Ht1. unfold is_renderLoop in Hn1. cbn [snd] in Hn1.
  unfold stopRecording.
  destruct (mediaRecorder s) as [r|] eqn:Hm;
    [|exfalso; apply (Hrec Hr); reflexivity].
  match goal with
  | |- context [match ?x with _ => _ end] => change x with (mediaRecorder s)
  end.
  rewrite Hm.
  match goal with
  | |- context [cancelAnimationFrame ?x _] => change x with (recordTimerRAF s)
  end.
  rewrite Hrt.
  split; [split; [|split]|].
  - exact Hwf1.
  - intros H. discriminate H.
  - apply timer_state_idle; [reflexivity | exact Ht1].
  - change (render_loops (cancelAnimationFrame (Some t) s) = render_loops s).
    lia.
Qed.

Lemma loop_startRecording (s : Sys) :
  loop_invariant s -> recording s = false ->
  loop_invariant (startRecording s) /\
  render_loops (startRecording s) = render_loops s.
Proof.
  intros (Hwf & Hrec & Ht) Hr.
  apply timer_state_inv in Ht. destruct Ht as [_ Ht]. specialize (Ht Hr).
  unfold startRecording, new_MediaRecorder, updateRecordTimer. cbn [negb].
  match goal with
  | |- context [requestAnimationFrame updateRecordTimer_cb ?x] =>
      destruct (loop_add_timer x) as [H1 H2];
        [exact Hwf | reflexivity | discriminate | exact Ht |]
  end.
  split; [exact H1 | exact H2].
Qed.

(** One step: the queue stays well formed, the timer callback is queued
    exactly while recording, and the number of render loop callbacks
    grows by one when a [video.play()] is fulfilled, and not otherwise. *)
Lemma loop_step (e : Event) (s : Sys) :
  loop_invariant s ->
  loop_invariant (handle Math_hypot e s) /\
  render_loops (handle Math_hypot e s) = (render_loops s + starts_loop e s)%nat.
Proof.
  intros Hinv.
  assert (Hsame : forall s', loop_vars s' = loop_vars s ->
            loop_invariant s' /\ render_loops s' = (render_loops s + 0)%nat).
  { intros s' Hv. rewrite Nat.add_0_r. apply loop_invariant_ext; assumption. }
  destruct e; try (apply Hsame; apply loop_vars_frame; exact I).
  - (* animation_frame *)
    cbn [handle starts_loop]. rewrite Nat.add_0_r. unfold pending_frame.
    destruct (find _ (raf_pending s)) as [p|] eqn:Hf;
      [|apply loop_invariant_ext; [reflexivity | exact Hinv]].
    apply find_In_fst in Hf. destruct Hf as [Hin Hid].
    cbn [option_map]. destruct (snd p) eqn:Hp.
    + apply (loop_frame_render id now p); assumption.
    + apply (loop_frame_timer id p); assumption.
  - (* captureBtn_click *)
    cbn [handle starts_loop]. rewrite Nat.add_0_r. unfold on_captureBtn_click.
    destruct (String.eqb _ _);
      [apply loop_invariant_ext; [reflexivity | exact Hinv]|].
    destruct (recording s) eqn:Hr.
    + apply loop_stopRecording; assumption.
    + apply loop_startRecording; assumption.
  - (* play_fulfilled *)
    cbn [handle starts_loop].
    destruct (mem_nat req (play_pending s));
      [|apply Hsame; reflexivity].
    unfold initCamera_playing.
    apply loop_add_renderLoop; [reflexivity | exact Hinv].
Qed.

Lemma loop_run (es : list Event) (s : Sys) :
  loop_invariant s ->
  loop_invariant (run Math_hypot es s) /\
  render_loops (run Math_hypot es s) =
  (render_loops s + started_loops Math_hypot es s)%nat.
Proof.
  revert s. induction es as [|e es IH]; intros s Hinv.
  - cbn [run fold_left started_loops]. rewrite Nat.add_0_r.
    split; [exact Hinv | reflexivity].
  - cbn [run fold_left started_loops].
    fold (run Math_hypot es (handle Math_hypot e s)).
    destruct (loop_step e s Hinv) as [H1 H2].
    destruct (IH _ H1) as [I1 I2].
    split; [exact I1|]. rewrite I2, H2. lia.
Qed.

Lemma loop_boot (w : World) :
  raf_pending w = [] -> loop_invariant (boot w) /\ render_loops (boot w) = 0%nat.
Proof.
  intros Hw. unfold boot. destruct (initCamera_eq (initial w)) as [lv ->].
  match goal with |- loop_invariant ?x /\ _ => set (s0 := x) end.
  assert (Hp : raf_pending s0 = []) by exact Hw.
  unfold loop_invariant, raf_wf, render_loops. rewrite Hp.
  split; [|reflexivity]. split; [split; constructor|].
  split; [discriminate|].
  apply timer_state_idle; [reflexivity|].
  unfold timer_callbacks. rewrite Hp. reflexivity.
Qed.

(** X3.  The render loops.  [initCamera] queues [renderLoop] each time its
    [video.play()] is fulfilled, every [renderLoop] re-queues itself,
    and nothing ever cancels one: after any sequence of events from
    page load, the number of render loop callbacks in the queue is the
    number of camera starts that completed.  A camera switch or a
    frame-rate change on a running page therefore adds a second loop
    beside the first. *)
Theorem render_loops_accumulate (w : World) (es : list Event) :
  raf_pending w = [] ->
  render_loops (run Math_hypot es (boot w)) =
  started_loops Math_hypot es (boot w).
Proof.
  intros Hw. destruct (loop_boot w Hw) as [Hinv H0].
  destruct (loop_run es (boot w) Hinv) as [_ H]. rewrite H, H0. reflexivity.
Qed.

(** X4.  The recording timer.  After any sequence of events from page load
    the timer callback is in the queue exactly once while a recording
    is on, under the handle kept in [recordTimerRAF], and not at all
    while none is: stopping cancels it, and nothing queues a second
    one. *)
Theorem one_timer_callback (w : World) (es : list Event) :
  raf_pending w = [] ->
  let s := run Math_hypot es (boot w) in
  List.length (timer_callbacks s) = (if recording s then 1 else 0)%nat /\
  (forall p, In p (timer_callbacks s) -> recordTimerRAF s = Some (fst p)).
Proof.
  intros Hw s. destruct (loop_boot w Hw) as [Hinv _].
  destruct (loop_run es (boot w) Hinv) as [(_ & _ & Ht) _].
  fold s in Ht. apply timer_state_inv in Ht. destruct Ht as [H1 H0].
  destruct (recording s) eqn:Hr.
  - destruct (H1 eq_refl) as (t & Hrt & Htc). rewrite Htc. split; [reflexivity|].
    intros p [E | []]. subst p. exact Hrt.
  - rewrite (H0 eq_refl). split; [reflexivity|]. intros p [].
Qed.

End Handlers.

(** X3, run: the camera starts, a frame is drawn, the camera is switched and
    starts again: two render loop callbacks are queued. *)
Lemma render_loops_accumulate_run :
  let es :=
    [getUserMedia_fulfilled 0 1; play_fulfilled 0; animation_frame 1 20;
     switchCameraBtn_click; getUserMedia_fulfilled 1 1; play_fulfilled 1;
     animation_frame 2 40] in
  raf_pending ready_world = [] /\
  render_loops (run hypot_sqrt es (boot ready_world)) = 2%nat /\
  raf_pending (run hypot_sqrt es (boot ready_world)) =
    [(3, renderLoop_cb); (4, renderLoop_cb)]%nat.
Proof.
  intros es. split; [reflexivity|]. split; [|reflexivity].
  rewrite (render_loops_accumulate hypot_sqrt ready_world es eq_refl).
  reflexivity.
Defined.

(** X4, run: a recording over two timer ticks: one timer callback is queued
    while it is on, none once it is stopped. *)
Lemma one_timer_callback_run :
  let es :=
    [modeVideo_click; captureBtn_click; animation_frame 1 16;
     animation_frame 2 33] in
  raf_pending ready_world = [] /\
  List.length (timer_callbacks (run hypot_sqrt es (boot ready_world))) = 1%nat /\
  List.length
    (timer_callbacks
       (run hypot_sqrt (es ++ [captureBtn_click]) (boot ready_world))) = 0%nat.
Proof.
  intros es. split; [reflexivity|]. split.
  - rewrite (proj1 (one_timer_callback hypot_sqrt ready_world es eq_refl)).
    reflexivity.
  - rewrite (proj1 (one_timer_callback hypot_sqrt ready_world
                      (es ++ [captureBtn_click]) eq_refl)).
    reflexivity.
Defined.

End LoopFacts.

(** ** Frames *)

Module FrameFacts.

Import JS Cam Obs NumberFacts StateFacts StepFacts LogFacts LoopFacts.
Open Scope string_scope.
Open Scope list_scope.
Open Scope float_scope.

Lemma dests_app (l l' : list Effect) : dests (l ++ l') = dests l ++ dests l'.
Proof. unfold dests. apply flat_map_app. Qed.

Lemma outside_frame_draws (l : list Effect) :
  Forall outside_frame l -> draws l = 0%nat /\ dests l = [].
Proof.
  induction 1 as [|x l Hx Hl [IH1 IH2]]; [split; reflexivity|].
  unfold draws, dests in *. cbn [filter flat_map].
  destruct x; try contradiction; cbn; rewrite ?IH1, ?IH2; split; reflexivity.
Qed.

Lemma pending_render_loop (id : nat) (s : Sys) :
  pending_frame id s = Some renderLoop_cb -> (0 < render_loops s)%nat.
Proof.
  unfold pending_frame, render_loops. intros H.
  destruct (find _ (raf_pending s)) as [p|] eqn:Hf; [|discriminate].
  apply find_In_fst in Hf. destruct Hf as [Hin _].
  cbn [option_map] in H. injection H as Hp.
  assert (Hi : In p (filter is_renderLoop (raf_pending s))).
  { apply filter_In. split; [exact Hin|]. unfold is_renderLoop.
    rewrite Hp. reflexivity. }
  destruct (filter is_renderLoop (raf_pending s)); [contradiction|].
  cbn. lia.
Qed.

Lemma get_sign_zero (v : float) (s : bool) :
  Prim2SF v = S754_zero s -> get_sign v = s.
Proof.
  intros H. unfold get_sign. rewrite is_zero_spec, H.
  rewrite ltb_spec, div_spec, H.
  change (Prim2SF 1) with (S754_finite false 4503599627370496 (-52)).
  change (Prim2SF 0) with (S754_zero false).
  destruct s; reflexivity.
Qed.

Lemma positive_zero (v : float) :
  is_zero v = true -> get_sign v = false -> v = 0.
Proof.
  rewrite is_zero_spec. intros Hz Hs. apply Prim2SF_inj.
  change (Prim2SF 0) with (S754_zero false).
  destruct (Prim2SF v) as [s | s | | s m e] eqn:Hv; try discriminate.
  rewrite (get_sign_zero v s Hv) in Hs. subst s. reflexivity.
Qed.

Lemma leb_nan_l (d : float) : (nan <=? d) = false.
Proof.
  destruct (nan <=? d) eqn:H; [|reflexivity].
  apply leb_not_nan in H. destruct H as [H _]. discriminate H.
Qed.

Lemma leb_infinity_l (d : float) :
  (d =? infinity) = false -> (infinity <=? d) = false.
Proof.
  rewrite eqb_spec, leb_spec. unfold SFeqb, SFleb.
  change (Prim2SF infinity) with (S754_infinity false).
  destruct (Prim2SF d) as [s | s | | s m e]; cbn [SFcompare];
    try reflexivity; destruct s; try reflexivity; discriminate.
Qed.

(** Without a rate the frame-interval test fails. *)
Lemma no_rate_gate (fps d : float) :
  no_rate fps = true ->
  is_nan fps = true \/ (d =? infinity) = false ->
  ge d (1000 / fps) = false.
Proof.
  unfold no_rate, ge. intros Hr Hd.
  destruct (is_nan fps) eqn:Hn.
  - apply is_nan_eq in Hn. subst fps.
    change (1000 / nan) with nan. apply leb_nan_l.
  - cbn [orb] in Hr. apply andb_true_iff in Hr. destruct Hr as [Hz Hs].
    apply negb_true_iff in Hs. rewrite (positive_zero fps Hz Hs).
    change (1000 / 0) with infinity.
    destruct Hd as [Hd | Hd]; [discriminate|]. apply leb_infinity_l. exact Hd.
Qed.

Section Handlers.

Variable Math_hypot : float -> float -> float.

(** Only an accepted frame and the frame-rate select change the
    variables of the gate. *)
Lemma rate_vars_frame (e : Event) (s : Sys) :
  match e with
  | fpsSelect_change _ => False
  | animation_frame _ now =>
      ge (now - lastFrameTime s) (1000 / targetFPS s) = false
  | _ => True
  end ->
  rate_vars (handle Math_hypot e s) = rate_vars s.
Proof.
  destruct e; intros He; cbn [handle]; try contradiction; try reflexivity;
    try (step_cases; fail).
  destruct (pending_frame id s) as [[|]|]; [| |reflexivity].
  - rewrite renderLoop_eq.
    change (lastFrameTime (cancelAnimationFrame (Some id) s))
      with (lastFrameTime s).
    change (targetFPS (cancelAnimationFrame (Some id) s)) with (targetFPS s).
    rewrite He. reflexivity.
  - step_cases.
Qed.

Lemma no_rate_step (e : Event) (s : Sys) :
  no_rate (targetFPS s) = true ->
  keeps_rate (targetFPS s) (lastFrameTime s) e ->
  rate_vars (handle Math_hypot e s) = rate_vars s /\
  draws (log (handle Math_hypot e s)) = draws (log s).
Proof.
  intros Hr He. split.
  - apply rate_vars_frame. destruct e; try exact I; try contradiction.
    apply no_rate_gate; assumption.
  - destruct (handle_log Math_hypot e s) as (l & Hl & [[_ Hacc] | Hout]).
    + destruct Hacc as (id & now & -> & _ & Hg).
      rewrite (no_rate_gate _ _ Hr He) in Hg. discriminate.
    + rewrite Hl, RenderFacts.draws_app.
      rewrite (proj1 (outside_frame_draws l Hout)). lia.
Qed.

(** X6.  A page without a frame rate.  When the frame-rate select yields
    [NaN] (a value that is no number) or [0], the frame interval is
    [NaN] or [+Infinity] and no tick passes the test: until another
    rate is chosen nothing is drawn and the baseline stays where it
    is, while the loop keeps running. *)
Theorem no_rate_no_frames (es : list Event) (s : Sys) :
  no_rate (targetFPS s) = true ->
  Forall (keeps_rate (targetFPS s) (lastFrameTime s)) es ->
  draws (log (run Math_hypot es s)) = draws (log s) /\
  lastFrameTime (run Math_hypot es s) = lastFrameTime s /\
  targetFPS (run Math_hypot es s) = targetFPS s.
Proof.
  revert s. induction es as [|e es IH]; intros s Hr Hes.
  - repeat split.
  - inversion Hes as [|e' es' He Hes']; subst.
    cbn [run fold_left]. fold (run Math_hypot es (handle Math_hypot e s)).
    destruct (no_rate_step e s Hr He) as [Hv Hd].
    unfold rate_vars in Hv. injection Hv as Hv1 Hv2.
    destruct (IH (handle Math_hypot e s)) as (I1 & I2 & I3).
    + rewrite Hv1. exact Hr.
    + rewrite Hv1, Hv2. exact Hes'.
    + rewrite I1, I2, I3, Hd, Hv1, Hv2. repeat split.
Qed.

(** The canvas size changes only in [resizeCanvas]. *)
Lemma canvas_vars_frame (e : Event) (s : Sys) :
  match e with
  | window_resize _ _ | play_fulfilled _ => False
  | _ => True
  end ->
  canvas_vars (handle Math_hypot e s) = canvas_vars s.
Proof.
  destruct e; intros He; cbn [handle]; try contradiction; try reflexivity;
    step_cases.
Qed.

Lemma dests_frame_effects (s : Sys) :
  dests (frame_effects s) =
  if (readyState s <? 2)%Z then []
  else [(0, 0, canvas_width s / dpr s, canvas_height s / dpr s)].
Proof.
  unfold frame_effects. destruct (readyState s <? 2)%Z; [reflexivity|].
  destruct (strict_eq (currentFilter s) "film"); reflexivity.
Qed.

Lemma canvas_step (a b d : float) (e : Event) (s : Sys) :
  no_resize e ->
  canvas_vars s = (Math_floor (a * d), Math_floor (b * d), (a, b), d) ->
  canvas_vars (handle Math_hypot e s) = canvas_vars s /\
  exists n,
    dests (log (handle Math_hypot e s)) =
    dests (log s) ++
    repeat (0, 0, Math_floor (a * d) / d, Math_floor (b * d) / d) n.
Proof.
  intros He Hc. unfold canvas_vars in Hc. injection Hc as H1 H2 H3 H4.
  split.
  - destruct e; try (apply canvas_vars_frame; exact I); [contradiction|].
    cbn [handle]. destruct (mem_nat req (play_pending s)); [|reflexivity].
    unfold canvas_vars, initCamera_playing, resizeCanvas.
    transitivity
      (Math_floor (fst (canvas_rect s) * dpr s),
       Math_floor (snd (canvas_rect s) * dpr s), canvas_rect s, dpr s);
      [reflexivity|].
    rewrite H1, H2, H3, H4. reflexivity.
  - destruct (handle_log Math_hypot e s) as (l & Hl & [[-> _] | Hout]).
    + rewrite Hl, dests_app, dests_frame_effects, H1, H2, H4.
      destruct (readyState s <? 2)%Z; [exists 0%nat | exists 1%nat]; reflexivity.
    + exists 0%nat. rewrite Hl, dests_app.
      rewrite (proj2 (outside_frame_draws l Hout)). reflexivity.
Qed.

Lemma repeat_app {A : Type} (x : A) (n m : nat) :
  repeat x n ++ repeat x m = repeat x (n + m).
Proof. induction n as [|n IH]; [reflexivity|]. cbn. rewrite IH. reflexivity. Qed.

(** X7.  The canvas and the frames drawn on it.  [resizeCanvas] gives the
    canvas [Math.floor(rect * dpr)] pixels each way, and until the
    window is resized again the canvas keeps that size and every frame
    is drawn into the rectangle [(0, 0, canvas.width / dpr,
    canvas.height / dpr)], whatever the zoom, the filter and the other
    events in between (a camera restart recomputes the same size). *)
Theorem frames_fill_canvas (a b : float) (es : list Event) (s : Sys) :
  Forall no_resize es ->
  let cw := Math_floor (a * dpr s) in
  let ch := Math_floor (b * dpr s) in
  let s' := run Math_hypot (window_resize a b :: es) s in
  canvas_width s' = cw /\ canvas_height s' = ch /\
  exists n,
    dests (log s') = dests (log s) ++ repeat (0, 0, cw / dpr s, ch / dpr s) n.
Proof.
  intros Hes cw ch s'. subst s' cw ch. cbn [run fold_left].
  fold (run Math_hypot es (handle Math_hypot (window_resize a b) s)).
  set (s1 := handle Math_hypot (window_resize a b) s).
  generalize (dpr s) (eq_refl : canvas_vars s1 =
    (Math_floor (a * dpr s), Math_floor (b * dpr s), (a, b), dpr s)).
  intros d Hc.
  assert (Hl : exists n, dests (log s1) =
                 dests (log s) ++
                 repeat (0, 0, Math_floor (a * d) / d, Math_floor (b * d) / d) n).
  { exists 0%nat. rewrite app_nil_r.
    transitivity (dests (log s ++ [ctx_setTransform (dpr s) 0 0 (dpr s) 0 0]));
      [reflexivity|].
    rewrite dests_app. apply app_nil_r. }
  clearbody s1. revert Hc Hl. generalize s1. clear s1.
  induction Hes as [|e es He Hes IH]; intros s1 Hc Hl.
  - cbn [run fold_left]. unfold canvas_vars in Hc. injection Hc as H1 H2 H3 H4.
    auto.
  - cbn [run fold_left]. fold (run Math_hypot es (handle Math_hypot e s1)).
    destruct (canvas_step a b d e s1 He Hc) as [Hv [n Hn]].
    destruct Hl as [m Hm].
    apply IH.
    + rewrite Hv. exact Hc.
    + exists (m + n)%nat. rewrite Hn, Hm, <- app_assoc, repeat_app.
      reflexivity.
Qed.

Lemma idle_step (e : Event) (s : Sys) :
  loop_invariant s -> render_loops s = 0%nat -> before_play e ->
  loop_invariant (handle Math_hypot e s) /\
  render_loops (handle Math_hypot e s) = 0%nat /\
  draws (log (handle Math_hypot e s)) = draws (log s).
Proof.
  intros Hinv H0 He.
  destruct (loop_step Math_hypot e s Hinv) as [H1 H2].
  split; [exact H1|]. split.
  - rewrite H2, H0. destruct e; try reflexivity. contradiction.
  - destruct (handle_log Math_hypot e s) as (l & Hl & [[_ Hacc] | Hout]).
    + destruct Hacc as (id & now & _ & Hp & _).
      apply pending_render_loop in Hp. lia.
    + rewrite Hl, RenderFacts.draws_app.
      rewrite (proj1 (outside_frame_draws l Hout)). lia.
Qed.

(** X5.  Before the camera has started.  From page load until a
    [video.play()] of [initCamera] is fulfilled for the first time no
    render loop is queued and nothing is drawn, whatever else happens;
    in particular nothing is ever drawn when camera access is refused. *)
Theorem no_frame_before_play (w : World) (es : list Event) :
  raf_pending w = [] ->
  Forall before_play es ->
  draws (log (run Math_hypot es (boot w))) = draws (log w) /\
  render_loops (run Math_hypot es (boot w)) = 0%nat.
Proof.
  intros Hw Hes. destruct (loop_boot w Hw) as [Hinv H0].
  assert (Hd : draws (log (boot w)) = draws (log w)).
  { unfold boot. destruct (initCamera_eq (initial w)) as [lv ->].
    transitivity
      (draws (log w ++ [getUserMedia (gum_next w) (constraints_of (initial w))]));
      [reflexivity|].
    rewrite RenderFacts.draws_app.
    apply Nat.add_0_r. }
  rewrite <- Hd. clear Hd Hw.
  revert Hinv H0. generalize (boot w) as s.
  induction Hes as [|e es He Hes IH]; intros s Hinv H0.
  - split; [reflexivity | exact H0].
  - cbn [run fold_left]. fold (run Math_hypot es (handle Math_hypot e s)).
    destruct (idle_step e s Hinv H0 He) as (H1 & H2 & H3).
    destruct (IH _ H1 H2) as [I1 I2]. rewrite I1, H3. auto.
Qed.

End Handlers.

(** X5, run: camera access is refused: frames requested, a resize and the
    controls draw nothing. *)
Lemma no_frame_before_play_run :
  let es :=
    [getUserMedia_rejected 0; animation_frame 1 16; window_resize 400 800;
     zoomSlider_input 2; captureBtn_click; animation_frame 1 33] in
  raf_pending ready_world = [] /\
  draws (log (run hypot_sqrt es (boot ready_world))) = 0%nat.
Proof.
  intros es. split; [reflexivity|].
  rewrite (proj1 (no_frame_before_play hypot_sqrt ready_world es eq_refl
                    ltac:(repeat constructor))).
  reflexivity.
Defined.

(** X6, run: the frame-rate select yields [NaN], or [0]: the ticks that follow,
    one a second later, draw nothing, where the same ticks at 60
    frames per second draw two frames. *)
Lemma no_rate_no_frames_run :
  let started :=
    run hypot_sqrt [getUserMedia_fulfilled 0 1; play_fulfilled 0]
      (boot ready_world) in
  let ticks := [animation_frame 1 20; animation_frame 2 1020] in
  let s_nan := handle hypot_sqrt (fpsSelect_change nan) started in
  let s_zero := handle hypot_sqrt (fpsSelect_change 0) started in
  (no_rate (targetFPS s_nan) = true /\ no_rate (targetFPS s_zero) = true) /\
  draws (log (run hypot_sqrt ticks s_nan)) = 0%nat /\
  draws (log (run hypot_sqrt ticks s_zero)) = 0%nat /\
  draws (log (run hypot_sqrt ticks started)) = 2%nat.
Proof.
  intros started ticks s_nan s_zero.
  split; [split; reflexivity|]. split; [|split; [|reflexivity]].
  - rewrite (proj1 (no_rate_no_frames hypot_sqrt ticks s_nan eq_refl
                      ltac:(repeat (constructor; [left; reflexivity|]);
                            constructor))).
    reflexivity.
  - rewrite (proj1 (no_rate_no_frames hypot_sqrt ticks s_zero eq_refl
                      ltac:(repeat (constructor; [right; reflexivity|]);
                            constructor))).
    reflexivity.
Defined.

(** X7, run: a window of 390.5 by 844.25 CSS pixels at a device pixel ratio of
    2: the canvas gets 781 by 1688 pixels, and the frames drawn at
    zoom 1 and at zoom 2 both go to (0, 0, 390.5, 844). *)
Lemma frames_fill_canvas_run :
  let s :=
    run hypot_sqrt
      [video_state 4 1920 1080; getUserMedia_fulfilled 0 1; play_fulfilled 0]
      (boot (fresh_world 2)) in
  let es := [animation_frame 1 20; zoomSlider_input 2; animation_frame 2 40] in
  let s' := run hypot_sqrt (window_resize 390.5 844.25 :: es) s in
  (canvas_width s' = 781 /\ canvas_height s' = 1688) /\
  dests (log s') = [(0, 0, 390.5, 844); (0, 0, 390.5, 844)].
Proof.
  intros s es s'.
  destruct (frames_fill_canvas hypot_sqrt 390.5 844.25 es s
              ltac:(repeat constructor)) as (H1 & H2 & _).
  cbv zeta in H1, H2. fold s' in H1, H2.
  split; [|reflexivity]. rewrite H1, H2. split; reflexivity.
Defined.

End FrameFacts.

(** ** Camera requests *)

Module RequestFacts.

Import JS Cam Obs NumberFacts StateFacts StepFacts.
Open Scope string_scope.
Open Scope list_scope.
Open Scope float_scope.

Lemma requests_app (l l' : list Effect) :
  requests (l ++ l') = requests l ++ requests l'.
Proof. unfold requests. apply flat_map_app. Qed.

Lemma requests_stops (l : list Track) : requests (map track_stop l) = [].
Proof. induction l as [|t l IH]; [reflexivity | exact IH]. Qed.

Lemma requests_frame_effects (s : Sys) : requests (frame_effects s) = [].
Proof.
  unfold frame_effects. destruct (readyState s <? 2)%Z; [reflexivity|].
  destruct (strict_eq (currentFilter s) "film"); reflexivity.
Qed.

Lemma requests_initCamera (s : Sys) :
  exists l,
    log (initCamera s) = log s ++ l /\ requests l = [constraints_of s].
Proof.
  destruct (initCamera_eq s) as [lv ->]. eexists. split; [reflexivity|].
  rewrite requests_app, requests_stops. reflexivity.
Qed.

Ltac log_obs :=
  first
    [ exists []; split; [rewrite app_nil_r; reflexivity | reflexivity]
    | eexists; split;
      [ cbn; rewrite <- ?app_assoc; reflexivity | reflexivity ] ].

Section Handlers.

Variable Math_hypot : float -> float -> float.

(** The camera is asked for only by the camera switch and the
    frame-rate select. *)
Lemma handle_requests (e : Event) (s : Sys) :
  exists l,
    log (handle Math_hypot e s) = log s ++ l /\
    requests l = new_requests e s.
Proof.
  destruct e; cbn [handle new_requests]; try (log_obs; fail).
  - (* animation_frame *)
    destruct (pending_frame id s) as [[|]|] eqn:Hp; [| |log_obs].
    + rewrite renderLoop_eq.
      destruct (ge _ _); [|log_obs].
      exists (frame_effects s). split; [reflexivity|].
      apply requests_frame_effects.
    + unfold updateRecordTimer. destruct (negb _); log_obs.
  - unfold on_touchstart. destruct touches as [|t0 [|t1 [|t2 l]]]; log_obs.
  - unfold on_touchmove. destruct touches as [|t0 [|t1 [|t2 l]]]; try log_obs.
    destruct (pinchStartDistance s); [|log_obs].
    destruct (truthy _); log_obs.
  - (* captureBtn_click *)
    unfold on_captureBtn_click. destruct (String.eqb _ _); [log_obs|].
    destruct (recording s).
    + unfold stopRecording.
      match goal with
      | |- context [match ?x with _ => _ end] => destruct x
      end; [|log_obs].
      unfold cancelAnimationFrame.
      match goal with
      | |- context [match ?x with _ => _ end] => destruct x
      end; log_obs.
    + unfold startRecording, new_MediaRecorder, updateRecordTimer. log_obs.
  - unfold on_switchCameraBtn_click.
    match goal with
    | |- context [initCamera ?x] => apply (requests_initCamera x)
    end.
  - unfold on_fpsSelect_change.
    match goal with
    | |- context [initCamera ?x] => apply (requests_initCamera x)
    end.
  - destruct (nth_error (recorders s) r) as [m|]; [|log_obs].
    destruct (ondataavailable m) as [[|]|]; log_obs.
  - destruct (nth_error (recorders s) r) as [m|]; [|log_obs].
    destruct (onstop m) as [[|]|]; log_obs.
  - destruct (nth_error (recorders s) r) as [m|]; [|log_obs].
    destruct (onerror m) as [[|]|]; log_obs.
  - destruct (mem_nat req (gum_pending s)); log_obs.
  - destruct (mem_nat req (play_pending s)); log_obs.
Qed.

(** Only the camera switch changes the facing. *)
Lemma currentFacing_frame (e : Event) (s : Sys) :
  currentFacing (handle Math_hypot e s) =
  match e with
  | switchCameraBtn_click =>
      if String.eqb (currentFacing s) "environment" then "user"
      else "environment"
  | _ => currentFacing s
  end.
Proof. destruct e; cbn [handle]; try reflexivity; step_cases. Qed.

Lemma facing_step (e : Event) (s : Sys) (n : nat) :
  currentFacing s = (if Nat.even n then "environment" else "user") ->
  currentFacing (handle Math_hypot e s) =
  (if Nat.even (switches [e] + n) then "environment" else "user").
Proof.
  intros H. rewrite currentFacing_frame.
  destruct e; try exact H.
  rewrite H. change (switches [switchCameraBtn_click] + n)%nat with (S n).
  rewrite Nat.even_succ, <- Nat.negb_even.
  destruct (Nat.even n); reflexivity.
Qed.

Lemma switches_cons (e : Event) (es : list Event) :
  switches (e :: es) = (switches [e] + switches es)%nat.
Proof. unfold switches. cbn [filter]. destruct e; reflexivity. Qed.

(** X8.  The facing.  The camera switch is the only control of the facing
    and toggles it: after any sequence of events from page load the
    script faces the environment camera when the switch was pressed an
    even number of times, and the user camera otherwise. *)
Theorem facing_toggles (w : World) (es : list Event) :
  currentFacing (run Math_hypot es (boot w)) =
  if Nat.even (switches es) then "environment" else "user".
Proof.
  assert (H : forall es (s : Sys) n,
             currentFacing s = (if Nat.even n then "environment" else "user") ->
             currentFacing (run Math_hypot es s) =
             if Nat.even (switches es + n) then "environment" else "user").
  { clear. induction es as [|e es IH]; intros s n Hs; [exact Hs|].
    cbn [run fold_left]. fold (run Math_hypot es (handle Math_hypot e s)).
    rewrite (IH _ (switches [e] + n)%nat (facing_step e s n Hs)).
    rewrite (switches_cons e es).
    replace (switches es + (switches [e] + n))%nat
      with (switches [e] + switches es + n)%nat by lia.
    reflexivity. }
  rewrite (H es (boot w) 0%nat), Nat.add_0_r; [reflexivity|].
  unfold boot. destruct (initCamera_eq (initial w)) as [lv ->]. reflexivity.
Qed.

Lemma video_only_constraints (s : Sys) :
  currentFacing s = "environment" \/ currentFacing s = "user" ->
  video_only (constraints_of s).
Proof. intros H. unfold video_only. repeat split. exact H. Qed.

Lemma requests_step (e : Event) (s : Sys) :
  currentFacing s = "environment" \/ currentFacing s = "user" ->
  Forall video_only (requests (log s)) ->
  (currentFacing (handle Math_hypot e s) = "environment" \/
   currentFacing (handle Math_hypot e s) = "user") /\
  Forall video_only (requests (log (handle Math_hypot e s))).
Proof.
  intros Hf Hr. split.
  - rewrite currentFacing_frame. destruct e; try exact Hf.
    destruct (String.eqb _ _); auto.
  - destruct (handle_requests e s) as (l & -> & Hl).
    rewrite requests_app, Hl. apply Forall_app. split; [exact Hr|].
    destruct e; cbn [new_requests]; try (constructor; fail).
    + constructor; [|constructor]. apply video_only_constraints.
      change (currentFacing (set_currentFacing ?x _)) with x.
      destruct (String.eqb _ _); auto.
    + constructor; [|constructor]. apply video_only_constraints. exact Hf.
Qed.

(** X9.  Every camera request.  After any sequence of events from page
    load, each [getUserMedia] call the script has made asked for video
    only ([audio: false]), for 1920x1080 as the ideal size, for one
    frame rate as both the ideal and the maximum, and for the
    environment or the user camera. *)
Theorem requests_video_only (w : World) (es : list Event) :
  log w = [] ->
  Forall video_only (requests (log (run Math_hypot es (boot w)))).
Proof.
  intros Hw.
  assert (H : forall es (s : Sys),
             (currentFacing s = "environment" \/ currentFacing s = "user") ->
             Forall video_only (requests (log s)) ->
             Forall video_only (requests (log (run Math_hypot es s)))).
  { clear. induction es as [|e es IH]; intros s Hf Hr; [exact Hr|].
    cbn [run fold_left]. fold (run Math_hypot es (handle Math_hypot e s)).
    destruct (requests_step e s Hf Hr) as [Hf' Hr']. apply IH; assumption. }
  apply H.
  - left. unfold boot. destruct (initCamera_eq (initial w)) as [lv ->].
    reflexivity.
  - destruct (requests_initCamera (initial w)) as (l & Hl & Hq).
    unfold boot. rewrite Hl, requests_app, Hq.
    change (log (initial w)) with (log w). rewrite Hw.
    repeat constructor.
Qed.

End Handlers.

(** X9, run: the request at load, one after a change of the frame rate and one
    after a press of the camera switch. *)
Lemma requests_video_only_run :
  let es := [fpsSelect_change 30; switchCameraBtn_click] in
  log ready_world = [] /\
  Forall video_only (requests (log (run hypot_sqrt es (boot ready_world)))) /\
  map (fun c => (facingMode c, frameRate_ideal c))
    (requests (log (run hypot_sqrt es (boot ready_world)))) =
  [("environment", 60); ("environment", 30); ("user", 30)].
Proof.
  intros es. split; [reflexivity|]. split; [|reflexivity].
  apply (requests_video_only hypot_sqrt ready_world es eq_refl).
Defined.

End RequestFacts.

(** ** The capture button and the recorder *)

Module SessionFacts.

Import JS Cam Obs NumberFacts StateFacts StepFacts RecordingFacts.
Open Scope string_scope.
Open Scope list_scope.
Open Scope float_scope.

Lemma recorder_calls_app (l l' : list Effect) :
  recorder_calls (l ++ l') = recorder_calls l ++ recorder_calls l'.
Proof. unfold recorder_calls. apply filter_app. Qed.

Lemma recorder_calls_stops (l : list Track) :
  recorder_calls (map track_stop l) = [].
Proof. induction l as [|t l IH]; [reflexivity | exact IH]. Qed.

Lemma recorder_calls_frame_effects (s : Sys) :
  recorder_calls (frame_effects s) = [].
Proof.
  unfold frame_effects. destruct (readyState s <? 2)%Z; [reflexivity|].
  destruct (strict_eq (currentFilter s) "film"); reflexivity.
Qed.

Lemma recorder_calls_initCamera (s : Sys) :
  exists l, log (initCamera s) = log s ++ l /\ recorder_calls l = [].
Proof.
  destruct (initCamera_eq s) as [lv ->]. eexists. split; [reflexivity|].
  rewrite recorder_calls_app, recorder_calls_stops. reflexivity.
Qed.

Ltac log_obs :=
  first
    [ exists []; split; [rewrite app_nil_r; reflexivity | reflexivity]
    | eexists; split;
      [ cbn; rewrite <- ?app_assoc; reflexivity | reflexivity ] ].

Section Handlers.

Variable Math_hypot : float -> float -> float.

(** In photo mode no event starts or stops a recorder. *)
Lemma photo_mode_log (e : Event) (s : Sys) :
  currentMode s = "photo" ->
  exists l,
    log (handle Math_hypot e s) = log s ++ l /\ recorder_calls l = [].
Proof.
  intros Hm.
  destruct e; cbn [handle]; try (log_obs; fail).
  - (* animation_frame *)
    destruct (pending_frame id s) as [[|]|] eqn:Hp; [| |log_obs].
    + rewrite renderLoop_eq.
      destruct (ge _ _); [|log_obs].
      exists (frame_effects s). split; [reflexivity|].
      apply recorder_calls_frame_effects.
    + unfold updateRecordTimer. destruct (negb _); log_obs.
  - unfold on_touchstart. destruct touches as [|t0 [|t1 [|t2 l]]]; log_obs.
  - unfold on_touchmove. destruct touches as [|t0 [|t1 [|t2 l]]]; try log_obs.
    destruct (pinchStartDistance s); [|log_obs].
    destruct (truthy _); log_obs.
  - (* captureBtn_click *)
    unfold on_captureBtn_click. rewrite Hm. log_obs.
  - unfold on_switchCameraBtn_click.
    match goal with
    | |- context [initCamera ?x] => apply (recorder_calls_initCamera x)
    end.
  - unfold on_fpsSelect_change.
    match goal with
    | |- context [initCamera ?x] => apply (recorder_calls_initCamera x)
    end.
  - destruct (nth_error (recorders s) r) as [m|]; [|log_obs].
    destruct (ondataavailable m) as [[|]|]; log_obs.
  - destruct (nth_error (recorders s) r) as [m|]; [|log_obs].
    destruct (onstop m) as [[|]|]; log_obs.
  - destruct (nth_error (recorders s) r) as [m|]; [|log_obs].
    destruct (onerror m) as [[|]|]; log_obs.
  - destruct (mem_nat req (gum_pending s)); log_obs.
  - destruct (mem_nat req (play_pending s)); log_obs.
Qed.

Lemma photo_mode_vars (e : Event) (s : Sys) :
  currentMode s = "photo" -> not_modeVideo e ->
  (currentMode (handle Math_hypot e s), recording (handle Math_hypot e s),
   mediaRecorder (handle Math_hypot e s)) =
  (currentMode s, recording s, mediaRecorder s).
Proof.
  intros Hm He.
  destruct e; cbn [handle]; try contradiction; try reflexivity;
    try (step_cases; fail).
  - unfold on_modePhoto_click. rewrite Hm. reflexivity.
  - unfold on_captureBtn_click.
    destruct (String.eqb (currentMode s) "photo") eqn:E; [reflexivity|].
    rewrite Hm in E. discriminate E.
Qed.

Lemma photo_mode_run (es : list Event) (s : Sys) :
  currentMode s = "photo" -> Forall not_modeVideo es ->
  recording (run Math_hypot es s) = recording s /\
  mediaRecorder (run Math_hypot es s) = mediaRecorder s /\
  recorder_calls (log (run Math_hypot es s)) = recorder_calls (log s).
Proof.
  revert s. induction es as [|e es IH]; intros s Hm Hes; [repeat split|].
  inversion Hes as [|e' es' He Hes']; subst.
  cbn [run fold_left]. fold (run Math_hypot es (handle Math_hypot e s)).
  pose proof (photo_mode_vars e s Hm He) as Hv. injection Hv as H1 H2 H3.
  destruct (photo_mode_log e s Hm) as (l & Hl & Hc).
  destruct (IH (handle Math_hypot e s)) as (I1 & I2 & I3);
    [rewrite H1; exact Hm | exact Hes' |].
  rewrite I1, I2, I3, H2, H3, Hl, recorder_calls_app, Hc, app_nil_r.
  repeat split.
Qed.

(** X10.  Switching to photo mode while recording.  The photo mode button
    only sets the mode: from its press and until the video mode
    button is pressed, no event stops (or starts) a recorder, and the
    recording flag and the recorder stay as they were -- the capture
    button takes photos.  A recording that is on when the mode is
    switched goes on, and cannot be stopped while in photo mode. *)
Theorem photo_mode_keeps_recording (es : list Event) (s : Sys) :
  Forall not_modeVideo es ->
  let s' := run Math_hypot (modePhoto_click :: es) s in
  recording s' = recording s /\
  mediaRecorder s' = mediaRecorder s /\
  recorder_calls (log s') = recorder_calls (log s).
Proof.
  intros Hes s'. subst s'. cbn [run fold_left].
  fold (run Math_hypot es (handle Math_hypot modePhoto_click s)).
  apply (photo_mode_run es (handle Math_hypot modePhoto_click s));
    [reflexivity | exact Hes].
Qed.

Lemma nth_error_before_last {A : Type} (l : list A) (x y : A) :
  nth_error ((l ++ [x]) ++ [y]) (List.length l) = Some x.
Proof.
  rewrite nth_error_app1 by (rewrite length_app; cbn; lia).
  apply nth_error_last.
Qed.

(** One event while two recorders overlap: as in a session, the chunk
    of a data event is appended, whichever recorder delivers it. *)
Lemma overlap_step (r : nat) (e : Event) (s : Sys) :
  overlap_event r e ->
  currentMode s = "video" ->
  nth_error (recorders s) r = Some session_recorder ->
  nth_error (recorders s) (S r) = Some session_recorder ->
  session_vars (handle Math_hypot e s) =
  (recording s, currentMode s, mediaRecorder s,
   recordedChunks s ++ chunks_of [e], recorders s, downloads (log s)).
Proof.
  intros [He | He] Hm Hr Hr'.
  - apply (session_step Math_hypot r e s He Hm Hr).
  - apply (session_step Math_hypot (S r) e s He Hm Hr').
Qed.

Lemma overlap_run (r : nat) (es : list Event) (s : Sys) :
  Forall (overlap_event r) es ->
  currentMode s = "video" ->
  nth_error (recorders s) r = Some session_recorder ->
  nth_error (recorders s) (S r) = Some session_recorder ->
  session_vars (run Math_hypot es s) =
  (recording s, currentMode s, mediaRecorder s,
   recordedChunks s ++ chunks_of es, recorders s, downloads (log s)).
Proof.
  revert s. induction es as [|e es IH]; intros s Hes Hm Hr Hr'.
  - cbn. rewrite app_nil_r. reflexivity.
  - inversion Hes as [|e' es' He Hes']; subst.
    cbn [run fold_left]. fold (run Math_hypot es (handle Math_hypot e s)).
    destruct (session_vars_inv _ _ _ _ _ _ _ (overlap_step r e s He Hm Hr Hr'))
      as (H1 & H2 & H3 & H4 & H5 & H6).
    rewrite (IH (handle Math_hypot e s) Hes');
      [| rewrite H2; exact Hm | rewrite H5; exact Hr | rewrite H5; exact Hr'].
    rewrite H1, H2, H3, H4, H5, H6.
    unfold chunks_of. cbn [flat_map]. rewrite app_nil_r, <- app_assoc.
    reflexivity.
Qed.

(** A recorder reports its stop: [saveVideo] downloads the buffer as it
    is and leaves it as it is. *)
Lemma stopped_vars (r : nat) (s : Sys) :
  nth_error (recorders s) r = Some session_recorder ->
  session_vars (handle Math_hypot (recorder_stopped r) s) =
  (recording s, currentMode s, mediaRecorder s, recordedChunks s,
   recorders s,
   downloads (log s) ++
   [(video_name (Date_now s), new_Blob (recordedChunks s) "video/webm")]).
Proof.
  intros Hr. destruct (stopped_event Math_hypot r s Hr) as [Hl _].
  unfold session_vars. rewrite Hl, downloads_app.
  cbn [handle]. rewrite Hr. reflexivity.
Qed.

(** X11.  Recording again before the recorder has stopped.  The chunk
    buffer is one variable shared by all recorders: [startRecording]
    clears it, every recorder's data handler appends to it, and
    [saveVideo] reads it, without clearing it, when a recorder reports
    its stop.  When a second recording is started after the first was
    stopped but before the first recorder's stop event, the chunks
    delivered before the second start are in no file; the file saved
    at the first recorder's stop event holds every chunk delivered
    since the second start, by either recorder, in the order they
    arrived (the data of the first recording, when its recorder
    delivers it only then); and those chunks stay in the buffer: the
    file of the second recording, saved when its own recorder has
    stopped, starts with them. *)
Theorem restart_before_stop_event (s : Sys) (evs1 evs2 evs3 evs4 : list Event) :
  currentMode s = "video" -> recording s = false ->
  let r := List.length (recorders s) in
  Forall (session_event r) evs1 -> Forall (overlap_event r) evs2 ->
  Forall (session_event (S r)) evs3 -> Forall (session_event (S r)) evs4 ->
  let s1 := handle Math_hypot captureBtn_click s in
  let s2 := run Math_hypot evs1 s1 in
  let s3 := handle Math_hypot captureBtn_click s2 in
  let s4 := handle Math_hypot captureBtn_click s3 in
  let s5 := run Math_hypot evs2 s4 in
  let s6 := handle Math_hypot (recorder_stopped r) s5 in
  let s7 := run Math_hypot evs3 s6 in
  let s8 := handle Math_hypot captureBtn_click s7 in
  let s9 := run Math_hypot evs4 s8 in
  let s10 := handle Math_hypot (recorder_stopped (S r)) s9 in
  (mediaRecorder s4 = Some (S r) /\ recordedChunks s4 = []) /\
  (downloads (log s6) =
     downloads (log s) ++
     [(video_name (Date_now s5), new_Blob (chunks_of evs2) "video/webm")] /\
   recording s6 = true) /\
  downloads (log s10) =
    downloads (log s6) ++
    [(video_name (Date_now s9),
      new_Blob (chunks_of evs2 ++ chunks_of evs3 ++ chunks_of evs4)
        "video/webm")].
Proof.
  intros Hm Hrec r H1 H2 H3 H4 s1 s2 s3 s4 s5 s6 s7 s8 s9 s10.
  destruct (session_vars_inv _ _ _ _ _ _ _ (start_session Math_hypot s Hm Hrec))
    as (A1 & A2 & A3 & A4 & A5 & A6).
  fold s1 r in A1, A2, A3, A4, A5, A6.
  assert (R1 : nth_error (recorders s1) r = Some session_recorder).
  { rewrite A5. apply nth_error_last. }
  destruct (session_run Math_hypot r evs1 s1 H1 A2 R1) as [E2 _]. fold s2 in E2.
  destruct (session_vars_inv _ _ _ _ _ _ _ E2)
    as (B1 & B2 & B3 & B4 & B5 & B6).
  rewrite A1 in B1. rewrite A2 in B2. rewrite A3 in B3.
  rewrite A4 in B4. rewrite A6 in B6.
  destruct (stop_session Math_hypot r s2 B2 B1 B3) as [E3 _]. fold s3 in E3.
  destruct (session_vars_inv _ _ _ _ _ _ _ E3)
    as (C1 & C2 & C3 & C4 & C5 & C6).
  destruct (session_vars_inv _ _ _ _ _ _ _ (start_session Math_hypot s3 C2 C1))
    as (D1 & D2 & D3 & D4 & D5 & D6).
  fold s4 in D1, D2, D3, D4, D5, D6.
  assert (Hlen : List.length (recorders s3) = S r).
  { rewrite C5, B5, A5, length_app. cbn. subst r. lia. }
  rewrite Hlen in D3.
  assert (R4 : nth_error (recorders s4) (S r) = Some session_recorder).
  { rewrite D5, <- Hlen. apply nth_error_last. }
  assert (R4' : nth_error (recorders s4) r = Some session_recorder).
  { rewrite D5, C5, B5, A5. apply nth_error_before_last. }
  pose proof (overlap_run r evs2 s4 H2 D2 R4' R4) as E5. fold s5 in E5.
  destruct (session_vars_inv _ _ _ _ _ _ _ E5)
    as (F1 & F2 & F3 & F4 & F5 & F6).
  assert (R5 : nth_error (recorders s5) r = Some session_recorder).
  { rewrite F5. exact R4'. }
  pose proof (stopped_vars r s5 R5) as E6. fold s6 in E6.
  destruct (session_vars_inv _ _ _ _ _ _ _ E6)
    as (G1 & G2 & G3 & G4 & G5 & G6).
  rewrite F1, D1 in G1. rewrite F2, D2 in G2. rewrite F3, D3 in G3.
  rewrite F4, D4 in G4. cbn [app] in G4.
  assert (R6 : nth_error (recorders s6) (S r) = Some session_recorder).
  { rewrite G5, F5. exact R4. }
  destruct (session_run Math_hypot (S r) evs3 s6 H3 G2 R6) as [E7 _].
  fold s7 in E7.
  destruct (session_vars_inv _ _ _ _ _ _ _ E7)
    as (I1 & I2 & I3 & I4 & I5 & I6).
  rewrite G1 in I1. rewrite G2 in I2. rewrite G3 in I3. rewrite G4 in I4.
  destruct (stop_session Math_hypot (S r) s7 I2 I1 I3) as [E8 _].
  fold s8 in E8.
  destruct (session_vars_inv _ _ _ _ _ _ _ E8)
    as (J1 & J2 & J3 & J4 & J5 & J6).
  assert (R8 : nth_error (recorders s8) (S r) = Some session_recorder).
  { rewrite J5, I5. exact R6. }
  destruct (session_run Math_hypot (S r) evs4 s8 H4 J2 R8) as [E9 _].
  fold s9 in E9.
  destruct (session_vars_inv _ _ _ _ _ _ _ E9)
    as (K1 & K2 & K3 & K4 & K5 & K6).
  assert (R9 : nth_error (recorders s9) (S r) = Some session_recorder).
  { rewrite K5. exact R8. }
  pose proof (stopped_vars (S r) s9 R9) as E10. fold s10 in E10.
  destruct (session_vars_inv _ _ _ _ _ _ _ E10) as (_ & _ & _ & _ & _ & L6).
  split; [split; assumption|]. split; [split|].
  - rewrite G6, F6, D6, C6, B6, F4, D4. reflexivity.
  - exact G1.
  - rewrite L6, K6, J6, I6, K4, J4, I4, <- app_assoc. reflexivity.
Qed.

End Handlers.

(** X10, run: a recording is on; photo mode is chosen and the capture button is
    pressed twice: two photos, and the recording is still on. *)
Lemma photo_mode_keeps_recording_run :
  let s :=
    run hypot_sqrt [modeVideo_click; captureBtn_click] (boot ready_world) in
  let es := [captureBtn_click; animation_frame 1 16; captureBtn_click] in
  let s' := run hypot_sqrt (modePhoto_click :: es) s in
  recording s = true /\ recording s' = true /\
  recorder_calls (log s') = [recorder_start 0].
Proof.
  intros s es s'.
  destruct (photo_mode_keeps_recording hypot_sqrt es s
              ltac:(repeat constructor)) as (H1 & _ & H3).
  cbv zeta in H1, H3. fold s' in H1, H3.
  split; [reflexivity|]. rewrite H1, H3. split; reflexivity.
Defined.

(** X11, run: a recorder started without a time slice delivers its data
    when it is stopped.  The first recording is stopped and a second
    one started at once; the first recorder then delivers [chunk1]
    and reports its stop: the file saved holds [chunk1].  When the
    second recording is stopped, its recorder delivers [chunk2], and
    the file saved holds [chunk1] and [chunk2]. *)
Lemma restart_before_stop_event_run :
  let s := handle hypot_sqrt modeVideo_click (boot ready_world) in
  let es :=
    [captureBtn_click; captureBtn_click; captureBtn_click;
     recorder_dataavailable 0 chunk1; recorder_stopped 0;
     clock 9000 1700000009000;
     captureBtn_click; recorder_dataavailable 1 chunk2; recorder_stopped 1] in
  (currentMode s = "video" /\ recording s = false /\
   List.length (recorders s) = 0%nat) /\
  downloads (log (run hypot_sqrt es s)) =
  [(video_name 0, mkBlob "video/webm" (bytes chunk1));
   (video_name 1700000009000,
    mkBlob "video/webm" (bytes chunk1 ++ bytes chunk2))].
Proof.
  intros s es.
  split; [repeat split|].
  destruct (restart_before_stop_event hypot_sqrt s
              []
              [recorder_dataavailable 0 chunk1]
              [clock 9000 1700000009000]
              [recorder_dataavailable 1 chunk2]
              eq_refl eq_refl
              ltac:(constructor)
              ltac:(repeat (constructor; [left; reflexivity|]); constructor)
              ltac:(repeat constructor) ltac:(repeat constructor))
    as (_ & [H6 _] & H10).
  cbv zeta in H6, H10. rewrite H6 in H10. exact H10.
Defined.

End SessionFacts.

(** ** The page *)

Module PageFacts.

Import JS Cam Obs NumberFacts StateFacts StepFacts.
Import Page.
Open Scope string_scope.
Open Scope list_scope.
Open Scope float_scope.

(** *** Class lists *)

Lemma contains_app (c : string) (l l' : classList) :
  contains c (l ++ l') = contains c l || contains c l'.
Proof. unfold contains. apply existsb_app. Qed.

Lemma contains_add (c x : string) (l : classList) :
  contains c (classList_add x l) = contains c l || String.eqb c x.
Proof.
  unfold classList_add. destruct (contains x l) eqn:Hx.
  - destruct (String.eqb c x) eqn:E; [|rewrite orb_false_r; reflexivity].
    apply String.eqb_eq in E. subst x. rewrite Hx. reflexivity.
  - rewrite contains_app. cbn. rewrite orb_false_r. reflexivity.
Qed.

Lemma contains_remove (c x : string) (l : classList) :
  contains c (classList_remove x l) = contains c l && negb (String.eqb c x).
Proof.
  unfold contains, classList_remove.
  induction l as [|y l IH]; [reflexivity|]. cbn [filter existsb].
  destruct (String.eqb y x) eqn:Eyx; cbn [negb existsb]; rewrite IH.
  - apply String.eqb_eq in Eyx. subst y.
    destruct (String.eqb c x); cbn; [rewrite andb_false_r|]; reflexivity.
  - destruct (String.eqb c y) eqn:Ecy; [|reflexivity].
    apply String.eqb_eq in Ecy. subst y. rewrite Eyx. reflexivity.
Qed.

(** *** The shutter flash and the focus ring *)

Lemma chrome_inv (d d' : Doc) :
  chrome d' = chrome d ->
  shutterFlash_classes d' = shutterFlash_classes d /\
  focusRing_classes d' = focusRing_classes d /\
  timeouts d' = timeouts d /\ timeout_next d' = timeout_next d.
Proof.
  unfold chrome. intros H. injection H as H1 H2 H3 H4. auto.
Qed.

Lemma transient_ext (d d' : Doc) :
  chrome d' = chrome d ->
  timeouts_wf d /\ transient_classes d ->
  timeouts_wf d' /\ transient_classes d'.
Proof.
  intros H. apply chrome_inv in H. destruct H as (H1 & H2 & H3 & H4).
  unfold timeouts_wf, transient_classes, has_timeout.
  rewrite H1, H2, H3, H4. auto.
Qed.

Lemma transient_intro (d' : Doc) (fl rg : classList) (ts : list Timeout)
    (n : nat) :
  chrome d' = (fl, rg, ts, n) ->
  NoDup (map tid ts) -> Forall (fun t => (tid t < n)%nat) ts ->
  (contains "active" fl = true -> exists t, In t ts /\ callback t = flash_end) ->
  (contains "active" rg = true -> exists t, In t ts /\ callback t = ring_fade) ->
  (contains "fade-out" rg = true -> exists t, In t ts /\ callback t = ring_clear) ->
  timeouts_wf d' /\ transient_classes d'.
Proof.
  unfold chrome. intros H. injection H as H1 H2 H3 H4.
  unfold timeouts_wf, transient_classes, has_timeout.
  rewrite H1, H2, H3, H4. auto 10.
Qed.

Lemma has_timeout_new (cb : TimeoutCallback) (ms : float) (d : Doc) :
  has_timeout cb (setTimeout cb ms d).
Proof.
  exists (mkTimeout (timeout_next d) cb ms). split; [|reflexivity].
  change (timeouts (setTimeout cb ms d))
    with (timeouts d ++ [mkTimeout (timeout_next d) cb ms]).
  apply in_or_app. right. left. reflexivity.
Qed.

Lemma has_timeout_keep (cb cb' : TimeoutCallback) (ms : float) (d : Doc) :
  has_timeout cb d -> has_timeout cb (setTimeout cb' ms d).
Proof.
  intros (t & Hin & Hcb). exists t. split; [|exact Hcb].
  change (timeouts (setTimeout cb' ms d))
    with (timeouts d ++ [mkTimeout (timeout_next d) cb' ms]).
  apply in_or_app. left. exact Hin.
Qed.

Lemma timeouts_wf_setTimeout (cb : TimeoutCallback) (ms : float) (d : Doc) :
  timeouts_wf d -> timeouts_wf (setTimeout cb ms d).
Proof.
  unfold timeouts_wf. intros [Hnd Hlt].
  change (timeouts (setTimeout cb ms d))
    with (timeouts d ++ [mkTimeout (timeout_next d) cb ms]).
  change (timeout_next (setTimeout cb ms d)) with (S (timeout_next d)).
  rewrite Forall_forall in Hlt. split.
  - rewrite map_app. cbn [map tid].
    apply NoDup_app; [exact Hnd | repeat constructor; intros [] |].
    intros a Ha [Hb | []]. subst a. apply in_map_iff in Ha.
    destruct Ha as (t & Ht & Hin). specialize (Hlt t Hin). lia.
  - apply Forall_app. split.
    + apply Forall_forall. intros t Ht. specialize (Hlt t Ht). lia.
    + repeat constructor.
Qed.

Lemma timeouts_wf_filter (id : nat) (d : Doc) :
  timeouts_wf d ->
  timeouts_wf
    (set_timeouts (filter (fun u => negb (Nat.eqb (tid u) id)) (timeouts d)) d).
Proof.
  unfold timeouts_wf. intros [Hnd Hlt].
  change (timeouts (set_timeouts ?l d)) with l.
  change (timeout_next (set_timeouts ?l d)) with (timeout_next d).
  split.
  - clear Hlt. induction (timeouts d) as [|x l IH]; [constructor|].
    cbn [map] in Hnd. inversion Hnd as [|? ? Hx Hl]; subst.
    cbn [filter]. destruct (negb _); [|apply IH; exact Hl].
    cbn [map]. constructor; [|apply IH; exact Hl].
    intros Hin. apply Hx. apply in_map_iff in Hin.
    destruct Hin as (y & Hy & Hin). apply filter_In in Hin.
    rewrite <- Hy. apply in_map. apply Hin.
  - apply Forall_forall. intros p Hp. apply filter_In in Hp.
    rewrite Forall_forall in Hlt. apply Hlt. apply Hp.
Qed.

(** A timeout with another callback survives the one that fires. *)
Lemma has_timeout_filter (cb : TimeoutCallback) (t : Timeout) (d : Doc) :
  timeouts_wf d -> In t (timeouts d) -> callback t <> cb ->
  has_timeout cb d ->
  has_timeout cb
    (set_timeouts
       (filter (fun u => negb (Nat.eqb (tid u) (tid t))) (timeouts d)) d).
Proof.
  intros [Hnd _] Hin Hne (u & Hu & Hcb). exists u. split; [|exact Hcb].
  change (timeouts (set_timeouts ?l d)) with l.
  apply filter_In. split; [exact Hu|].
  apply negb_true_iff, Nat.eqb_neq. intros E.
  assert (u = t).
  { clear - Hnd Hin Hu E. induction (timeouts d) as [|x l IH]; [contradiction|].
    cbn [map] in Hnd. inversion Hnd as [|? ? Hx Hl]; subst.
    destruct Hin as [Hin | Hin], Hu as [Hu | Hu]; subst.
    - reflexivity.
    - exfalso. apply Hx. rewrite <- E. apply in_map. exact Hu.
    - exfalso. apply Hx. rewrite E. apply in_map. exact Hin.
    - apply IH; assumption. }
  subst u. contradiction.
Qed.

Lemma capturePhoto_chrome (d : Doc) :
  chrome (capturePhoto d) =
  (classList_add "active" (shutterFlash_classes d), focusRing_classes d,
   timeouts d ++ [mkTimeout (timeout_next d) flash_end 200],
   S (timeout_next d)).
Proof.
  unfold capturePhoto. destruct (shutterSoundToggle_checked _); reflexivity.
Qed.

Lemma nth_error_update_nth {A : Type} (f : A -> A) (l : list A) (i j : nat) :
  nth_error (update_nth i f l) j =
  if Nat.eqb j i then option_map f (nth_error l j) else nth_error l j.
Proof.
  revert i j. induction l as [|x l IH]; intros i j.
  - destruct i, j; cbn; try reflexivity. destruct (Nat.eqb j i); reflexivity.
  - destruct i as [|i], j as [|j]; cbn; try reflexivity. apply IH.
Qed.

Lemma length_update_nth {A : Type} (f : A -> A) (l : list A) (i : nat) :
  List.length (update_nth i f l) = List.length l.
Proof.
  revert i. induction l as [|x l IH]; intros i; [destruct i; reflexivity|].
  destruct i; cbn; [|rewrite IH]; reflexivity.
Qed.

Lemma filter_seq_eqb (i a n : nat) :
  (a <= i < a + n)%nat -> filter (fun j => Nat.eqb j i) (seq a n) = [i].
Proof.
  revert a. induction n as [|n IH]; intros a H; [lia|].
  cbn [seq filter]. destruct (Nat.eqb a i) eqn:E.
  - apply Nat.eqb_eq in E. subst a. f_equal.
    clear. assert (H : (i < S i)%nat) by lia. revert H.
    generalize (S i) as b. induction n as [|n IH]; intros b H; [reflexivity|].
    cbn [seq filter]. replace (Nat.eqb b i) with false
      by (symmetry; apply Nat.eqb_neq; lia).
    apply IH. lia.
  - apply Nat.eqb_neq in E. apply IH. lia.
Qed.

Section Handlers.

Variable Math_hypot : float -> float -> float.

(** Only a chip changes the filter, and only a mode button the mode. *)
Lemma currentFilter_frame (e : Cam.Event) (s : Sys) :
  currentFilter (Cam.handle Math_hypot e s) =
  match e with
  | Cam.filterChip_click f => f
  | _ => currentFilter s
  end.
Proof. destruct e; cbn [Cam.handle]; try reflexivity; step_cases. Qed.

Lemma currentMode_frame (e : Cam.Event) (s : Sys) :
  currentMode (Cam.handle Math_hypot e s) =
  match e with
  | modePhoto_click => "photo"
  | modeVideo_click => "video"
  | _ => currentMode s
  end.
Proof. destruct e; cbn [Cam.handle]; try reflexivity; step_cases. Qed.

(** What a page event does to the state of [Cam] is what the events of
    the script it amounts to do. *)
Lemma sys_handle (e : Event) (d : Doc) :
  sys (handle Math_hypot e d) = Cam.run Math_hypot (to_script d e) (sys d).
Proof.
  destruct e as [e | | | | | | | |]; cbn [handle to_script]; try reflexivity.
  - destruct e; try reflexivity.
    + unfold on_captureBtn_click. cbn [Cam.run fold_left Cam.handle].
      unfold Cam.on_captureBtn_click.
      destruct (String.eqb _ _).
      * unfold capturePhoto. destruct (shutterSoundToggle_checked _); reflexivity.
      * destruct (recording (sys d)); reflexivity.
    + unfold on_rejected. destruct (_ && _); reflexivity.
    + unfold on_rejected. destruct (_ && _); reflexivity.
  - unfold on_filterChip_click.
    destruct (nth_error (filterChips d) i); reflexivity.
  - unfold pending_timeout. destruct (find _ _) as [t|]; [|reflexivity].
    destruct (callback t); reflexivity.
  - destruct (mem_nat id (toBlob_pending d)); [|reflexivity].
    destruct blob; reflexivity.
Qed.

(** X12.  The page and the script.  What a sequence of page events does to
    the script's variables, the camera, the canvas and the recorder is
    what the script events among them do (a click on a chip being the
    choice of its filter): taps and the focus ring, timeouts, the
    settings drawer, the sound toggle, the save format and the end of
    a photo encoding change none of them. *)
Theorem page_over_script (es : list Event) (d : Doc) :
  sys (run Math_hypot es d) =
  Cam.run Math_hypot (script_events Math_hypot es d) (sys d).
Proof.
  revert d. induction es as [|e es IH]; intros d; [reflexivity|].
  cbn [run fold_left script_events].
  fold (run Math_hypot es (handle Math_hypot e d)).
  rewrite IH, sys_handle.
  unfold Cam.run. rewrite fold_left_app. reflexivity.
Qed.

(** The events that leave the flash, the ring and the timeouts alone. *)
Lemma chrome_frame (e : Event) (d : Doc) :
  match e with
  | pointerdown _ _ | timeout _ => False
  | script captureBtn_click => String.eqb (currentMode (sys d)) "photo" = false
  | _ => True
  end ->
  chrome (handle Math_hypot e d) = chrome d.
Proof.
  destruct e as [e | | | | | | | |]; intros He; try contradiction;
    cbn [handle]; try reflexivity.
  - destruct e; try reflexivity.
    + unfold on_captureBtn_click. rewrite He.
      destruct (recording (sys d)); reflexivity.
    + unfold on_rejected. destruct (_ && _); reflexivity.
    + unfold on_rejected. destruct (_ && _); reflexivity.
  - unfold on_filterChip_click.
    destruct (nth_error (filterChips d) i); reflexivity.
  - destruct (mem_nat id (toBlob_pending d)); [|reflexivity].
    destruct blob; reflexivity.
Qed.

Lemma transient_step (e : Event) (d : Doc) :
  timeouts_wf d /\ transient_classes d ->
  timeouts_wf (handle Math_hypot e d) /\
  transient_classes (handle Math_hypot e d).
Proof.
  intros Hinv.
  assert (Hsame : chrome (handle Math_hypot e d) = chrome d ->
                  timeouts_wf (handle Math_hypot e d) /\
                  transient_classes (handle Math_hypot e d)).
  { intros H. apply (transient_ext d); assumption. }
  destruct Hinv as [Hwf (Hflash & Hring & Hfade)].
  destruct e as [e | | x y | | | id | | |];
    try (apply Hsame; apply chrome_frame; exact I).
  - (* script *)
    destruct e; try (apply Hsame; apply chrome_frame; exact I).
    cbn [handle]. unfold on_captureBtn_click.
    destruct (String.eqb (currentMode (sys d)) "photo") eqn:Hm.
    + pose proof (timeouts_wf_setTimeout flash_end 200 d Hwf) as [W1 W2].
      apply (transient_intro _ _ _ _ _ (capturePhoto_chrome d));
        [exact W1 | exact W2 | | |].
      * intros _. exists (mkTimeout (timeout_next d) flash_end 200).
        split; [apply in_or_app; right; left|]; reflexivity.
      * intros H. destruct (Hring H) as (t & Ht & Hcb).
        exists t. split; [apply in_or_app; left; exact Ht | exact Hcb].
      * intros H. destruct (Hfade H) as (t & Ht & Hcb).
        exists t. split; [apply in_or_app; left; exact Ht | exact Hcb].
    + apply (transient_ext d);
        [destruct (recording (sys d)); reflexivity|].
      split; [exact Hwf | split; [|split]; assumption].
  - (* pointerdown *)
    cbn [handle]. unfold showFocusRing.
    split; [apply timeouts_wf_setTimeout; exact Hwf|].
    split; [|split].
    + intros H. apply has_timeout_keep. apply Hflash. exact H.
    + intros _. apply has_timeout_new.
    + intros H. apply has_timeout_keep. apply Hfade.
      change (contains "fade-out"
                (classList_add "active" (focusRing_classes d)) = true) in H.
      rewrite contains_add in H. cbn in H. rewrite orb_false_r in H. exact H.
  - (* timeout *)
    cbn [handle]. unfold pending_timeout.
    destruct (find _ (timeouts d)) as [t|] eqn:Hf;
      [|split; [exact Hwf | split; [|split]; assumption]].
    apply find_some in Hf. destruct Hf as [Hin Hid].
    apply Nat.eqb_eq in Hid. subst id.
    pose proof (timeouts_wf_filter (tid t) d Hwf) as Hwf1.
    set (d1 := set_timeouts _ d) in *.
    assert (Hk : forall cb, callback t <> cb -> has_timeout cb d ->
                            has_timeout cb d1).
    { intros cb Hne H. apply has_timeout_filter; assumption. }
    destruct (callback t) eqn:Hcb; cbn [call_timeout].
    + (* flash_end *)
      split; [exact Hwf1|]. split; [|split].
      * intros H.
        change (contains "active"
                  (classList_remove "active" (shutterFlash_classes d)) = true)
          in H.
        rewrite contains_remove in H. cbn in H. rewrite andb_false_r in H.
        discriminate.
      * intros H. apply Hk; [discriminate|]. apply Hring. exact H.
      * intros H. apply Hk; [discriminate|]. apply Hfade. exact H.
    + (* ring_fade *)
      split; [apply timeouts_wf_setTimeout; exact Hwf1|]. split; [|split].
      * intros H. apply has_timeout_keep. apply Hk; [discriminate|].
        apply Hflash. exact H.
      * intros H.
        change (contains "active"
                  (classList_add "fade-out"
                     (classList_remove "active" (focusRing_classes d))) = true)
          in H.
        rewrite contains_add, contains_remove in H. cbn in H.
        rewrite andb_false_r in H. discriminate.
      * intros _. apply has_timeout_new.
    + (* ring_clear *)
      split; [exact Hwf1|]. split; [|split].
      * intros H. apply Hk; [discriminate|]. apply Hflash. exact H.
      * intros H. apply Hk; [discriminate|]. apply Hring.
        change (contains "active"
                  (classList_remove "fade-out" (focusRing_classes d)) = true)
          in H.
        rewrite contains_remove in H. apply andb_true_iff in H. apply H.
      * intros H.
        change (contains "fade-out"
                  (classList_remove "fade-out" (focusRing_classes d)) = true)
          in H.
        rewrite contains_remove in H. cbn in H. rewrite andb_false_r in H.
        discriminate.
Qed.

(** X13.  The shutter flash and the focus ring.  On a page that starts
    without them, the [active] class of the flash and the [active]
    and [fade-out] classes of the ring are there only while a timeout
    that removes them is pending: after any sequence of taps,
    captures, timeouts and other events, once no timeout is pending
    the flash is off and the ring is neither shown nor fading,
    whatever the order in which overlapping timeouts fired. *)
Theorem flash_and_ring_end (es : list Event) (d : Doc) :
  timeouts d = [] ->
  contains "active" (shutterFlash_classes d) = false ->
  contains "active" (focusRing_classes d) = false ->
  contains "fade-out" (focusRing_classes d) = false ->
  let d' := run Math_hypot es d in
  timeouts d' = [] ->
  contains "active" (shutterFlash_classes d') = false /\
  contains "active" (focusRing_classes d') = false /\
  contains "fade-out" (focusRing_classes d') = false.
Proof.
  intros Ht H1 H2 H3 d' Hq.
  assert (Hinv : timeouts_wf d' /\ transient_classes d').
  { subst d'. clear Hq.
    assert (H0 : timeouts_wf d /\ transient_classes d).
    { unfold timeouts_wf, transient_classes. rewrite Ht, H1, H2, H3.
      repeat split; try constructor; discriminate. }
    clear Ht H1 H2 H3. revert d H0.
    induction es as [|e es IH]; intros d H0; [exact H0|].
    cbn [run fold_left]. fold (run Math_hypot es (handle Math_hypot e d)).
    apply IH. apply transient_step. exact H0. }
  destruct Hinv as [_ (Hflash & Hring & Hfade)].
  assert (Hno : forall cb, ~ has_timeout cb d').
  { intros cb (t & Hin & _). rewrite Hq in Hin. contradiction. }
  repeat split.
  - destruct (contains "active" (shutterFlash_classes d')); [|reflexivity].
    exfalso. apply (Hno flash_end). apply Hflash. reflexivity.
  - destruct (contains "active" (focusRing_classes d')); [|reflexivity].
    exfalso. apply (Hno ring_fade). apply Hring. reflexivity.
  - destruct (contains "fade-out" (focusRing_classes d')); [|reflexivity].
    exfalso. apply (Hno ring_clear). apply Hfade. reflexivity.
Qed.

(** *** The filter chips *)

Lemma filterChips_frame (e : Event) (d : Doc) :
  not_chip_click e ->
  filterChips (handle Math_hypot e d) = filterChips d /\
  currentFilter (sys (handle Math_hypot e d)) = currentFilter (sys d).
Proof.
  intros He. split.
  - destruct e as [e | | | | | | | |]; try contradiction; cbn [handle];
      try reflexivity.
    + destruct e; try reflexivity.
      * unfold on_captureBtn_click. destruct (String.eqb _ _).
        -- unfold capturePhoto.
           destruct (shutterSoundToggle_checked _); reflexivity.
        -- destruct (recording (sys d)); reflexivity.
      * unfold on_rejected. destruct (_ && _); reflexivity.
      * unfold on_rejected. destruct (_ && _); reflexivity.
    + unfold pending_timeout. destruct (find _ _) as [t|]; [|reflexivity].
      destruct (callback t); reflexivity.
    + destruct (mem_nat id (toBlob_pending d)); [|reflexivity].
      destruct blob; reflexivity.
  - rewrite sys_handle.
    destruct e as [e | | | | | | | |]; try contradiction; try reflexivity.
    destruct e; cbn [to_script Cam.run fold_left];
      rewrite ?currentFilter_frame; reflexivity.
Qed.

Lemma chip_click_effect (i : nat) (chip : Chip) (d : Doc) :
  nth_error (filterChips d) i = Some chip ->
  active_chips (handle Math_hypot (chip_click i) d) = [i] /\
  currentFilter (sys (handle Math_hypot (chip_click i) d)) =
  dataset_filter chip.
Proof.
  intros Hi. cbn [handle]. unfold on_filterChip_click. rewrite Hi.
  split; [|reflexivity].
  unfold active_chips.
  set (off := fun c => mkChip (dataset_filter c)
                         (classList_remove "active" (chip_classes c))).
  set (on := fun c => mkChip (dataset_filter c)
                        (classList_add "active" (chip_classes c))).
  match goal with
  | |- filter ?f (seq 0 (List.length ?l)) = _ =>
      change l with (update_nth i on (map off (filterChips d)));
      change f
        with (fun j =>
                match nth_error (update_nth i on (map off (filterChips d))) j with
                | Some c => contains "active" (chip_classes c)
                | None => false
                end)
  end.
  rewrite length_update_nth, length_map.
  assert (Hlt : (i < List.length (filterChips d))%nat)
    by (apply nth_error_Some; rewrite Hi; discriminate).
  rewrite <- (filter_seq_eqb i 0 (List.length (filterChips d))) by lia.
  apply filter_ext. intros j.
  rewrite nth_error_update_nth, nth_error_map.
  destruct (Nat.eqb j i) eqn:E.
  - apply Nat.eqb_eq in E. subst j. rewrite Hi.
    cbn [option_map]. unfold on, off. cbn [chip_classes].
    rewrite contains_add. cbn. apply orb_true_r.
  - destruct (nth_error (filterChips d) j) as [c|]; [|reflexivity].
    cbn [option_map]. unfold off. cbn [chip_classes].
    rewrite contains_remove. cbn. apply andb_false_r.
Qed.

(** X14.  The filter chips.  A click on a chip takes [active] away from
    every chip, gives it to the chip clicked and makes that chip's
    [data-filter] the current filter; nothing else touches either.
    So from the first click on, exactly one chip shows as selected,
    the one clicked last, and the filter drawn is its [data-filter]
    ([undefined] when the chip has none). *)
Theorem one_chip_selected (i : nat) (chip : Chip) (es : list Event) (d : Doc) :
  nth_error (filterChips d) i = Some chip ->
  Forall not_chip_click es ->
  let d' := run Math_hypot (chip_click i :: es) d in
  active_chips d' = [i] /\
  currentFilter (sys d') = dataset_filter chip /\
  map dataset_filter (filterChips d') = map dataset_filter (filterChips d).
Proof.
  intros Hi Hes d'. subst d'. cbn [run fold_left].
  fold (run Math_hypot es (handle Math_hypot (chip_click i) d)).
  destruct (chip_click_effect i chip d Hi) as [H1 H2].
  assert (H3 : map dataset_filter
                 (filterChips (handle Math_hypot (chip_click i) d)) =
               map dataset_filter (filterChips d)).
  { cbn [handle]. unfold on_filterChip_click. rewrite Hi.
    match goal with
    | |- map _ (filterChips ?x) = _ =>
        set (l := filterChips x)
    end.
    apply nth_error_ext. intros j. subst l.
    rewrite !nth_error_map.
    match goal with
    | |- context [nth_error ?l j] =>
        change l with
          (update_nth i
             (fun c => mkChip (dataset_filter c)
                         (classList_add "active" (chip_classes c)))
             (map (fun c => mkChip (dataset_filter c)
                              (classList_remove "active" (chip_classes c)))
                (filterChips d)))
    end.
    rewrite nth_error_update_nth, nth_error_map.
    destruct (Nat.eqb j i);
      destruct (nth_error (filterChips d) j); reflexivity. }
  revert H1 H2 H3. generalize (handle Math_hypot (chip_click i) d) as d1.
  induction Hes as [|e es He Hes IH]; intros d1 H1 H2 H3; [auto|].
  cbn [run fold_left]. fold (run Math_hypot es (handle Math_hypot e d1)).
  destruct (filterChips_frame e d1 He) as [F1 F2].
  apply IH.
  - unfold active_chips in *. rewrite F1. exact H1.
  - rewrite F2. exact H2.
  - rewrite F1. exact H3.
Qed.

(** *** The mode buttons *)

Lemma mode_step (e : Event) (d : Doc) :
  mode_shown d -> mode_shown (handle Math_hypot e d).
Proof.
  unfold mode_shown. intros [H1 H2].
  assert (Hsame : forall d',
             (modePhotoBtn_classes d', modeVideoBtn_classes d',
              currentMode (sys d')) =
             (modePhotoBtn_classes d, modeVideoBtn_classes d,
              currentMode (sys d)) ->
             contains "active" (modePhotoBtn_classes d') =
               String.eqb (currentMode (sys d')) "photo" /\
             contains "active" (modeVideoBtn_classes d') =
               String.eqb (currentMode (sys d')) "video").
  { intros d' H. injection H as E1 E2 E3. rewrite E1, E2, E3. auto. }
  destruct e as [e | | | | | | | |]; cbn [handle];
    try (apply Hsame; reflexivity).
  - destruct e;
      try (apply Hsame; cbn [handle];
           change (currentMode (sys (lift ?f d))) with (currentMode (f (sys d)));
           rewrite ?currentMode_frame; reflexivity).
    + (* modePhoto_click *)
      unfold on_modePhoto_click.
      change (contains "active" (classList_add "active" (modePhotoBtn_classes d)) =
                true /\
              contains "active"
                (classList_remove "active" (modeVideoBtn_classes d)) = false).
      rewrite contains_add, contains_remove. cbn.
      rewrite orb_true_r, andb_false_r. auto.
    + unfold on_modeVideo_click.
      change (contains "active"
                (classList_remove "active" (modePhotoBtn_classes d)) = false /\
              contains "active" (classList_add "active" (modeVideoBtn_classes d)) =
                true).
      rewrite contains_add, contains_remove. cbn.
      rewrite orb_true_r, andb_false_r. auto.
    + (* captureBtn_click *)
      apply Hsame. unfold on_captureBtn_click.
      destruct (String.eqb _ _).
      * unfold capturePhoto.
        destruct (shutterSoundToggle_checked _); reflexivity.
      * destruct (recording (sys d)) eqn:Hr.
        -- change (currentMode (sys (lift stopRecording d)))
             with (currentMode (stopRecording (sys d))).
           unfold stopRecording. step_cases.
        -- reflexivity.
    + apply Hsame. unfold on_rejected. destruct (_ && _); reflexivity.
    + apply Hsame. unfold on_rejected. destruct (_ && _); reflexivity.
  - apply Hsame. unfold on_filterChip_click.
    destruct (nth_error (filterChips d) i); reflexivity.
  - apply Hsame. unfold pending_timeout.
    destruct (find _ _) as [t|]; [|reflexivity].
    destruct (callback t); reflexivity.
  - apply Hsame. destruct (mem_nat id (toBlob_pending d)); [|reflexivity].
    destruct blob; reflexivity.
Qed.

(** X15.  The mode buttons.  Each mode button sets [currentMode], takes
    [active] for itself and takes it from the other button, and no
    other handler touches the mode or these classes: from the first
    press of a mode button on, after any sequence of events, the photo
    button is [active] exactly when the mode is ["photo"] and the video
    button exactly when it is ["video"]. *)
Theorem mode_buttons_show_mode (e0 : Cam.Event) (es : list Event) (d : Doc) :
  e0 = modePhoto_click \/ e0 = modeVideo_click ->
  mode_shown (run Math_hypot (script e0 :: es) d).
Proof.
  intros He0. cbn [run fold_left].
  fold (run Math_hypot es (handle Math_hypot (script e0) d)).
  assert (H0 : mode_shown (handle Math_hypot (script e0) d)).
  { destruct He0; subst e0; cbn [handle]; unfold mode_shown.
    - unfold on_modePhoto_click.
      change (contains "active" (classList_add "active" (modePhotoBtn_classes d)) =
                true /\
              contains "active"
                (classList_remove "active" (modeVideoBtn_classes d)) = false).
      rewrite contains_add, contains_remove. cbn.
      rewrite orb_true_r, andb_false_r. auto.
    - unfold on_modeVideo_click.
      change (contains "active"
                (classList_remove "active" (modePhotoBtn_classes d)) = false /\
              contains "active" (classList_add "active" (modeVideoBtn_classes d)) =
                true).
      rewrite contains_add, contains_remove. cbn.
      rewrite orb_true_r, andb_false_r. auto. }
  revert H0. generalize (handle Math_hypot (script e0) d) as d1.
  induction es as [|e es IH]; intros d1 H0; [exact H0|].
  cbn [run fold_left]. fold (run Math_hypot es (handle Math_hypot e d1)).
  apply IH. apply mode_step. exact H0.
Qed.

(** *** Photo capture *)

Lemma mem_nat_In (n : nat) (l : list nat) : mem_nat n l = true <-> In n l.
Proof.
  unfold mem_nat. rewrite existsb_exists. split.
  - intros (x & Hx & E). apply Nat.eqb_eq in E. subst x. exact Hx.
  - intros H. exists n. split; [exact H | apply Nat.eqb_refl].
Qed.

Lemma capturePhoto_log (d : Doc) :
  doc_log (capturePhoto d) =
  doc_log d ++
  (if shutterSoundToggle_checked d
   then [shutter_sound "square" 1200 0.1 0.05] else []) ++
  [canvas_toBlob (toBlob_next d)
     ("image/" ++ saveFormatSelect_value d)%string 0.95] /\
  toBlob_pending (capturePhoto d) = toBlob_pending d ++ [toBlob_next d].
Proof.
  unfold capturePhoto.
  match goal with
  | |- context [if ?c then _ else _] =>
      change c with (shutterSoundToggle_checked d)
  end.
  destruct (shutterSoundToggle_checked d).
  - split; [|reflexivity].
    transitivity
      ((doc_log d ++ [shutter_sound "square" 1200 0.1 0.05]) ++
       [canvas_toBlob (toBlob_next d)
          ("image/" ++ saveFormatSelect_value d)%string 0.95]);
      [reflexivity|].
    rewrite <- app_assoc. reflexivity.
  - split; reflexivity.
Qed.

Lemma toBlob_pending_step (id : nat) (e : Event) (d : Doc) :
  other_encoding id e ->
  In id (toBlob_pending d) ->
  In id (toBlob_pending (handle Math_hypot e d)).
Proof.
  intros He Hin.
  destruct e as [e | | | | | | j blob | |]; cbn [handle]; try exact Hin.
  - destruct e; try exact Hin.
    + unfold on_captureBtn_click. destruct (String.eqb _ _).
      * rewrite (proj2 (capturePhoto_log d)). apply in_or_app. left. exact Hin.
      * destruct (recording (sys d)); exact Hin.
    + unfold on_rejected. destruct (_ && _); exact Hin.
    + unfold on_rejected. destruct (_ && _); exact Hin.
  - unfold on_filterChip_click.
    destruct (nth_error (filterChips d) i); exact Hin.
  - unfold pending_timeout. destruct (find _ _) as [t|]; [|exact Hin].
    destruct (callback t); exact Hin.
  - destruct (mem_nat j (toBlob_pending d)); [|exact Hin].
    assert (Hk : In id (remove_nat j (toBlob_pending d))).
    { unfold remove_nat. apply filter_In. split; [exact Hin|].
      apply negb_true_iff, Nat.eqb_neq. intros E. apply He. symmetry. exact E. }
    destruct blob; exact Hk.
Qed.

(** X16.  Photo capture.  In photo mode a press of the capture button plays
    the shutter sound when the toggle is checked and asks for one
    encoding of the canvas, as [image/<format>] for the save format
    selected at the press, with quality 0.95.  When that encoding
    ends, whatever happened meanwhile, one object URL is made for the
    blob, the download link is clicked once and the URL is revoked;
    the file is named after [Date.now()] and the save format selected
    at that moment (the extension follows the select, not the format
    that was encoded).  When the canvas could not be encoded ([null])
    nothing is downloaded. *)
Theorem photo_download (b : Blob) (es : list Event) (d : Doc) :
  currentMode (sys d) = "photo" ->
  Forall (other_encoding (toBlob_next d)) es ->
  let id := toBlob_next d in
  let d1 := handle Math_hypot (script captureBtn_click) d in
  let d2 := run Math_hypot es d1 in
  let d3 := handle Math_hypot (toBlob_done id (Some b)) d2 in
  doc_log d1 =
    doc_log d ++
    (if shutterSoundToggle_checked d
     then [shutter_sound "square" 1200 0.1 0.05] else []) ++
    [canvas_toBlob id ("image/" ++ saveFormatSelect_value d)%string 0.95] /\
  doc_log d3 =
    doc_log d2 ++
    [createObjectURL (url_next d2) b;
     downloadLink_click (url_next d2)
       (mkPhotoName (Date_now (sys d2)) (saveFormatSelect_value d2));
     revokeObjectURL (url_next d2)] /\
  doc_log (handle Math_hypot (toBlob_done id None) d2) = doc_log d2.
Proof.
  intros Hm Hes id d1 d2 d3.
  assert (E1 : d1 = capturePhoto d).
  { subst d1. cbn [handle]. unfold on_captureBtn_click. rewrite Hm.
    reflexivity. }
  destruct (capturePhoto_log d) as [L1 P1]. rewrite <- E1 in L1, P1.
  split; [exact L1|].
  assert (Hin : In id (toBlob_pending d2)).
  { subst d2.
    assert (H1 : In id (toBlob_pending d1))
      by (rewrite P1; apply in_or_app; right; left; reflexivity).
    clear - Hes H1. revert H1. generalize d1 as x.
    induction Hes as [|e es He Hes IH]; intros x H1; [exact H1|].
    cbn [run fold_left]. fold (run Math_hypot es (handle Math_hypot e x)).
    apply IH. apply toBlob_pending_step; assumption. }
  apply mem_nat_In in Hin.
  split.
  - subst d3. cbn [handle]. rewrite Hin. unfold toBlob_callback.
    transitivity
      (((doc_log d2 ++ [createObjectURL (url_next d2) b]) ++
        [downloadLink_click (url_next d2)
           (mkPhotoName (Date_now (sys d2)) (saveFormatSelect_value d2))]) ++
       [revokeObjectURL (url_next d2)]); [reflexivity|].
    rewrite <- !app_assoc. reflexivity.
  - cbn [handle]. rewrite Hin. reflexivity.
Qed.

Lemma digits_of_uint (u : Decimal.uint) :
  forallb is_digit (list_ascii_of_string (NilEmpty.string_of_uint u)) = true.
Proof. induction u; cbn; try reflexivity; exact IHu. Qed.

Lemma digits_of_uint_zero (u : Decimal.uint) :
  forallb is_digit (list_ascii_of_string (NilZero.string_of_uint u)) = true /\
  NilZero.string_of_uint u <> "".
Proof.
  destruct u; cbn [NilZero.string_of_uint];
    (split; [try reflexivity; apply digits_of_uint | cbn; discriminate]).
Qed.

(** X17.  The name of a photo.  [Date.now()] is a whole number of
    milliseconds; when it is not negative (and below [2^53], as every
    time value is) the name given to the download is the text
    [photo_], its decimal digits, a dot and the save format:
    [photo_<digits>.jpeg] for the format [jpeg]. *)
Theorem photo_file_name (n : PhotoName) (z : Z) :
  integer_value (stamp n) = Some z -> (0 <= z < 2 ^ 53)%Z ->
  exists digits,
    PhotoName_text n = Some ("photo_" ++ digits ++ "." ++ ext n)%string /\
    digits <> "" /\
    forallb is_digit (list_ascii_of_string digits) = true.
Proof.
  intros Hz Hr. unfold PhotoName_text, Number_toString. rewrite Hz.
  replace (Z.abs z <? 2 ^ 53)%Z with true
    by (symmetry; apply Z.ltb_lt; lia).
  assert (Hp : exists u, Z.to_int z = Decimal.Pos u).
  { destruct z as [|p|p]; [eexists; reflexivity | eexists; reflexivity | lia]. }
  destruct Hp as [u Hu].
  exists (NilZero.string_of_uint u). rewrite Hu. cbn [option_map].
  destruct (digits_of_uint_zero u) as [H1 H2].
  split; [reflexivity|]. split; assumption.
Qed.

(** *** Camera failures *)

Lemma alerts_app (l l' : list DocEffect) :
  alerts (l ++ l') = (alerts l + alerts l')%nat.
Proof. unfold alerts. rewrite filter_app, length_app. reflexivity. Qed.

Lemma alerts_step (req : nat) (e : Event) (d : Doc) :
  boot_request d = req -> not_rejected req e ->
  boot_request (handle Math_hypot e d) = req /\
  alerts (doc_log (handle Math_hypot e d)) = alerts (doc_log d).
Proof.
  intros Hb He.
  destruct e as [e | | | | | | j blob | |]; cbn [handle];
    try (split; [exact Hb | reflexivity]).
  - destruct e; try (split; [exact Hb | reflexivity]).
    + unfold on_captureBtn_click. destruct (String.eqb _ _).
      * split; [unfold capturePhoto;
                destruct (shutterSoundToggle_checked _); exact Hb|].
        rewrite (proj1 (capturePhoto_log d)), alerts_app.
        destruct (shutterSoundToggle_checked d); cbn; lia.
      * destruct (recording (sys d)); split; first [exact Hb | reflexivity].
    + unfold on_rejected. cbn in He.
      replace (Nat.eqb req0 (boot_request d)) with false
        by (symmetry; apply Nat.eqb_neq; rewrite Hb; exact He).
      split; [exact Hb | reflexivity].
    + unfold on_rejected. cbn in He.
      replace (Nat.eqb req0 (boot_request d)) with false
        by (symmetry; apply Nat.eqb_neq; rewrite Hb; exact He).
      split; [exact Hb | reflexivity].
  - unfold on_filterChip_click.
    destruct (nth_error (filterChips d) i); split; first [exact Hb | reflexivity].
  - unfold pending_timeout. destruct (find _ _) as [t|];
      [|split; [exact Hb | reflexivity]].
    destruct (callback t); split; first [exact Hb | reflexivity].
  - destruct (mem_nat j (toBlob_pending d)); [|split; [exact Hb | reflexivity]].
    destruct blob; [|split; [exact Hb | reflexivity]].
    split; [exact Hb|]. unfold toBlob_callback.
    transitivity
      (alerts
         (((doc_log d ++ [createObjectURL (url_next d) b]) ++
           [downloadLink_click (url_next d)
              (mkPhotoName (Date_now (sys d)) (saveFormatSelect_value d))]) ++
          [revokeObjectURL (url_next d)])); [reflexivity|].
    rewrite !alerts_app. cbn. lia.
Qed.

(** No handler changes which request is the one made at load. *)
Lemma boot_request_handle (e : Event) (d : Doc) :
  boot_request (handle Math_hypot e d) = boot_request d.
Proof.
  destruct e as [e | | | | | | j blob | |]; cbn [handle]; try reflexivity.
  - destruct e; try reflexivity.
    + unfold on_captureBtn_click, capturePhoto.
      destruct (String.eqb _ _);
        [destruct (shutterSoundToggle_checked _); reflexivity|].
      destruct (recording (sys d)); reflexivity.
    + unfold on_rejected. destruct (_ && _); reflexivity.
    + unfold on_rejected. destruct (_ && _); reflexivity.
  - unfold on_filterChip_click.
    destruct (nth_error (filterChips d) i); reflexivity.
  - unfold pending_timeout. destruct (find _ _) as [t|]; [|reflexivity].
    destruct (callback t); reflexivity.
  - destruct (mem_nat j (toBlob_pending d)); [|reflexivity].
    destruct blob; reflexivity.
Qed.

Lemma boot_request_run (es : list Event) (d : Doc) :
  boot_request (run Math_hypot es d) = boot_request d.
Proof.
  revert d. induction es as [|e es IH]; intros d; [reflexivity|].
  cbn [run fold_left]. fold (run Math_hypot es (handle Math_hypot e d)).
  rewrite IH. apply boot_request_handle.
Qed.

(** What a rejection does to the page's log: the [catch] when the
    request is the one made at load and is pending, nothing otherwise. *)
Lemma on_rejected_log (e : Cam.Event) (req : nat) (pending : list nat)
    (d : Doc) :
  doc_log (on_rejected Math_hypot e req pending d) =
  doc_log d ++
  (if Nat.eqb req (boot_request d) && mem_nat req pending
   then [console_error "Camera init failed:";
         alert "Camera access failed. Please allow camera permissions."]
   else []).
Proof.
  unfold on_rejected. destruct (_ && _).
  - unfold boot_catch.
    transitivity
      ((doc_log d ++ [console_error "Camera init failed:"]) ++
       [alert "Camera access failed. Please allow camera permissions."]);
      [reflexivity|].
    rewrite <- app_assoc. reflexivity.
  - rewrite app_nil_r. reflexivity.
Qed.

(** X18.  Camera failures.  Only the [initCamera()] call made at load
    has a [catch], and it covers both of the call's [await]s.  The
    request of that call is pending at load.  At any point of any
    run, when that request is refused while it is pending, or the
    [video.play()] of that call is rejected while it is pending, the
    page logs an error and shows one alert; the same failure of any
    other call (one made by the camera switch or by the frame-rate
    select) logs nothing.  And as long as neither the request nor the
    [play()] of the call made at load is rejected, no alert is shown,
    whatever else happens. *)
Theorem camera_failure_alert (w : World) (html : Doc) (es : list Event) :
  let r0 := gum_next w in
  let d := run Math_hypot es (boot w html) in
  let report :=
    [console_error "Camera init failed:";
     alert "Camera access failed. Please allow camera permissions."] in
  mem_nat r0 (gum_pending (sys (boot w html))) = true /\
  (mem_nat r0 (gum_pending (sys d)) = true ->
   doc_log (handle Math_hypot (script (getUserMedia_rejected r0)) d) =
   doc_log d ++ report) /\
  (mem_nat r0 (play_pending (sys d)) = true ->
   doc_log (handle Math_hypot (script (play_rejected r0)) d) =
   doc_log d ++ report) /\
  (forall r, r <> r0 ->
     doc_log (handle Math_hypot (script (getUserMedia_rejected r)) d) =
     doc_log d /\
     doc_log (handle Math_hypot (script (play_rejected r)) d) = doc_log d) /\
  (Forall (not_rejected r0) es ->
   alerts (doc_log d) = alerts (doc_log html)).
Proof.
  intros r0 d report.
  assert (Hb : boot_request d = r0).
  { subst d. rewrite boot_request_run. reflexivity. }
  split; [|split; [|split; [|split]]].
  - apply mem_nat_In. subst r0. unfold boot.
    change (sys (set_boot_request _ (set_sys ?s _))) with s.
    unfold Cam.boot. destruct (initCamera_eq (initial w)) as [lv ->].
    change (In (gum_next w) (gum_pending w ++ [gum_next w])).
    apply in_or_app. right. left. reflexivity.
  - intros Hp. cbn [handle]. rewrite on_rejected_log, Hb, Hp, Nat.eqb_refl.
    reflexivity.
  - intros Hp. cbn [handle]. rewrite on_rejected_log, Hb, Hp, Nat.eqb_refl.
    reflexivity.
  - intros r Hr. cbn [handle]. rewrite !on_rejected_log, Hb.
    apply Nat.eqb_neq in Hr. rewrite Hr. cbn [andb].
    rewrite app_nil_r. split; reflexivity.
  - intros Hes. clear Hb. subst d.
    change (alerts (doc_log html)) with (alerts (doc_log (boot w html))).
    assert (Hb0 : boot_request (boot w html) = r0) by reflexivity.
    revert Hb0. generalize (boot w html).
    induction Hes as [|e es He Hes IH]; intros d0 Hb0; [reflexivity|].
    cbn [run fold_left]. fold (run Math_hypot es (handle Math_hypot e d0)).
    destruct (alerts_step r0 e d0 Hb0 He) as [H1 H2].
    rewrite (IH _ H1). exact H2.
Qed.

End Handlers.

(** X13, run: a capture and two taps, with the timeouts firing out of order:
    when the last one has fired the flash is off and the ring is
    gone. *)
Lemma flash_and_ring_end_run :
  let d := boot ready_world sample_html in
  let es :=
    [script captureBtn_click; pointerdown 100 200; pointerdown 120 220;
     timeout 3; timeout 1; timeout 2; timeout 5; timeout 4] in
  let d' := run hypot_sqrt es d in
  (contains "active" (shutterFlash_classes (run hypot_sqrt [script captureBtn_click] d)) = true /\
   timeouts d' = []) /\
  contains "active" (shutterFlash_classes d') = false /\
  contains "active" (focusRing_classes d') = false /\
  contains "fade-out" (focusRing_classes d') = false.
Proof.
  intros d es d'. split; [split; reflexivity|].
  apply (flash_and_ring_end hypot_sqrt es d eq_refl eq_refl eq_refl eq_refl
           eq_refl).
Defined.

(** X14, run: the fourth chip is clicked, then the page is used: that chip
    alone shows as selected, and frames are drawn with its filter. *)
Lemma one_chip_selected_run :
  let d := boot ready_world sample_html in
  let es := [script (zoomSlider_input 2); pointerdown 10 10; settingsBtn_click] in
  let d' := run hypot_sqrt (chip_click 3 :: es) d in
  active_chips d = [0%nat] /\
  active_chips d' = [3%nat] /\
  currentFilter (sys d') = Some "cinema".
Proof.
  intros d es d'. split; [reflexivity|].
  destruct (one_chip_selected hypot_sqrt 3 (mkChip (Some "cinema") ["filter-chip"])
              es d eq_refl ltac:(repeat constructor)) as (H1 & H2 & _).
  split; [exact H1 | exact H2].
Defined.

(** X15, run: video mode is chosen, a recording is started, then photo mode is
    chosen: the buttons show photo mode. *)
Lemma mode_buttons_show_mode_run :
  let d := boot ready_world sample_html in
  let d' :=
    run hypot_sqrt
      [script modeVideo_click; script captureBtn_click; script modePhoto_click] d in
  mode_shown d' /\
  contains "active" (modePhotoBtn_classes d') = true /\
  contains "active" (modeVideoBtn_classes d') = false.
Proof.
  intros d d'. split; [|split; reflexivity].
  apply (mode_buttons_show_mode hypot_sqrt modeVideo_click
           [script captureBtn_click; script modePhoto_click] d).
  right. reflexivity.
Defined.

(** X16, run: a photo is taken with the format set to [png]; before the
    encoding ends the format is changed to [jpeg]: the blob was asked
    for as [image/png], and the file is named [.jpeg]. *)
Lemma photo_download_run :
  let d := boot ready_world sample_html in
  let es := [saveFormatSelect_change "jpeg"; script (clock 5 1700000000123)] in
  let d3 :=
    run hypot_sqrt
      (script captureBtn_click :: es ++ [toBlob_done 0 (Some chunk1)]) d in
  currentMode (sys d) = "photo" /\
  doc_log d3 =
  [shutter_sound "square" 1200 0.1 0.05;
   canvas_toBlob 0 "image/png" 0.95;
   createObjectURL 0 chunk1;
   downloadLink_click 0 (mkPhotoName 1700000000123 "jpeg");
   revokeObjectURL 0].
Proof.
  intros d es d3. split; [reflexivity|].
  destruct (photo_download hypot_sqrt chunk1 es d eq_refl
              ltac:(repeat constructor)) as (H1 & H2 & _).
  cbv zeta in H1, H2.
  refine (eq_trans H2 _). reflexivity.
Defined.

(** X17, run: the photo of the run above is called [photo_1700000000123.jpeg]. *)
Lemma photo_file_name_run :
  let n := mkPhotoName 1700000000123 "jpeg" in
  integer_value (stamp n) = Some 1700000000123%Z /\
  (exists digits,
      PhotoName_text n = Some ("photo_" ++ digits ++ "." ++ ext n)%string /\
      digits <> "" /\
      forallb is_digit (list_ascii_of_string digits) = true) /\
  PhotoName_text n = Some "photo_1700000000123.jpeg".
Proof.
  intros n. split; [reflexivity|]. split; [|reflexivity].
  apply (photo_file_name n 1700000000123 eq_refl). lia.
Defined.

(** X18, run: the camera starts; the camera switch is pressed and its
    request is refused: nothing is logged, and no alert is shown.  Had
    the request made at load been refused, or had the camera answered
    and [play()] been rejected: one alert. *)
Lemma camera_failure_alert_run :
  let d0 := boot ready_world sample_html in
  let es :=
    [script (getUserMedia_fulfilled 0 1); script (play_fulfilled 0);
     script switchCameraBtn_click] in
  let refused := script (getUserMedia_rejected 1) in
  doc_log (run hypot_sqrt (es ++ [refused]) d0) = [] /\
  alerts (doc_log (run hypot_sqrt (es ++ [refused]) d0)) = 0%nat /\
  alerts (doc_log (run hypot_sqrt [script (getUserMedia_rejected 0)] d0)) =
    1%nat /\
  alerts
    (doc_log
       (run hypot_sqrt
          [script (getUserMedia_fulfilled 0 1); script (play_rejected 0)] d0)) =
    1%nat.
Proof.
  intros d0 es refused.
  destruct (camera_failure_alert hypot_sqrt ready_world sample_html es)
    as (_ & _ & _ & H4 & _).
  destruct (camera_failure_alert hypot_sqrt ready_world sample_html
              (es ++ [refused])) as (_ & _ & _ & _ & H5).
  destruct (camera_failure_alert hypot_sqrt ready_world sample_html [])
    as (Hp & H2 & _).
  destruct (camera_failure_alert hypot_sqrt ready_world sample_html
              [script (getUserMedia_fulfilled 0 1)]) as (_ & _ & H3 & _).
  cbv zeta in H2, H3, H4, H5. subst d0.
  split; [|split; [|split]].
  - unfold run. rewrite fold_left_app. cbn [fold_left].
    destruct (H4 1%nat ltac:(discriminate)) as [H _]. exact H.
  - rewrite H5; [reflexivity|]. repeat constructor; discriminate.
  - unfold run. cbn [fold_left]. unfold run in H2. cbn [fold_left] in H2.
    cbn [gum_next ready_world dom] in H2.
    rewrite (H2 eq_refl). reflexivity.
  - unfold run. cbn [fold_left]. unfold run in H3. cbn [fold_left] in H3.
    cbn [gum_next ready_world dom] in H3.
    rewrite (H3 eq_refl). reflexivity.
Defined.

End PageFacts.

(** ** Whole numbers in binary64, and the film grain pass *)

Module GrainFacts.

Import JS NumberFacts Grain.
Open Scope string_scope.
Open Scope list_scope.
Open Scope float_scope.

(** [p] shifted left by [n] bits. *)
Lemma shl_shift (p : positive) (n : positive) :
  Z.pos (Pos.iter xO p n) = (Z.pos p * 2 ^ Z.pos n)%Z.
Proof.
  revert p. induction n as [n IH | n IH |]; intros p; cbn [Pos.iter].
  - assert (E : (Z.pos n~1 = Z.pos n + Z.pos n + 1)%Z) by lia.
    rewrite E, !Z.pow_add_r by lia.
    change (Z.pos (Pos.iter xO (Pos.iter xO p n) n)~0)
      with (2 * Z.pos (Pos.iter xO (Pos.iter xO p n) n))%Z.
    rewrite !IH. lia.
  - assert (E : (Z.pos n~0 = Z.pos n + Z.pos n)%Z) by lia.
    rewrite E, !Z.pow_add_r by lia. rewrite !IH. lia.
  - lia.
Qed.

Lemma digits_shift (p : positive) (n : positive) :
  digits2_pos (Pos.iter xO p n) = (digits2_pos p + n)%positive.
Proof.
  revert p. induction n as [n IH | n IH |]; intros p; cbn [Pos.iter digits2_pos].
  - rewrite !IH. lia.
  - rewrite !IH. lia.
  - lia.
Qed.

Lemma shr_shift (p : positive) (n : positive) :
  iter_pos shr_1 n (Build_shr_record (Z.pos (Pos.iter xO p n)) false false) =
  Build_shr_record (Z.pos p) false false.
Proof.
  revert p. induction n as [n IH | n IH |]; intros p;
    cbn [Pos.iter iter_pos shr_1 orb].
  - rewrite !IH. reflexivity.
  - rewrite !IH. reflexivity.
  - reflexivity.
Qed.

Lemma digits_bound (p : positive) (n : Z) :
  (Z.pos p < 2 ^ n)%Z -> (0 <= n)%Z -> (Z.pos (digits2_pos p) <= n)%Z.
Proof.
  revert n. induction p as [p IH | p IH |]; intros n Hp Hn;
    cbn [digits2_pos].
  - assert (n <> 0)%Z by (intros ->; cbn in Hp; lia).
    replace n with (Z.succ (n - 1))%Z in Hp by lia.
    rewrite Z.pow_succ_r in Hp by lia.
    specialize (IH (n - 1)%Z). lia.
  - assert (n <> 0)%Z by (intros ->; cbn in Hp; lia).
    replace n with (Z.succ (n - 1))%Z in Hp by lia.
    rewrite Z.pow_succ_r in Hp by lia.
    specialize (IH (n - 1)%Z). lia.
  - assert (n <> 0)%Z by (intros ->; cbn in Hp; lia). lia.
Qed.

Lemma digits_one (p : positive) : digits2_pos p = 1%positive -> p = 1%positive.
Proof. destruct p; cbn [digits2_pos]; intros H; try lia. Qed.

(** The mantissa of [whole p] has 53 bits. *)
Lemma whole_digits (p : positive) :
  (Z.pos (digits2_pos p) <= 53)%Z ->
  digits2_pos (fst (shl_align p 0 (Z.pos (digits2_pos p) - 53))) = 53%positive.
Proof.
  intros HL. unfold shl_align. rewrite Z.sub_0_r.
  destruct (Z.pos (digits2_pos p) - 53)%Z as [|d|d] eqn:E; cbn [fst]; try lia.
  rewrite digits_shift. lia.
Qed.

Lemma whole_valid (p : positive) :
  (Z.pos (digits2_pos p) <= 53)%Z -> valid_binary (whole p) = true.
Proof.
  intros HL. unfold whole. cbv zeta.
  unfold valid_binary, bounded, canonical_mantissa.
  pose proof (whole_digits p HL) as Hd. rewrite Hd. unfold fexp, SpecFloat.emin.
  apply andb_true_iff. split; [apply Z.eqb_eq | apply Z.leb_le];
    change prec with 53%Z; change emax with 1024%Z; lia.
Qed.

(** Rounding a mantissa of 53 bits leaves it as it is. *)
Lemma round_whole (p : positive) :
  (Z.pos (digits2_pos p) <= 53)%Z ->
  let e := (Z.pos (digits2_pos p) - 53)%Z in
  binary_round_aux 53 1024 false (Z.pos (fst (shl_align p 0 e))) e loc_Exact =
  whole p.
Proof.
  intros HL e. unfold whole. fold e.
  pose proof (whole_digits p HL) as Hd. fold e in Hd.
  apply binary_round_aux_canonical; [|subst e; lia].
  rewrite Hd. subst e. lia.
Qed.

(** An integer of at most 53 bits is a number. *)
Lemma normalize_whole (p : positive) :
  (Z.pos (digits2_pos p) <= 53)%Z ->
  binary_normalize 53 1024 (Z.pos p) 0 false = whole p.
Proof.
  intros HL. unfold binary_normalize, binary_round.
  replace (fexp 53 1024 (Z.pos (digits2_pos p) + 0))
    with (Z.pos (digits2_pos p) - 53)%Z
    by (unfold fexp, SpecFloat.emin; lia).
  rewrite <- (round_whole p HL). cbv zeta.
  unfold shl_align. rewrite Z.sub_0_r.
  destruct (Z.pos (digits2_pos p) - 53)%Z as [|d|d] eqn:E; cbn [fst];
    try reflexivity; lia.
Qed.

(** [p] shifted by 52 bits, aligned back. *)
Lemma shift_whole (p : positive) :
  (Z.pos (digits2_pos p) <= 53)%Z ->
  let e := (Z.pos (digits2_pos p) - 53)%Z in
  match (e + 52)%Z with
  | Z.pos d => Pos.iter xO (fst (shl_align p 0 e)) d
  | _ => fst (shl_align p 0 e)
  end = Pos.iter xO p 52.
Proof.
  intros HL e. subst e. unfold shl_align. rewrite Z.sub_0_r.
  destruct (Z.pos (digits2_pos p) - 53)%Z as [|c|c] eqn:E; cbn [fst]; try lia.
  - (* 53 bits *) reflexivity.
  - destruct (Z.neg c + 52)%Z as [|d|d] eqn:E'; try lia.
    + replace c with 52%positive by lia. reflexivity.
    + rewrite <- Pos.iter_add. f_equal. lia.
Qed.

Lemma normalize_shifted (p : positive) :
  (Z.pos (digits2_pos p) <= 53)%Z ->
  binary_normalize 53 1024 (Z.pos (Pos.iter xO p 52)) (-52) false = whole p.
Proof.
  intros HL. unfold binary_normalize, binary_round.
  rewrite digits_shift.
  replace (fexp 53 1024 (Z.pos (digits2_pos p + 52) + -52))
    with (Z.pos (digits2_pos p) - 53)%Z
    by (unfold fexp, SpecFloat.emin; lia).
  assert (Ha : shl_align (Pos.iter xO p 52) (-52) (Z.pos (digits2_pos p) - 53) =
               (Pos.iter xO p 52, (-52)%Z)).
  { unfold shl_align.
    destruct (Z.pos (digits2_pos p) - 53 - -52)%Z eqn:E; try reflexivity; lia. }
  rewrite Ha. unfold binary_round_aux.
  assert (Hs : shr_fexp 53 1024 (Z.pos (Pos.iter xO p 52)) (-52) loc_Exact =
               (Build_shr_record
                  (Z.pos (fst (shl_align p 0 (Z.pos (digits2_pos p) - 53))))
                  false false,
                (Z.pos (digits2_pos p) - 53)%Z)).
  { unfold shr_fexp.
    change (Zdigits2 (Z.pos (Pos.iter xO p 52)))
      with (Z.pos (digits2_pos (Pos.iter xO p 52))).
    rewrite digits_shift.
    replace (fexp 53 1024 (Z.pos (digits2_pos p + 52) + -52) - -52)%Z
      with (Z.pos (digits2_pos p) - 53 + 52)%Z
      by (unfold fexp, SpecFloat.emin; lia).
    pose proof (shift_whole p HL) as Hw. cbv zeta in Hw.
    unfold shr. cbn [shr_record_of_loc].
    destruct (Z.pos (digits2_pos p) - 53 + 52)%Z as [|d|d] eqn:E; try lia.
    - rewrite Hw. f_equal. lia.
    - rewrite <- Hw, shr_shift. f_equal. lia. }
  rewrite Hs. cbn [shr_m loc_of_shr_record round_nearest_even].
  pose proof (whole_digits p HL) as Hd.
  rewrite shr_fexp_canonical by (rewrite Hd; lia).
  cbn [shr_m].
  replace (Z.pos (digits2_pos p) - 53 <=? 1024 - 53)%Z with true
    by (symmetry; apply Z.leb_le; lia).
  reflexivity.
Qed.

(** Adding one to a whole number. *)
Lemma SFadd_whole_one (p : positive) :
  (Z.pos (digits2_pos (p + 1)) <= 53)%Z ->
  SFadd 53 1024 (whole p) (whole 1) = whole (p + 1).
Proof.
  intros HL1.
  assert (HL : (Z.pos (digits2_pos p) <= 53)%Z).
  { apply digits_bound; [|lia].
    assert (H := digits_shift 1 (digits2_pos (p + 1))).
    assert (Hlt : (Z.pos (p + 1) < 2 ^ Z.pos (digits2_pos (p + 1)))%Z).
    { clear. generalize (p + 1)%positive as q.
      induction q as [q IH | q IH |]; cbn [digits2_pos].
      - rewrite Pos2Z.inj_succ, Z.pow_succ_r by lia. lia.
      - rewrite Pos2Z.inj_succ, Z.pow_succ_r by lia. lia.
      - reflexivity. }
    assert (2 ^ Z.pos (digits2_pos (p + 1)) <= 2 ^ 53)%Z
      by (apply Z.pow_le_mono_r; lia).
    lia. }
  rewrite <- (normalize_shifted (p + 1) HL1).
  unfold SFadd, whole. cbv zeta.
  change (Z.pos (digits2_pos 1) - 53)%Z with (-52)%Z.
  replace (Z.min (Z.pos (digits2_pos p) - 53) (-52)) with (-52)%Z by lia.
  cbn [cond_Zopp]. f_equal.
  assert (H1 : fst (shl_align (fst (shl_align p 0 (Z.pos (digits2_pos p) - 53)))
                      (Z.pos (digits2_pos p) - 53) (-52)) =
               Pos.iter xO p 52).
  { pose proof (shift_whole p HL) as Hw. cbv zeta in Hw. rewrite <- Hw.
    unfold shl_align at 1.
    destruct (Z.pos (digits2_pos p) - 53 + 52)%Z as [|d|d] eqn:E;
      destruct (-52 - (Z.pos (digits2_pos p) - 53))%Z as [|c|c] eqn:E';
      try lia; cbn [fst]; try reflexivity.
    f_equal. lia. }
  rewrite H1.
  change (fst (shl_align (fst (shl_align 1%positive 0%Z (-52)%Z))
                 (-52)%Z (-52)%Z))
    with (Pos.iter xO 1%positive 52%positive).
  rewrite !shl_shift. lia.
Qed.

Lemma Prim2SF_whole (p : positive) :
  (Z.pos (digits2_pos p) <= 53)%Z ->
  Prim2SF (Number_of_Z (Z.pos p)) = whole p.
Proof.
  intros HL. unfold Number_of_Z.
  change (binary_normalize prec emax (Z.pos p) 0 false)
    with (binary_normalize 53 1024 (Z.pos p) 0 false).
  rewrite (normalize_whole p HL).
  apply Prim2SF_SF2Prim. apply whole_valid. exact HL.
Qed.

(** Counting in binary64: below [2^53] the number after the integer
    [z] is [z + 1], exactly. *)
Lemma Number_succ (z : Z) :
  (0 <= z)%Z -> (z + 1 < 2 ^ 53)%Z ->
  Number_of_Z z + 1 = Number_of_Z (z + 1).
Proof.
  intros H0 H1. destruct z as [|p|p]; [reflexivity | | lia].
  assert (HL1 : (Z.pos (digits2_pos (p + 1)) <= 53)%Z)
    by (apply digits_bound; lia).
  assert (HL : (Z.pos (digits2_pos p) <= 53)%Z)
    by (apply digits_bound; lia).
  apply Prim2SF_inj. rewrite add_spec.
  change (Z.pos p + 1)%Z with (Z.pos (p + 1)).
  rewrite (Prim2SF_whole p HL), (Prim2SF_whole (p + 1) HL1).
  change (Prim2SF 1) with (whole 1).
  apply SFadd_whole_one. exact HL1.
Qed.

Lemma expected_marks_succ (random : nat -> float) (k : nat) (w h : float)
    (n : nat) :
  expected_marks random k w h (S n) =
  fillRect (random k * w) (random (S k) * h) 1 1 ::
  expected_marks random (S (S k)) w h n.
Proof.
  unfold expected_marks. cbn [seq map].
  replace (k + 2 * 0)%nat with k by lia.
  replace (k + 1)%nat with (S k) by lia.
  f_equal. rewrite <- seq_shift, map_map. apply map_ext. intros j.
  replace (k + 2 * S j)%nat with (S (S k) + 2 * j)%nat by lia.
  reflexivity.
Qed.

(** The loop from the counter [j] on: it goes round while the counter
    is below [count], and ends at the first whole number that is not. *)
Lemma marks_from (random : nat -> float) (count w h : float) (n : nat) :
  forall (j k fuel : nat),
    (Z.of_nat (j + n) < 2 ^ 53)%Z ->
    (forall a, (a < n)%nat ->
               (Number_of_Z (Z.of_nat (j + a)) <? count) = true) ->
    (Number_of_Z (Z.of_nat (j + n)) <? count) = false ->
    (n < fuel)%nat ->
    marks fuel random k (Number_of_Z (Z.of_nat j)) count w h =
    Some (expected_marks random k w h n).
Proof.
  induction n as [|n IH]; intros j k fuel Hb Hlt Hend Hf.
  - destruct fuel as [|fuel]; [lia|]. cbn [marks].
    rewrite Nat.add_0_r in Hend. rewrite Hend. reflexivity.
  - destruct fuel as [|fuel]; [lia|]. cbn [marks].
    pose proof (Hlt 0%nat ltac:(lia)) as H0. rewrite Nat.add_0_r in H0.
    rewrite H0.
    rewrite Number_succ by lia.
    replace (Z.of_nat j + 1)%Z with (Z.of_nat (S j)) by lia.
    rewrite (IH (S j) (S (S k)) fuel).
    + rewrite expected_marks_succ. reflexivity.
    + replace (S j + n)%nat with (j + S n)%nat by lia. exact Hb.
    + intros a Ha. replace (S j + a)%nat with (j + S a)%nat by lia.
      apply Hlt. lia.
    + replace (S j + n)%nat with (j + S n)%nat by lia. exact Hend.
    + lia.
Qed.

(** X19.  The film grain pass.  [applyFilmGrain(w, h)] sets the fill style
    once and then draws one-pixel marks while a counter that starts at
    0 and goes up by 1 is below [w * h * 0.015]: it ends, having drawn
    [n] marks, where [n] is the first whole number that is not below
    that product -- no mark when the product is [NaN], zero or
    negative (a canvas without width or height), the product rounded
    up otherwise.  Each mark takes two numbers from [Math.random()],
    the first scaled by [w] for [x] and the second by [h] for [y]. *)
Theorem film_grain_marks (random : nat -> float) (k : nat) (w h : float)
    (n fuel : nat) :
  let count := w * h * 0.015 in
  (Z.of_nat n < 2 ^ 53)%Z ->
  (forall a, (a < n)%nat -> (Number_of_Z (Z.of_nat a) <? count) = true) ->
  (Number_of_Z (Z.of_nat n) <? count) = false ->
  (n < fuel)%nat ->
  applyFilmGrain fuel random k w h =
  Some (fillStyle "rgba(255,255,255,0.03)" :: expected_marks random k w h n).
Proof.
  intros count Hb Hlt Hend Hf. unfold applyFilmGrain. cbv zeta. fold count.
  change 0 with (Number_of_Z (Z.of_nat 0)).
  rewrite (marks_from random count w h n 0 k fuel); try assumption.
  reflexivity.
Qed.

(** X19, run: a canvas of 30 by 10: the product is 4.5 and five marks are drawn;
    a canvas without height: none. *)
Lemma film_grain_marks_run :
  let random := fun k => Number_of_Z (Z.of_nat k) / 16 in
  (30 * 10 * 0.015 = 4.5 /\ (Number_of_Z 5 <? 4.5) = false /\
   (Number_of_Z 4 <? 4.5) = true) /\
  applyFilmGrain 10 random 0 30 10 =
    Some (fillStyle "rgba(255,255,255,0.03)" ::
          expected_marks random 0 30 10 5) /\
  applyFilmGrain 1 random 0 30 0 = Some [fillStyle "rgba(255,255,255,0.03)"].
Proof.
  intros random. split; [repeat split|]. split.
  - apply (film_grain_marks random 0 30 10 5 10); try lia; try reflexivity.
    intros a Ha.
    destruct a as [|[|[|[|[|a]]]]]; try reflexivity. lia.
  - apply (film_grain_marks random 0 30 0 0 1); try lia; reflexivity.
Defined.

End GrainFacts.
